(** * httpclient: the middleware pipeline, the response cache and the
      circuit breaker

    A shallow embedding of [clients/httpclient]: the pipeline composer
    [configMiddlewares], the cache middleware [NewCacheMiddleware] with its
    key derivation and record construction, and the circuit breaker
    middleware [NewCircuitBreakerMiddleware] over a model of
    [github.com/sony/gobreaker].

    Go values are modelled as follows.
    - [int], [int64], [uint32], [time.Duration] and [time.Time] are [Z];
      where the source's arithmetic can leave the type's range the
      wrap-around is written out ([wrap_u32], [wrap_i64]).
    - [string] and [[]byte] are [string] (a sequence of bytes).
    - [http.Header] (a Go map from canonical names to value lists) is a
      [gmap string (list string)].
    - a pair of results (a pointer and an [error]) is a pair of options,
      [None] being [nil]; both components can be present at once, as in Go.
    - the network, the key-value store and the clock live in a world [W]
      that is threaded through every call; goroutines started by the code
      and log lines are collected next to it. *)

From Stdlib Require Import ZArith String Ascii List Bool Lia.
From stdpp Require Import base option gmap strings list sorting.
Import ListNotations.

Local Open Scope string_scope.
Local Open Scope Z_scope.

(** ** Machine integers *)

Definition wrap_u32 (z : Z) : Z := z mod 2 ^ 32.
Definition wrap_i64 (z : Z) : Z := (z + 2 ^ 63) mod 2 ^ 64 - 2 ^ 63.
Definition max_int64 : Z := 2 ^ 63 - 1.

(** [time.Second], in nanoseconds. *)
Definition time_Second : Z := 1000000000.

(** ** Errors

    Go's [error] values.  [errorString] is what [errors.New] and
    [fmt.Errorf] without [%w] build, [wrapError prefix e] what
    [fmt.Errorf (prefix ++ "%w", e)] builds, [HTTPStatusError] is the
    struct of circuit_breaker.go, and the last two are gobreaker's
    sentinel errors. *)
Inductive error : Type :=
| errorString (msg : string)
| wrapError (prefix : string) (err : error)
| HTTPStatusError (Status : Z) (Err : error)
| ErrOpenState
| ErrTooManyRequests.

(** [errors.Unwrap]. *)
Definition Unwrap (e : error) : option error :=
  match e with
  | wrapError _ inner => Some inner
  | _ => None
  end.

Fixpoint error_size (e : error) : nat :=
  match e with
  | wrapError _ inner => S (error_size inner)
  | HTTPStatusError _ inner => S (error_size inner)
  | _ => 1%nat
  end.

(** ** Contexts

    A [context.Context] is either the background context or derived from a
    parent with its own cancel function (identified by a number).  A
    context is done once its own cancel function or one of an ancestor has
    been called. *)
Inductive Context : Type :=
| Background
| WithCancel (parent : Context) (id : nat).

Fixpoint ctx_done (cancelled : gset nat) (c : Context) : bool :=
  match c with
  | Background => false
  | WithCancel parent id => bool_decide (id ∈ cancelled) || ctx_done cancelled parent
  end.

(** ** Bodies

    A response body is a stream read once.  [Readable s] delivers the
    bytes [s] and then EOF; [Failing s e] delivers [s] and then fails with
    [e]. *)
Inductive Body : Type :=
| Readable (data : string)
| Failing (data : string) (e : error).

(** [io.ReadAll]: the bytes read, the error if any, and the stream as it is
    left behind. *)
Definition ReadAll (b : Body) : string * option error * Body :=
  match b with
  | Readable s => (s, None, Readable "")
  | Failing s e => (s, Some e, Failing "" e)
  end.

(** ** Bytes and strings *)

Definition byte_code (c : ascii) : Z := Z.of_N (N_of_ascii c).
Definition byte_of (z : Z) : ascii := ascii_of_N (Z.to_N z).

Definition in_range (lo hi : string) (c : ascii) : bool :=
  match lo, hi with
  | String l _, String h _ => (byte_code l <=? byte_code c) && (byte_code c <=? byte_code h)
  | _, _ => false
  end.

Definition is_digit (c : ascii) : bool := in_range "0" "9" c.
Definition is_lower (c : ascii) : bool := in_range "a" "z" c.
Definition is_upper (c : ascii) : bool := in_range "A" "Z" c.

Fixpoint contains_byte (c : ascii) (s : string) : bool :=
  match s with
  | EmptyString => false
  | String d rest => Ascii.eqb c d || contains_byte c rest
  end.

Fixpoint all_bytes (p : ascii -> bool) (s : string) : bool :=
  match s with
  | EmptyString => true
  | String c rest => p c && all_bytes p rest
  end.

(** [strings.Join]. *)
Fixpoint Join (elems : list string) (sep : string) : string :=
  match elems with
  | [] => ""
  | [x] => x
  | x :: rest => x ++ sep ++ Join rest sep
  end.

(** [strings.Cut] at a single byte: the text before the first occurrence of
    [sep], the text after it, and whether [sep] occurs. *)
Fixpoint Cut (s : string) (sep : ascii) : string * string * bool :=
  match s with
  | EmptyString => ("", "", false)
  | String c rest =>
      if Ascii.eqb c sep then ("", rest, true)
      else let '(before, after, found) := Cut rest sep in
           (String c before, after, found)
  end.

(** [strings.CutPrefix]. *)
Fixpoint CutPrefix (s prefix : string) : option string :=
  match prefix, s with
  | EmptyString, _ => Some s
  | String p prefix', String c s' =>
      if Ascii.eqb p c then CutPrefix s' prefix' else None
  | String _ _, EmptyString => None
  end.

(** [sort.Strings]: ascending byte-wise order. *)
Definition sort_Strings (l : list string) : list string := merge_sort String.le l.

(** Decimal rendering of an [int], as [strconv.Itoa] and the verb [%v]
    produce it. *)
Fixpoint digits_of (fuel : nat) (n : Z) (acc : string) : string :=
  match fuel with
  | O => acc
  | S fuel' =>
      let acc' := String (byte_of (48 + n mod 10)) acc in
      if n / 10 =? 0 then acc' else digits_of fuel' (n / 10) acc'
  end.

Definition decimal (n : Z) : string := digits_of (S (Z.to_nat (Z.log2 n))) n "".

Definition Itoa (n : Z) : string :=
  if n <? 0 then "-" ++ decimal (- n) else decimal n.

(** ** HTTP headers *)

(** [validHeaderFieldByte] of net/textproto: the token characters of
    RFC 7230. *)
Definition validHeaderFieldByte (c : ascii) : bool :=
  is_digit c || is_lower c || is_upper c || contains_byte c "!#$%&'*+-.^_`|~".

Fixpoint canonical_bytes (upper : bool) (s : string) : string :=
  match s with
  | EmptyString => ""
  | String c rest =>
      let c' := if upper && is_lower c then byte_of (byte_code c - 32)
                else if negb upper && is_upper c then byte_of (byte_code c + 32)
                else c in
      String c' (canonical_bytes (Ascii.eqb c' "-") rest)
  end.

(** [textproto.CanonicalMIMEHeaderKey]: the first letter and every letter
    after a hyphen in upper case, the others in lower case; a key holding a
    byte that is not a token character is returned as it is. *)
Definition CanonicalMIMEHeaderKey (s : string) : string :=
  if all_bytes validHeaderFieldByte s then canonical_bytes true s else s.

Abbreviation Header := (gmap string (list string)).

(** [Header.Get]: the first value under the canonical form of [key], or
    the empty string. *)
Definition Header_Get (h : Header) (key : string) : string :=
  match h !! CanonicalMIMEHeaderKey key with
  | Some (v :: _) => v
  | _ => ""
  end.

(** [Header.Set]: replaces the values under the canonical form of [key]. *)
Definition Header_Set (h : Header) (key value : string) : Header :=
  <[CanonicalMIMEHeaderKey key := [value]]> h.

(** [Header.Add]: appends to the values under the canonical form of [key]. *)
Definition Header_Add (h : Header) (key value : string) : Header :=
  let k := CanonicalMIMEHeaderKey key in
  <[k := (default [] (h !! k) ++ [value])%list]> h.

(** ** SHA-256 and hexadecimal rendering

    [crypto/sha256] (FIPS 180-4) on 32-bit words held in [Z], and
    [encoding/hex]. *)
Module SHA256.

Definition w32 (z : Z) : Z := z mod 2 ^ 32.
Definition add32 (a b : Z) : Z := w32 (a + b).
Definition rotr (n x : Z) : Z := Z.lor (Z.shiftr x n) (w32 (Z.shiftl x (32 - n))).
Definition not32 (x : Z) : Z := 2 ^ 32 - 1 - x.

Definition Ch (x y z : Z) : Z := Z.lxor (Z.land x y) (Z.land (not32 x) z).
Definition Maj (x y z : Z) : Z :=
  Z.lxor (Z.lxor (Z.land x y) (Z.land x z)) (Z.land y z).
Definition Sigma0 (x : Z) : Z := Z.lxor (Z.lxor (rotr 2 x) (rotr 13 x)) (rotr 22 x).
Definition Sigma1 (x : Z) : Z := Z.lxor (Z.lxor (rotr 6 x) (rotr 11 x)) (rotr 25 x).
Definition sigma0 (x : Z) : Z := Z.lxor (Z.lxor (rotr 7 x) (rotr 18 x)) (Z.shiftr x 3).
Definition sigma1 (x : Z) : Z := Z.lxor (Z.lxor (rotr 17 x) (rotr 19 x)) (Z.shiftr x 10).

(** The first primes, by trial division. *)
Definition is_prime (n : Z) : bool :=
  forallb (fun d => negb (n mod d =? 0) || (n <=? d))
          (List.map Z.of_nat (seq 2 (Z.to_nat (Z.sqrt n)))).

Definition primes (count : nat) : list Z :=
  firstn count (filter (fun n => is_prime n = true) (List.map Z.of_nat (seq 2 400))).

(** The largest [r] below [2^bits] with [r^3 <= n], built bit by bit. *)
Fixpoint cube_root (bits : nat) (n r : Z) : Z :=
  match bits with
  | O => r
  | S b =>
      let r' := r + 2 ^ Z.of_nat b in
      cube_root b n (if r' * r' * r' <=? n then r' else r)
  end.

(** The round constants: the first 32 bits of the fractional parts of the
    cube roots of the first 64 primes. *)
Definition K : list Z :=
  Eval vm_compute in List.map (fun p => w32 (cube_root 40 (p * 2 ^ 96) 0)) (primes 64).

(** The initial hash value: the first 32 bits of the fractional parts of the
    square roots of the first 8 primes. *)
Definition H0 : list Z :=
  Eval vm_compute in List.map (fun p => w32 (Z.sqrt (p * 2 ^ 64))) (primes 8).

Fixpoint bytes_of_string (s : string) : list Z :=
  match s with
  | EmptyString => []
  | String c rest => byte_code c :: bytes_of_string rest
  end.

(** Big-endian bytes of [z], [n] of them. *)
Fixpoint be_bytes (n : nat) (z : Z) : list Z :=
  match n with
  | O => []
  | S n' => (Z.shiftr z (8 * Z.of_nat n')) mod 256 :: be_bytes n' z
  end.

(** The message followed by the byte 0x80, zero bytes up to 56 modulo 64,
    and the length in bits on eight bytes. *)
Definition pad (msg : list Z) : list Z :=
  let len := Z.of_nat (length msg) in
  let zeros := Z.to_nat ((55 - len) mod 64) in
  (msg ++ 0x80 :: repeat 0 zeros ++ be_bytes 8 (8 * len))%list.

Fixpoint words_of (n : nat) (bytes : list Z) : list Z :=
  match n, bytes with
  | S n', a :: b :: c :: d :: rest =>
      (Z.shiftl a 24 + Z.shiftl b 16 + Z.shiftl c 8 + d) :: words_of n' rest
  | _, _ => []
  end.

(** The message schedule, most recent word first: [w] holds
    W(t-1), W(t-2), ... *)
Definition next_word (w : list Z) : Z :=
  add32 (add32 (sigma1 (nth 1 w 0)) (nth 6 w 0))
        (add32 (sigma0 (nth 14 w 0)) (nth 15 w 0)).

Fixpoint extend (n : nat) (w : list Z) : list Z :=
  match n with
  | O => w
  | S n' => extend n' (next_word w :: w)
  end.

Definition schedule (block : list Z) : list Z := rev (extend 48 (rev block)).

Definition round (st : list Z) (kw : Z * Z) : list Z :=
  match st with
  | [a; b; c; d; e; f; g; h] =>
      let t1 := add32 (add32 (add32 h (Sigma1 e)) (add32 (Ch e f g) (fst kw))) (snd kw) in
      let t2 := add32 (Sigma0 a) (Maj a b c) in
      [add32 t1 t2; a; b; c; add32 d t1; e; f; g]
  | _ => st
  end.

Fixpoint add_state (l1 l2 : list Z) : list Z :=
  match l1, l2 with
  | x :: l1', y :: l2' => add32 x y :: add_state l1' l2'
  | _, _ => []
  end.

Definition compress (h : list Z) (block : list Z) : list Z :=
  add_state h (fold_left round (combine K (schedule block)) h).

Fixpoint blocks (n : nat) (h : list Z) (bytes : list Z) : list Z :=
  match n with
  | O => h
  | S n' => blocks n' (compress h (words_of 16 bytes)) (skipn 64 bytes)
  end.

(** [sha256.Sum256]: the 32 bytes of the digest. *)
Definition Sum256 (data : string) : list Z :=
  let bytes := pad (bytes_of_string data) in
  concat (List.map (be_bytes 4) (blocks (length bytes / 64) H0 bytes)).

End SHA256.

Definition hex_digit (z : Z) : ascii :=
  if z <? 10 then byte_of (48 + z) else byte_of (87 + z).

(** [hex.EncodeToString]: two lower-case digits per byte. *)
Fixpoint EncodeToString (bytes : list Z) : string :=
  match bytes with
  | [] => ""
  | b :: rest => String (hex_digit (b / 16)) (String (hex_digit (b mod 16)) (EncodeToString rest))
  end.




(** ** URLs

    A [url.URL] without user information and opaque part.  [Host], [Path]
    and [Fragment] hold the encoded forms that [URL.String] writes out. *)
Record URL : Type := mkURL {
  Scheme : string;
  Host : string;
  Path : string;
  RawQuery : string;
  Fragment : string
}.

Definition nonempty (s : string) : bool := negb (String.eqb s "").

Definition first_byte_is (c : ascii) (s : string) : bool :=
  match s with
  | String d _ => Ascii.eqb c d
  | EmptyString => false
  end.

(** [URL.String]: scheme, "//" and host, path, "?" and raw query, "#" and
    fragment.  A relative path whose first segment holds a colon is
    prefixed with "./" when nothing precedes it. *)
Definition URL_String (u : URL) : string :=
  let path := Path u in
  (if nonempty (Scheme u) then Scheme u ++ ":" else "")
  ++ (if (nonempty (Scheme u) || nonempty (Host u))
         && (nonempty (Host u) || nonempty path) then "//" else "")
  ++ Host u
  ++ (if nonempty path && negb (first_byte_is "/" path) && nonempty (Host u)
      then "/" else "")
  ++ (if negb (nonempty (Scheme u)) && negb (nonempty (Host u))
         && contains_byte ":" (fst (fst (Cut path "/")))
      then "./" else "")
  ++ path
  ++ (if nonempty (RawQuery u) then "?" ++ RawQuery u else "")
  ++ (if nonempty (Fragment u) then "#" ++ Fragment u else "").

Definition unhex (c : ascii) : option Z :=
  if is_digit c then Some (byte_code c - 48)
  else if in_range "a" "f" c then Some (byte_code c - 87)
  else if in_range "A" "F" c then Some (byte_code c - 55)
  else None.

(** [url.QueryUnescape]: "+" becomes a space and "%XX" the byte XX; [None]
    when a "%" is not followed by two hexadecimal digits. *)
Fixpoint QueryUnescape (s : string) : option string :=
  match s with
  | EmptyString => Some ""
  | String c rest =>
      if Ascii.eqb c "%" then
        match rest with
        | String h (String l rest') =>
            match unhex h, unhex l, QueryUnescape rest' with
            | Some hi, Some lo, Some t => Some (String (byte_of (16 * hi + lo)) t)
            | _, _, _ => None
            end
        | _ => None
        end
      else
        match QueryUnescape rest with
        | Some t => Some (String (if Ascii.eqb c "+" then " "%char else c) t)
        | None => None
        end
  end.

Abbreviation Values := (gmap string (list string)).

(** The pairs of a raw query, split at "&". *)
Fixpoint split_pairs (s : string) (cur : string) : list string :=
  match s with
  | EmptyString => [cur]
  | String c rest =>
      if Ascii.eqb c "&" then cur :: split_pairs rest ""
      else split_pairs rest (cur ++ String c "")
  end.

(** One step of the loop of [url.ParseQuery]: a pair that holds a
    semicolon, is empty, or does not unescape is skipped. *)
Definition parse_pair (m : Values) (pair : string) : Values :=
  if contains_byte ";" pair then m
  else if negb (nonempty pair) then m
  else
    let '(key, value, _) := Cut pair "=" in
    match QueryUnescape key, QueryUnescape value with
    | Some k, Some v => <[k := (default [] (m !! k) ++ [v])%list]> m
    | _, _ => m
    end.

(** [URL.Query]: the raw query parsed, errors dropped. *)
Definition URL_Query (u : URL) : Values :=
  fold_left parse_pair (split_pairs (RawQuery u) "") ∅.

(** ** Requests and responses *)

Record Request : Type := mkRequest {
  Method : string;
  ReqURL : URL;
  ReqHeader : Header;
  ReqContext : Context
}.

(** An [http.Response]; the back pointer to the request is left out. *)
Record Response : Type := mkResponse {
  Status : string;
  StatusCode : Z;
  Proto : string;
  ProtoMajor : Z;
  ProtoMinor : Z;
  RespHeader : Header;
  RespBody : Body;
  ContentLength : Z
}.

Definition with_header (r : Response) (h : Header) : Response :=
  mkResponse (Status r) (StatusCode r) (Proto r) (ProtoMajor r) (ProtoMinor r)
             h (RespBody r) (ContentLength r).

Definition with_body (r : Response) (b : Body) : Response :=
  mkResponse (Status r) (StatusCode r) (Proto r) (ProtoMajor r) (ProtoMinor r)
             (RespHeader r) b (ContentLength r).

(** ** Cache records *)

(** The struct [CachePolicy]. *)
Record CachePolicy : Type := mkCachePolicy {
  MaxAge : Z;
  PolicyHeaders : list string
}.

(** The struct [SerializableCache]. *)
Record SerializableCache : Type := mkSerializableCache {
  CachedStatus : string;
  CachedStatusCode : Z;
  CachedProto : string;
  ResponseHeaders : Header;
  CachedBody : string;
  CacheControlValue : Z;
  Policy : CachePolicy
}.

(** The bytes [json.Marshal] writes for a record.  The text of the
    encoding is not modelled: the bytes are represented by the record they
    encode. *)
Inductive JSONBytes : Type :=
| json_Marshal (sr : SerializableCache).

(** A string read from the store, seen through [json.Unmarshal]: the empty
    string, a text that decodes into a record, or a non-empty text on which
    decoding fails. *)
Inductive StoredText : Type :=
| EmptyText
| JSONText (sc : SerializableCache)
| Undecodable (e : error).

Definition json_Unmarshal (t : StoredText) : error + SerializableCache :=
  match t with
  | EmptyText => inl (errorString "unexpected end of JSON input")
  | JSONText sc => inr sc
  | Undecodable e => inl e
  end.

(** ** Calls, panics and the state they run in *)

(** The call of [RedisClient.Set] that the cache middleware hands to a
    goroutine. *)
Record SetTask : Type := mkSetTask {
  task_ctx : Context;
  task_key : string;
  task_value : JSONBytes;
  task_ttl : Z
}.

(** The world [W] (network, store, clock), the goroutines started and not
    yet run, and the lines written to the logger, oldest first. *)
Record St (W : Type) : Type := mkSt {
  world : W;
  goroutines : list SetTask;
  logged : list string
}.
Arguments mkSt {W} _ _ _.
Arguments world {W} _.
Arguments goroutines {W} _.
Arguments logged {W} _.

(** A call either returns or panics. *)
Inductive Outcome (A : Type) : Type :=
| Returned (a : A)
| Panicked (msg : string).
Arguments Returned {A} _.
Arguments Panicked {A} _.

Definition M (W A : Type) : Type := St W -> Outcome A * St W.

#[global] Instance M_ret {W} : MRet (M W) :=
  fun A a s => (Returned a, s).

#[global] Instance M_bind {W} : MBind (M W) :=
  fun A B f m s =>
    match m s with
    | (Returned a, s') => f a s'
    | (Panicked msg, s') => (Panicked msg, s')
    end.

Definition panic {W A} (msg : string) : M W A := fun s => (Panicked msg, s).

Definition log {W} (line : string) : M W unit :=
  fun s => (Returned tt, mkSt (world s) (goroutines s) (logged s ++ [line])%list).

(** The statement [go f()] for the one function the code starts this way. *)
Definition go {W} (t : SetTask) : M W unit :=
  fun s => (Returned tt, mkSt (world s) (goroutines s ++ [t])%list (logged s)).

Definition read_world {W A} (f : W -> A) : M W A :=
  fun s => (Returned (f (world s)), s).

(** A call of a method that acts on the world alone. *)
Definition on_world {W A} (f : W -> A * W) : M W A :=
  fun s => let '(a, w) := f (world s) in (Returned a, mkSt w (goroutines s) (logged s)).

Definition nil_dereference : string :=
  "runtime error: invalid memory address or nil pointer dereference".

(** ** The pipeline composer (circuit_breaker.go, from line 110) *)

(** What [RoundTrip] returns: a response pointer and an error, either of
    which may be nil. *)
Definition Result : Type := option Response * option error.

Definition RoundTripper (W : Type) : Type := Request -> M W Result.

(** A middleware wraps a transport into a transport. *)
Definition RoundTripperMiddleware (W : Type) : Type := RoundTripper W -> RoundTripper W.

Section Composer.
Context {W : Type}.
(** [http.DefaultTransport]. *)
Variable DefaultTransport : RoundTripper W.

(** The loop [for i := len(middlewares) - 1; i >= 0; i--], entered with
    [n = i + 1].  An entry of the slice is a function value, [None] being
    the nil function; calling a nil entry panics. *)
Fixpoint compose_loop (middlewares : list (option (RoundTripperMiddleware W)))
    (n : nat) (composed : RoundTripper W) : Outcome (RoundTripper W) :=
  match n with
  | O => Returned composed
  | S i =>
      match middlewares !! i with
      | Some (Some m) => compose_loop middlewares i (m composed)
      | Some None => Panicked nil_dereference
      | None => Panicked "index out of range"
      end
  end.

Definition configMiddlewares
    (middlewares : list (option (RoundTripperMiddleware W))) : Outcome (RoundTripper W) :=
  compose_loop middlewares (length middlewares) DefaultTransport.

End Composer.

(** ** The circuit breaker library *)

Module gobreaker.

(** Modelled from the spec: the three states of a breaker. *)
Inductive State : Type := StateClosed | StateHalfOpen | StateOpen.

#[global] Instance State_eq_dec : EqDecision State.
Proof. solve_decision. Defined.

(** Modelled from the spec: the rolling counters of one window, each a
    [uint32]. *)
Record Counts : Type := mkCounts {
  Requests : Z;
  TotalSuccesses : Z;
  TotalFailures : Z;
  ConsecutiveSuccesses : Z;
  ConsecutiveFailures : Z
}.

(** Modelled from the spec: the counters of a window that has just been
    cleared. *)
Definition no_counts : Counts := mkCounts 0 0 0 0 0.

(** Modelled from the spec: an admitted call is counted. *)
Definition Counts_onRequest (c : Counts) : Counts :=
  mkCounts (wrap_u32 (Requests c + 1)) (TotalSuccesses c) (TotalFailures c)
           (ConsecutiveSuccesses c) (ConsecutiveFailures c).

(** Modelled from the spec: a success is counted and ends a run of
    failures. *)
Definition Counts_onSuccess (c : Counts) : Counts :=
  mkCounts (Requests c) (wrap_u32 (TotalSuccesses c + 1)) (TotalFailures c)
           (wrap_u32 (ConsecutiveSuccesses c + 1)) 0.

(** Modelled from the spec: a failure is counted and ends a run of
    successes. *)
Definition Counts_onFailure (c : Counts) : Counts :=
  mkCounts (Requests c) (TotalSuccesses c) (wrap_u32 (TotalFailures c + 1))
           0 (wrap_u32 (ConsecutiveFailures c + 1)).

(** Modelled from the spec: the fields of [gobreaker.Settings] that the
    repository sets or leaves at zero; [OnStateChange] stays nil. *)
Record Settings : Type := mkSettings {
  Name : string;
  MaxRequests : Z;
  Interval : Z;
  Timeout : Z;
  ReadyToTrip : option (Counts -> bool);
  IsSuccessful : option (option error -> bool)
}.

(** Modelled from the spec: the breaker of section 4.3 (three states; the
    counting window is cleared on every state change and every
    [interval]; Closed to Open when [readyToTrip] holds after a failure;
    Open to Half-Open once [timeout] has elapsed; Half-Open to Closed
    after [maxRequests] consecutive successes; Half-Open to Open on a
    failure).  [github.com/sony/gobreaker] is a dependency whose source is
    not part of the repository; the record and the functions below follow
    its [CircuitBreaker].  Times are nanoseconds; the zero [time.Time]
    is 0. *)
Record CircuitBreaker : Type := mkCircuitBreaker {
  name : string;
  maxRequests : Z;
  interval : Z;
  timeout : Z;
  readyToTrip : Counts -> bool;
  isSuccessful : option error -> bool;
  state : State;
  generation : Z;
  counts : Counts;
  expiry : Z
}.

(** Modelled from the spec: the library's defaults: no periodic clearing
    of the window, an open period of 60 seconds, tripping after more than
    five consecutive failures, and any error counted as a failure. *)
Definition defaultInterval : Z := 0.
Definition defaultTimeout : Z := 60 * time_Second.
Definition defaultReadyToTrip (c : Counts) : bool := 5 <? ConsecutiveFailures c.
Definition defaultIsSuccessful (err : option error) : bool :=
  match err with None => true | Some _ => false end.

(** Modelled from the spec: a new generation clears the counters and sets
    the expiry of the window (Closed) or of the open period (Open). *)
Definition toNewGeneration (cb : CircuitBreaker) (now : Z) : CircuitBreaker :=
  let expiry' :=
    match state cb with
    | StateClosed => if interval cb =? 0 then 0 else now + interval cb
    | StateOpen => now + timeout cb
    | StateHalfOpen => 0
    end in
  mkCircuitBreaker (name cb) (maxRequests cb) (interval cb) (timeout cb)
    (readyToTrip cb) (isSuccessful cb) (state cb) (generation cb + 1) no_counts expiry'.

(** Modelled from the spec: the breaker with its counters replaced. *)
Definition with_counts (cb : CircuitBreaker) (c : Counts) : CircuitBreaker :=
  mkCircuitBreaker (name cb) (maxRequests cb) (interval cb) (timeout cb)
    (readyToTrip cb) (isSuccessful cb) (state cb) (generation cb) c (expiry cb).

(** Modelled from the spec: a change of state starts a new generation. *)
Definition setState (cb : CircuitBreaker) (st : State) (now : Z) : CircuitBreaker :=
  if decide (state cb = st) then cb
  else toNewGeneration
         (mkCircuitBreaker (name cb) (maxRequests cb) (interval cb) (timeout cb)
            (readyToTrip cb) (isSuccessful cb) st (generation cb) (counts cb) (expiry cb))
         now.

(** Modelled from the spec: the state at time [now], after the window of
    a closed breaker or the open period of an open one has run out. *)
Definition currentState (cb : CircuitBreaker) (now : Z) : CircuitBreaker :=
  match state cb with
  | StateClosed =>
      if negb (expiry cb =? 0) && (expiry cb <? now) then toNewGeneration cb now else cb
  | StateOpen =>
      if expiry cb <? now then setState cb StateHalfOpen now else cb
  | StateHalfOpen => cb
  end.

(** Modelled from the spec: construction, with the library's defaults for
    the settings left at zero. *)
Definition NewCircuitBreaker (st : Settings) (now : Z) : CircuitBreaker :=
  toNewGeneration
    (mkCircuitBreaker (Name st)
       (if MaxRequests st =? 0 then 1 else MaxRequests st)
       (if Interval st <=? 0 then defaultInterval else Interval st)
       (if Timeout st <=? 0 then defaultTimeout else Timeout st)
       (default defaultReadyToTrip (ReadyToTrip st))
       (default defaultIsSuccessful (IsSuccessful st))
       StateClosed 0 no_counts 0)
    now.

(** Modelled from the spec: admission.  An open breaker rejects the call,
    a half-open one admits at most [maxRequests] trial calls. *)
Definition beforeRequest (cb : CircuitBreaker) (now : Z)
    : CircuitBreaker * Z * option error :=
  let cb := currentState cb now in
  if decide (state cb = StateOpen) then (cb, generation cb, Some ErrOpenState)
  else if bool_decide (state cb = StateHalfOpen) && (maxRequests cb <=? Requests (counts cb))
  then (cb, generation cb, Some ErrTooManyRequests)
  else (with_counts cb (Counts_onRequest (counts cb)), generation cb, None).

(** Modelled from the spec: a success is counted; enough consecutive
    successes close a half-open breaker. *)
Definition onSuccess (cb : CircuitBreaker) (now : Z) : CircuitBreaker :=
  match state cb with
  | StateClosed => with_counts cb (Counts_onSuccess (counts cb))
  | StateHalfOpen =>
      let cb := with_counts cb (Counts_onSuccess (counts cb)) in
      if maxRequests cb <=? ConsecutiveSuccesses (counts cb)
      then setState cb StateClosed now else cb
  | StateOpen => cb
  end.

(** Modelled from the spec: a failure is counted and may trip a closed
    breaker; it reopens a half-open one. *)
Definition onFailure (cb : CircuitBreaker) (now : Z) : CircuitBreaker :=
  match state cb with
  | StateClosed =>
      let cb := with_counts cb (Counts_onFailure (counts cb)) in
      if readyToTrip cb (counts cb) then setState cb StateOpen now else cb
  | StateHalfOpen => setState cb StateOpen now
  | StateOpen => cb
  end.

(** Modelled from the spec: the outcome of an admitted call is counted
    unless the generation has changed meanwhile. *)
Definition afterRequest (cb : CircuitBreaker) (before : Z) (success : bool) (now : Z)
    : CircuitBreaker :=
  let cb := currentState cb now in
  if negb (generation cb =? before) then cb
  else if success then onSuccess cb now else onFailure cb now.

(** Modelled from the spec: [CircuitBreaker.State], the state at [now]. *)
Definition State_of (cb : CircuitBreaker) (now : Z) : CircuitBreaker * State :=
  let cb := currentState cb now in (cb, state cb).

Section Execute.
Context {W A : Type}.
(** [time.Now]. *)
Variable time_Now : W -> Z.

(** Modelled from the spec: [CircuitBreaker.Execute].  A rejected call
    returns the breaker's error without running [req]; a panic of [req]
    is counted as a failure and raised again.  The breaker is returned
    as the call leaves it. *)
Definition Execute (cb : CircuitBreaker) (req : M W (option A * option error))
    (s : St W) : CircuitBreaker * (Outcome (option A * option error) * St W) :=
  let '(cb, generation, err) := beforeRequest cb (time_Now (world s)) in
  match err with
  | Some e => (cb, (Returned (None, Some e), s))
  | None =>
      match req s with
      | (Returned (result, err), s') =>
          (afterRequest cb generation (isSuccessful cb err) (time_Now (world s')),
           (Returned (result, err), s'))
      | (Panicked msg, s') =>
          (afterRequest cb generation false (time_Now (world s')),
           (Panicked msg, s'))
      end
  end.
End Execute.

End gobreaker.

(** ** The circuit breaker middleware (circuit_breaker.go) *)

Section CircuitBreakerMiddleware.
Context {W : Type}.
(** [time.Now]. *)
Variable time_Now : W -> Z.

(** The closure passed as [ReadyToTrip], on [uint32] values. *)
Definition ReadyToTrip (c : gobreaker.Counts) : bool :=
  let total := gobreaker.Requests c in
  let failures := gobreaker.TotalFailures c in
  (20 <=? total) && (50 <=? wrap_u32 (failures * 100) / total).

(** The closure passed as [IsSuccessful]. *)
Definition IsSuccessful (err : option error) : bool :=
  match err with
  | None => true
  | Some (HTTPStatusError status _) => (status <? 500) && negb (status =? 429)
  | Some _ => false
  end.

Definition breakerSettings (name : string) : gobreaker.Settings :=
  gobreaker.mkSettings name 10 (10 * time_Second) 0
    (Some ReadyToTrip) (Some IsSuccessful).

(** [logState]: one line unless the breaker is closed.  The line is
    rendered as the fields the source passes to the logger. *)
Definition logState (name : string) (breaker : gobreaker.CircuitBreaker) (req : Request)
    : M W gobreaker.CircuitBreaker :=
  now ← read_world time_Now;
  let '(breaker, state) := gobreaker.State_of breaker now in
  match state with
  | gobreaker.StateClosed => mret breaker
  | _ =>
      let stateStr :=
        match state with
        | gobreaker.StateOpen => "OPEN"
        | gobreaker.StateHalfOpen => "HALF-OPEN"
        | gobreaker.StateClosed => "UNKNOWN"
        end in
      _ ← log ("cb=" ++ name ++ " url=" ++ URL_String (ReqURL req) ++ " state=" ++ stateStr
               ++ " circuit-breaker:state change");
      mret breaker
  end.

(** The function handed to [breaker.Execute]. *)
Definition guarded (next : RoundTripper W) (req : Request) : M W Result :=
  '(resp, err) ← next req;
  match err with
  | Some e => mret (None, Some e)
  | None =>
      match resp with
      | None => panic nil_dereference
      | Some r =>
          if (500 <=? StatusCode r) || (StatusCode r =? 429)
          then mret (None, Some (HTTPStatusError (StatusCode r) (errorString "HTTP error")))
          else mret (Some r, None)
      end
  end.

(** One round trip through the middleware, together with the breaker it
    built as the call leaves it.  The breaker is a local variable of the
    request function: nothing keeps it once the call has returned. *)
Definition breakerRoundTrip (name : string) (next : RoundTripper W) (req : Request)
    (s : St W) : gobreaker.CircuitBreaker * (Outcome Result * St W) :=
  let breaker := gobreaker.NewCircuitBreaker (breakerSettings name) (time_Now (world s)) in
  match logState name breaker req s with
  | (Panicked msg, s) => (breaker, (Panicked msg, s))
  | (Returned breaker, s) =>
      let '(breaker, (out, s)) := gobreaker.Execute time_Now breaker (guarded next req) s in
      match out with
      | Panicked msg => (breaker, (Panicked msg, s))
      | Returned (result, err) =>
          match err with
          | Some e => (breaker, (Returned (None, Some e), s))
          | None => (breaker, (Returned (result, None), s))
          end
      end
  end.

Definition NewCircuitBreakerMiddleware (name : string) : RoundTripperMiddleware W :=
  fun next req s => snd (breakerRoundTrip name next req s).

End CircuitBreakerMiddleware.

(** ** Durations rendered in seconds

    [time.Duration.Seconds] and the verb [%v] on its [float64] result.  A
    positive binary64 number is a pair [(m, e)] standing for [m * 2^e] with
    [2^52 <= m < 2^53]; every duration lies in the normal range.  Rounding
    is to nearest, ties to even. *)
Module Float64.

(** [n / (d * 2^e)] as a fraction of integers. *)
Definition scale (n d e : Z) : Z * Z :=
  if 0 <=? e then (n, d * 2 ^ e) else (n * 2 ^ (- e), d).

Definition round_half_even (n d : Z) : Z :=
  let q := n / d in
  let r := n mod d in
  if (d <? 2 * r) || ((2 * r =? d) && Z.odd q) then q + 1 else q.

(** The binary64 number nearest to [n / d], for positive [n] and [d]. *)
Definition of_ratio (n d : Z) : Z * Z :=
  let k := Z.log2 n - Z.log2 d in
  let lg := let '(n', d') := scale n d k in if d' <=? n' then k else k - 1 in
  let e := lg - 52 in
  let '(n', d') := scale n d e in
  let m := round_half_even n' d' in
  if m =? 2 ^ 53 then (2 ^ 52, e + 1) else (m, e).

(** [Duration.Seconds] of a positive duration:
    [float64(sec) + float64(nsec)/1e9]. *)
Definition Seconds_pos (d : Z) : Z * Z :=
  let sec := d / time_Second in
  let nsec := d mod time_Second in
  if nsec =? 0 then of_ratio sec 1
  else
    let '(mq, eq) := of_ratio nsec 1000000000 in
    if sec =? 0 then (mq, eq)
    else of_ratio (sec * 2 ^ (- eq) + mq) (2 ^ (- eq)).

(** The value [v] and the bounds [lo] and [hi] of the interval that rounds
    to [(m, e)], as numerators over the common denominator returned
    last. *)
Definition bounds (m e : Z) : Z * Z * Z * Z :=
  let v := 4 * m in
  let lo := if m =? 2 ^ 52 then v - 1 else v - 2 in
  let hi := v + 2 in
  let sh := e - 2 in
  if 0 <=? sh then (v * 2 ^ sh, lo * 2 ^ sh, hi * 2 ^ sh, 1)
  else (v, lo, hi, 2 ^ (- sh)).

(** The position of the decimal point: the [dp] with
    [10^(dp-1) <= v / den < 10^dp]. *)
Fixpoint point_up (fuel : nat) (v den dp : Z) : Z :=
  match fuel with
  | O => dp
  | S fuel' => if v <? den * 10 ^ dp then dp else point_up fuel' v den (dp + 1)
  end.

Fixpoint point_down (fuel : nat) (v den j : Z) : Z :=
  match fuel with
  | O => - j
  | S fuel' => if den <=? v * 10 ^ (j + 1) then - j else point_down fuel' v den (j + 1)
  end.

Definition decimal_point (v den : Z) : Z :=
  if den <=? v then point_up 400 v den 1 else point_down 400 v den 0.

(** The shortest digits that round back to the number: at the first
    length [n] at which the value cut to [n] digits, or that plus one
    unit, lies within the bounds (the bounds count when the mantissa is
    even).  Returns the digits as an integer of [n] digits, or [10^n]
    when rounding up carries. *)
Fixpoint shortest (fuel : nat) (v lo hi den dp : Z) (inclusive : bool) (n : Z) : Z * Z :=
  let p := dp - n in
  let c := 10 ^ Z.max 0 (- p) in
  let u := den * 10 ^ Z.max 0 p in
  let t := (v * c) / u in
  let r := (v * c) mod u in
  let okdown := (lo * c <? t * u) || (inclusive && (lo * c =? t * u)) in
  let okup := ((t + 1) * u <? hi * c) || (inclusive && ((t + 1) * u =? hi * c)) in
  let nearest := if (u <? 2 * r) || ((2 * r =? u) && Z.odd t) then t + 1 else t in
  match fuel with
  | O => (t, n)
  | S fuel' =>
      if okdown && okup then (nearest, n)
      else if okdown then (t, n)
      else if okup then (t + 1, n)
      else shortest fuel' v lo hi den dp inclusive (n + 1)
  end.

Fixpoint strip_zeros (fuel : nat) (t : Z) : Z :=
  match fuel with
  | O => t
  | S fuel' => if (t mod 10 =? 0) && negb (t =? 0) then strip_zeros fuel' (t / 10) else t
  end.

Fixpoint zeros (n : nat) : string :=
  match n with
  | O => ""
  | S n' => String "0" (zeros n')
  end.

Definition take (n : Z) (s : string) : string := substring 0 (Z.to_nat n) s.
Definition drop (n : Z) (s : string) : string :=
  substring (Z.to_nat n) (String.length s - Z.to_nat n) s.
Definition len (s : string) : Z := Z.of_nat (String.length s).

(** The layout of the verb [%e] with the shortest digits. *)
Definition fmtE (ds : string) (dp : Z) : string :=
  let exp := dp - 1 in
  take 1 ds ++ (if 1 <? len ds then "." ++ drop 1 ds else "")
  ++ "e" ++ (if exp <? 0 then "-" else "+")
  ++ (if Z.abs exp <? 10 then "0" else "") ++ decimal (Z.abs exp).

(** The layout of the verb [%f] with the shortest digits. *)
Definition fmtF (ds : string) (dp : Z) : string :=
  (if 0 <? dp then take dp ds ++ zeros (Z.to_nat (dp - len ds)) else "0")
  ++ (if dp <? len ds
      then "." ++ zeros (Z.to_nat (- dp)) ++ drop (Z.max 0 dp) ds
      else "").

(** The verb [%v] on a positive binary64 number: [%e] when the decimal
    exponent is below -4 or at least 6, [%f] otherwise. *)
Definition format_pos (m e : Z) : string :=
  let '(v, lo, hi, den) := bounds m e in
  let dp := decimal_point v den in
  let '(t, n) := shortest 20 v lo hi den dp (Z.even m) 1 in
  let dp := if t =? 10 ^ n then dp + 1 else dp in
  let ds := decimal (strip_zeros 20 t) in
  let exp := dp - 1 in
  if (exp <? -4) || (6 <=? exp) then fmtE ds dp else fmtF ds dp.

End Float64.

(** [fmt.Sprintf("%v", d.Seconds())] for a [time.Duration] of [d]
    nanoseconds. *)
Definition format_Seconds (d : Z) : string :=
  if d =? 0 then "0"
  else
    let '(m, e) := Float64.Seconds_pos (Z.abs d) in
    (if d <? 0 then "-" else "") ++ Float64.format_pos m e.

(** ** The cache middleware *)

(** The digits at the head of [s] and what follows them. *)
Fixpoint span_digits (s : string) : string * string :=
  match s with
  | EmptyString => ("", "")
  | String c rest =>
      if is_digit c then let '(ds, tail) := span_digits rest in (String c ds, tail)
      else ("", s)
  end.

(** The first submatch of the leftmost match of the regular expression
    [max-age=(\d+)] in [s], if there is a match; the digits are taken
    greedily. *)
Fixpoint find_max_age (s : string) : option string :=
  match s with
  | EmptyString => None
  | String _ rest =>
      match CutPrefix s "max-age=" with
      | Some after =>
          let ds := fst (span_digits after) in
          if nonempty ds then Some ds else find_max_age rest
      | None => find_max_age rest
      end
  end.

Fixpoint digits_value (s : string) (acc : Z) : Z :=
  match s with
  | EmptyString => acc
  | String c rest => digits_value rest (10 * acc + (byte_code c - 48))
  end.

(** [strconv.Atoi] on a non-empty string of digits: the value, or an error
    when it does not fit an [int] of 64 bits. *)
Definition Atoi (ds : string) : option Z :=
  let n := digits_value ds 0 in
  if n <=? max_int64 then Some n else None.

(** The max-age that [getCacheControlHeaderValue] reads in the text of a
    Cache-Control header: the number matched, or 0 when nothing matches or
    the conversion fails. *)
Definition max_age_of (cacheControlValue : string) : Z :=
  match find_max_age cacheControlValue with
  | Some digits =>
      match Atoi digits with
      | Some age => age
      | None => 0
      end
  | None => 0
  end.

(** [getCacheControlHeaderValue].  The line printed when the conversion
    fails is not modelled. *)
Definition getCacheControlHeaderValue (res : Response) : Z :=
  max_age_of (Header_Get (RespHeader res) "Cache-Control").

Definition buildURLPart (req : Request) : string := URL_String (ReqURL req).

(** The loop of [buildQueryPart] over the pairs of the map in the order
    [pairs] in which they are ranged over, and what follows it: the values
    of every key are sorted, the parts [k=v1,v2] are sorted and joined with
    "&". *)
Definition queryPart_of (pairs : list (string * list string)) : string :=
  let queryParts :=
    List.map (fun kv : string * list string =>
                fst kv ++ "=" ++ Join (sort_Strings (snd kv)) ",")
             pairs in
  Join (sort_Strings queryParts) "&".

(** [buildQueryPart].  The map is ranged over in the order of
    [map_to_list]; by [queryPart_any_order] the order does not matter. *)
Definition buildQueryPart (req : Request) : string :=
  queryPart_of (map_to_list (URL_Query (ReqURL req))).

(** [buildVaryHeadersPart].  The line printed to standard output is not
    modelled. *)
Fixpoint headersParts (req : Request) (headers : list string) : list string :=
  match headers with
  | [] => []
  | key :: rest =>
      if nonempty (Header_Get (ReqHeader req) key)
      then (key ++ ":" ++ Header_Get (ReqHeader req) key) :: headersParts req rest
      else headersParts req rest
  end.

Definition buildVaryHeadersPart (req : Request) (headers : list string) : string :=
  Join (headersParts req headers) "|".

(** The string that [getCacheKey] hashes. *)
Definition cacheKeyBase (req : Request) (headers : list string) : string :=
  Join [buildURLPart req; buildQueryPart req; buildVaryHeadersPart req headers] "|".

Definition getCacheKey (req : Request) (headers : list string) : string :=
  EncodeToString (SHA256.Sum256 (cacheKeyBase req headers)).

(** [responseToJSON]: the body is read and put back, the record is filled
    from the response as it is at the time of the call.  Returns the
    response as the call leaves it and either the error or the bytes. *)
Definition responseToJSON (resp : Response) (policy : CachePolicy)
    : Response * (error + JSONBytes) :=
  let '(bodyBytes, err, rest) := ReadAll (RespBody resp) in
  match err with
  | Some e =>
      (with_body resp rest, inl (wrapError "failed to read response body: " e))
  | None =>
      let resp := with_body resp (Readable bodyBytes) in
      let sr := mkSerializableCache (Status resp) (StatusCode resp) (Proto resp)
                  (RespHeader resp) bodyBytes (getCacheControlHeaderValue resp) policy in
      (resp, inr (json_Marshal sr))
  end.

Definition parseCachedResponseFromString (jsonStr : StoredText)
    : error + SerializableCache :=
  match json_Unmarshal jsonStr with
  | inl err => inl (wrapError "failed to unmarshal cached response: " err)
  | inr sc => inr sc
  end.

(** The interface [IRedisClient], its methods acting on the world.  [Set]
    is a reserved word and is written [Set_]. *)
Record IRedisClient (W : Type) : Type := mkRedisClient {
  Get : Context -> string -> W -> (StoredText * option error) * W;
  Set_ : Context -> string -> JSONBytes -> Z -> W -> option error * W
}.
Arguments Get {W} _ _ _.
Arguments Set_ {W} _ _ _ _ _.

(** The struct [CacheConfig]; [RedisClient] is [None] for a nil interface
    and [TTL] a duration in nanoseconds. *)
Record CacheConfig (W : Type) : Type := mkCacheConfig {
  RedisClient : option (IRedisClient W);
  TTL : Z;
  OverrideTTL : bool;
  Headers : list string
}.
Arguments RedisClient {W} _.
Arguments TTL {W} _.
Arguments OverrideTTL {W} _.
Arguments Headers {W} _.

(** The nested loops that copy the stored headers with [Header.Add]; the
    map is ranged over in the order of [map_to_list]. *)
Definition add_all (h : Header) (kv : string * list string) : Header :=
  fold_left (fun h vv => Header_Add h (fst kv) vv) (snd kv) h.

Definition stored_headers (m : Header) : Header :=
  fold_left add_all (map_to_list m) ∅.

Section CacheMiddleware.
Context {W : Type}.

(** The response rebuilt from a stored record (the hit path). *)
Definition cachedResponse (responseSerialized : SerializableCache) : Response :=
  let header := stored_headers (ResponseHeaders responseSerialized) in
  let newCacheControl :=
    "max-age=" ++ Itoa (CacheControlValue responseSerialized) ++ ", public" in
  let header := Header_Set header "Cache-Control" newCacheControl in
  let header := Header_Set header "X-Cache" "HIT" in
  mkResponse (CachedStatus responseSerialized) (CachedStatusCode responseSerialized)
    (CachedProto responseSerialized) 1 1 header
    (Readable (CachedBody responseSerialized))
    (Z.of_nat (String.length (CachedBody responseSerialized))).

(** The time to live of a 2xx response: the header's max-age in seconds as
    a [time.Duration], or the configured one under [OverrideTTL]. *)
Definition effective_ttl (cfg : CacheConfig W) (responseCacheControl : Z) : Z :=
  if OverrideTTL cfg then TTL cfg
  else wrap_i64 (time_Second * responseCacheControl).

(** The text written into the Cache-Control header of a 2xx response:
    [fmt.Sprintf] with the verb [%v] on [ttl.Seconds()]. *)
Definition newCacheControl (ttl : Z) : string :=
  "max-age=" ++ format_Seconds ttl ++ ", public".

(** The part of the request function after a miss, from the call of
    [next.RoundTrip] on. *)
Definition missPath (cfg : CacheConfig W) (cacheKey : string)
    (next : RoundTripper W) (req : Request) : M W Result :=
  '(resp, err) ← next req;
  match err with
  | Some e => mret (resp, Some (wrapError "error executing request: " e))
  | None =>
      match resp with
      | None => panic nil_dereference
      | Some resp =>
          if (200 <=? StatusCode resp) && (StatusCode resp <? 300) then
            let responseCacheControl := getCacheControlHeaderValue resp in
            let ttl := effective_ttl cfg responseCacheControl in
            let resp := with_header resp
                          (Header_Set (RespHeader resp) "Cache-Control"
                                      (newCacheControl ttl)) in
            let policy := mkCachePolicy responseCacheControl (Headers cfg) in
            let '(resp, cachedValue) := responseToJSON resp policy in
            let resp := with_header resp (Header_Set (RespHeader resp) "X-Cache" "MISS") in
            match cachedValue with
            | inl e =>
                _ ← log "Error serializing response for cache";
                mret (Some resp, Some (wrapError "error serializing response for cache: " e))
            | inr cachedValue =>
                _ ← go (mkSetTask (ReqContext req) cacheKey cachedValue ttl);
                mret (Some resp, None)
            end
          else mret (Some resp, None)
      end
  end.

Definition NewCacheMiddleware (cfg : CacheConfig W) : RoundTripperMiddleware W :=
  fun next req =>
    match RedisClient cfg with
    | None => next req
    | Some redis =>
        if negb (String.eqb (Method req) "GET") then next req
        else
          let cacheKey := getCacheKey req (Headers cfg) in
          '(value, err) ← on_world (Get redis (ReqContext req) cacheKey);
          match err, value with
          | None, (JSONText _ | Undecodable _) =>
              match parseCachedResponseFromString value with
              | inl _ =>
                  _ ← log "Error deserializing cached response";
                  next req
              | inr responseSerialized =>
                  mret (Some (cachedResponse responseSerialized), None)
              end
          | _, _ => missPath cfg cacheKey next req
          end
    end.

(** The body of the goroutine: the store's [Set], and a log line when it
    fails. *)
Definition runSetTask (redis : IRedisClient W) (t : SetTask) : M W unit :=
  setErr ← on_world (Set_ redis (task_ctx t) (task_key t) (task_value t) (task_ttl t));
  match setErr with
  | Some _ => log "Error saving to cache"
  | None => mret tt
  end.

(** *** The paths through the request function *)

Inductive CachePath : Type :=
| Bypass                          (* no store configured, or not a GET *)
| Hit (sc : SerializableCache)    (* a stored text that decodes *)
| Fallback                        (* a stored text that does not decode *)
| Miss.                           (* no text, or an error from the store *)

(** The path a request takes, and the state in which the request function
    is after the lookup (and the log line of the fallback). *)
Definition cache_path (cfg : CacheConfig W) (req : Request) (s : St W) : CachePath * St W :=
  match RedisClient cfg with
  | None => (Bypass, s)
  | Some redis =>
      if negb (String.eqb (Method req) "GET") then (Bypass, s)
      else
        let '((value, err), w) :=
          Get redis (ReqContext req) (getCacheKey req (Headers cfg)) (world s) in
        match err, value with
        | None, JSONText sc => (Hit sc, mkSt w (goroutines s) (logged s))
        | None, Undecodable _ =>
            (Fallback, mkSt w (goroutines s)
                         (logged s ++ ["Error deserializing cached response"])%list)
        | _, _ => (Miss, mkSt w (goroutines s) (logged s))
        end
  end.

Definition is_2xx (resp : Response) : bool :=
  (200 <=? StatusCode resp) && (StatusCode resp <? 300).

Definition set_header (resp : Response) (key value : string) : Response :=
  with_header resp (Header_Set (RespHeader resp) key value).

(** A 2xx response with its Cache-Control header rewritten. *)
Definition rewritten (cfg : CacheConfig W) (resp : Response) : Response :=
  set_header resp "Cache-Control"
    (newCacheControl (effective_ttl cfg (getCacheControlHeaderValue resp))).

(** The record persisted for a 2xx response whose body reads as [body]. *)
Definition persisted (cfg : CacheConfig W) (resp : Response) (body : string)
    : SerializableCache :=
  mkSerializableCache (Status resp) (StatusCode resp) (Proto resp)
    (RespHeader (rewritten cfg resp)) body
    (getCacheControlHeaderValue (rewritten cfg resp))
    (mkCachePolicy (getCacheControlHeaderValue resp) (Headers cfg)).

Definition spawn (s : St W) (t : SetTask) : St W :=
  mkSt (world s) (goroutines s ++ [t])%list (logged s).

End CacheMiddleware.

(** ** A breaker kept across calls

    The reading of the specification in which the calls made under one name
    share one breaker: the breaker is built once and handed from call to
    call.  It is compared below with [breakerRoundTrip], which builds its
    own. *)
Module SpecBreaker.
Section Shared.
Context {W : Type}.
Variable time_Now : W -> Z.

Definition roundTrip (next : RoundTripper W) (req : Request)
    (breaker : gobreaker.CircuitBreaker) (s : St W)
    : gobreaker.CircuitBreaker * (Outcome Result * St W) :=
  gobreaker.Execute time_Now breaker (guarded next req) s.

(** [n] calls in a row; the outcomes are returned oldest first. *)
Fixpoint calls (n : nat) (next : RoundTripper W) (req : Request)
    (breaker : gobreaker.CircuitBreaker) (s : St W)
    : gobreaker.CircuitBreaker * (list (Outcome Result) * St W) :=
  match n with
  | O => (breaker, ([], s))
  | S n' =>
      let '(breaker, (out, s)) := roundTrip next req breaker s in
      let '(breaker, (outs, s)) := calls n' next req breaker s in
      (breaker, (out :: outs, s))
  end.
End Shared.
End SpecBreaker.

(** ** Scenarios *)

(** [n] calls in a row through a transport; the outcomes are returned
    oldest first. *)
Fixpoint round_trips {W} (n : nat) (t : RoundTripper W) (req : Request) (s : St W)
    : list (Outcome Result) * St W :=
  match n with
  | O => ([], s)
  | S n' =>
      let '(out, s) := t req s in
      let '(outs, s) := round_trips n' t req s in
      (out :: outs, s)
  end.

(** A world for the scenarios: a clock in nanoseconds, the status codes the
    upstream will answer with, the number of calls that reached it, and a
    store. *)
Record ScriptWorld : Type := mkScriptWorld {
  clock : Z;
  script : list Z;
  network_calls : nat;
  store : gmap string StoredText
}.

Definition plain_response (code : Z) (header : Header) (body : Body) : Response :=
  mkResponse (Itoa code) code "HTTP/1.1" 1 1 header body (-1).

(** The upstream: answers with the next status code of the script one
    millisecond later, and refuses the connection once the script is used
    up. *)
Definition upstream (header : Header) (body : Body) : RoundTripper ScriptWorld :=
  fun _ s =>
    let w := world s in
    match script w with
    | [] =>
        (Returned (None, Some (errorString "connection refused")),
         mkSt (mkScriptWorld (clock w + 1000000) [] (S (network_calls w)) (store w))
              (goroutines s) (logged s))
    | code :: rest =>
        (Returned (Some (plain_response code header body), None),
         mkSt (mkScriptWorld (clock w + 1000000) rest (S (network_calls w)) (store w))
              (goroutines s) (logged s))
    end.

(** A store client on the scenario world: [Get] answers with the text
    under the key, or the empty text and an error when there is none; [Set_]
    fails when its context is done with respect to [cancelled]. *)
Definition scriptRedis (cancelled : gset nat) : IRedisClient ScriptWorld :=
  mkRedisClient ScriptWorld
    (fun _ key w =>
       match store w !! key with
       | Some text => ((text, None), w)
       | None => ((EmptyText, Some (errorString "redis: nil")), w)
       end)
    (fun ctx key value _ w =>
       if ctx_done cancelled ctx then (Some (errorString "context canceled"), w)
       else
         match value with
         | json_Marshal sr =>
             (None, mkScriptWorld (clock w) (script w) (network_calls w)
                      (<[key := JSONText sr]> (store w)))
         end).

Definition start (codes : list Z) : St ScriptWorld :=
  mkSt (mkScriptWorld 1000000000000 codes 0 ∅) [] [].

Definition get_request (path query : string) (header : Header) (ctx : Context) : Request :=
  mkRequest "GET" (mkURL "https" "api.example.com" path query "") header ctx.

(** The nested application of a list of middlewares over a transport, the
    first-listed outermost. *)
Definition nested {W} (DefaultTransport : RoundTripper W)
    (ms : list (RoundTripperMiddleware W)) : RoundTripper W :=
  fold_right (fun m t => m t) DefaultTransport ms.

(** A middleware that writes a line when it is handed the request and one
    when the rest of the chain has returned. *)
Definition tracing {W} (tag : string) : RoundTripperMiddleware W :=
  fun next req =>
    _ ← log ("request reaches " ++ tag);
    out ← next req;
    _ ← log ("response reaches " ++ tag);
    mret out.

(** The breaker that a call through the middleware builds at time [now]. *)
Definition fresh (name : string) (now : Z) : gobreaker.CircuitBreaker :=
  gobreaker.NewCircuitBreaker (breakerSettings name) now.

(** What the request function of the breaker middleware makes of the
    outcome of the guarded call when the breaker admits it. *)
Definition passed_on {W} (out : Outcome Result * St W) : Outcome Result * St W :=
  match out with
  | (Returned (result, Some e), s') => (Returned (None, Some e), s')
  | (Returned (result, None), s') => (Returned (result, None), s')
  | (Panicked msg, s') => (Panicked msg, s')
  end.

Definition http_error (code : Z) : Outcome Result :=
  Returned (None, Some (HTTPStatusError code (errorString "HTTP error"))).

(** Fourteen answers with status 500, ten with status 200, one with status
    500, and the answer to the 26th call. *)
Definition scenarioC : list Z :=
  (repeat 500 14 ++ repeat 200 10 ++ [500; 200])%list.

Definition svc_request : Request := get_request "/items" "" ∅ Background.

Definition is_http_error (code : Z) (out : Outcome Result) : bool :=
  match out with
  | Returned (None, Some (HTTPStatusError c _)) => c =? code
  | _ => false
  end.

Definition is_circuit_open (out : Outcome Result) : bool :=
  match out with
  | Returned (None, Some ErrOpenState) => true
  | _ => false
  end.

(** Scenario A: GET /users/1 with the given Authorization header. *)
Definition users_request (method auth : string) : Request :=
  mkRequest method (mkURL "https" "api.example.com" "/users/1" "" "")
            {["Authorization" := [auth]]} Background.


Definition items_request (ctx : Context) : Request := get_request "/items" "" ∅ ctx.

Definition cc60 : Header := {["Cache-Control" := ["max-age=60"]]}.

(** A store client, an override of 30 seconds switched on or off, and no
    cache-key headers. *)
Definition scenarioB_cfg (override : bool) : CacheConfig ScriptWorld :=
  mkCacheConfig ScriptWorld (Some (scriptRedis ∅)) (30 * time_Second) override [].

Definition no_store_cfg : CacheConfig ScriptWorld :=
  mkCacheConfig ScriptWorld None (30 * time_Second) false [].

(** The state in which the upstream leaves the world after one call. *)
Definition answered (rest : list Z) : St ScriptWorld :=
  mkSt (mkScriptWorld 1000001000000 rest 1 ∅) [] [].

Definition record_of (t : SetTask) : SerializableCache :=
  match task_value t with json_Marshal sr => sr end.

Definition broken_body : Body := Failing "[" (errorString "unexpected EOF").

Definition caller_ctx : Context := WithCancel Background 1.

(** ** Notions used in the further properties *)


(** Every name of [m] with the canonical form of [k] has the value [v]. *)
Definition names_agree (m : gmap string string) (k v : string) : Prop :=
  forall k' v', m !! k' = Some v' ->
                CanonicalMIMEHeaderKey k' = CanonicalMIMEHeaderKey k -> v' = v.

Definition is_lower_hex (c : ascii) : bool := is_digit c || in_range "a" "f" c.

(** The key and the value that one step of the loop of [url.ParseQuery]
    adds to the map, if it adds any. *)
Definition pair_kv (pair : string) : option (string * string) :=
  if contains_byte ";" pair then None
  else if negb (nonempty pair) then None
  else
    let '(key, value, _) := Cut pair "=" in
    match QueryUnescape key, QueryUnescape value with
    | Some k, Some v => Some (k, v)
    | _, _ => None
    end.

(** The values given to the key [k], in the order of the pairs. *)
Definition values_of (k : string) (kvs : list (string * string)) : list string :=
  (filter (fun kv : string * string => kv.1 = k) kvs).*2.

(** ** Error messages *)

(** The method [Error] of the error values: [errors.New] and [fmt.Errorf]
    give their text, [%w] appends the text of the wrapped error,
    [HTTPStatusError.Error] is in circuit_breaker.go, and the last two are
    the texts of gobreaker's errors. *)
Fixpoint Error (e : error) : string :=
  match e with
  | errorString msg => msg
  | wrapError prefix inner => prefix ++ Error inner
  | HTTPStatusError status inner => "HTTP status " ++ Itoa status ++ ": " ++ Error inner
  | ErrOpenState => "circuit breaker is open"
  | ErrTooManyRequests => "too many requests"
  end.

(** ** Further scenario values *)

(** A record as a miss on [items_request] leaves it in the store, and a
    state whose store holds it under the key of that request. *)
Definition items_record : SerializableCache :=
  mkSerializableCache "200" 200 "HTTP/1.1" cc60 "[]" 60 (mkCachePolicy 60 []).

Definition warm_world : ScriptWorld :=
  mkScriptWorld 1000000000000 [] 0
    {[ getCacheKey (items_request Background) [] := JSONText items_record ]}.

Definition warm : St ScriptWorld := mkSt warm_world [] [].

(** A state whose store holds, under the same key, a text that is not a
    record. *)
Definition corrupt_world : ScriptWorld :=
  mkScriptWorld 1000000000000 [200] 0
    {[ getCacheKey (items_request Background) []
       := Undecodable (errorString "invalid character 'x' looking for beginning of value") ]}.

Definition corrupt : St ScriptWorld := mkSt corrupt_world [] [].

(** A store client for which the context of [caller_ctx] is done. *)
Definition failing_store_cfg : CacheConfig ScriptWorld :=
  mkCacheConfig ScriptWorld (Some (scriptRedis {[1%nat]})) (30 * time_Second) false [].

(** ** More of package strings *)

Definition HasPrefix (s prefix : string) : bool :=
  match CutPrefix s prefix with Some _ => true | None => false end.

Definition TrimPrefix (s prefix : string) : string :=
  match CutPrefix s prefix with Some rest => rest | None => s end.

Definition HasSuffix (s suffix : string) : bool :=
  (String.length suffix <=? String.length s)%nat
  && String.eqb (substring (String.length s - String.length suffix)
                           (String.length suffix) s) suffix.

Definition TrimSuffix (s suffix : string) : string :=
  if HasSuffix s suffix
  then substring 0 (String.length s - String.length suffix) s
  else s.

Fixpoint Contains (s substr : string) : bool :=
  HasPrefix s substr
  || match s with
     | EmptyString => false
     | String _ rest => Contains rest substr
     end.

(** [strings.Split] for a separator that is not empty: the pieces between
    the occurrences of [sep], found from left to right without overlap.
    [skip] counts the bytes of an occurrence still to be passed over, [cur]
    is the piece being read. *)
Fixpoint split_loop (skip : nat) (s sep cur : string) : list string :=
  match s with
  | EmptyString => [cur]
  | String c rest =>
      match skip with
      | S skip' => split_loop skip' rest sep cur
      | O =>
          if HasPrefix s sep
          then cur :: split_loop (String.length sep - 1) rest sep ""
          else split_loop 0 rest sep (cur ++ String c "")
      end
  end.

Definition Split (s sep : string) : list string := split_loop 0 s sep "".

(** The panic of an index expression out of range. *)
Definition index_out_of_range (i len : nat) : string :=
  "runtime error: index out of range [" ++ Itoa (Z.of_nat i) ++ "] with length "
  ++ Itoa (Z.of_nat len).

Definition index {A} (l : list A) (i : nat) : Outcome A :=
  match l !! i with
  | Some x => Returned x
  | None => Panicked (index_out_of_range i (length l))
  end.

(** ** The header middleware (headers.go) *)

Definition with_request_header (req : Request) (h : Header) : Request :=
  mkRequest (Method req) (ReqURL req) h (ReqContext req).

(** The loop [for k, v := range m { req.Header.Set(k, v) }] over the
    entries of a map in the order in which the range statement visits
    them. *)
Definition set_each (entries : list (string * string)) (h : Header) : Header :=
  fold_left (fun h kv => Header_Set h kv.1 kv.2) entries h.

Section HeaderMiddleware.
Context {W : Type}.

(** The order in which a range statement visits the entries of a map; Go
    leaves it unspecified. *)
Variable range : gmap string string -> list (string * string).

(** [NewHeaderMiddleware].  The source sets the headers on the request it
    was handed; the rest of the chain runs on that request. *)
Definition NewHeaderMiddleware (headers : gmap string string) : RoundTripperMiddleware W :=
  fun next req =>
    let h :=
      if negb (size headers =? 0)%nat
      then set_each (range headers) (ReqHeader req)
      else ReqHeader req in
    next (with_request_header req h).

End HeaderMiddleware.

(** ** The logging middleware (logger.go) *)

Inductive Level : Type := ErrorLevel | InfoLevel.

(** The fields the middleware gives to a zerolog event; [ev_cache] is set on
    the events of level info only. *)
Record LogEvent : Type := mkLogEvent {
  ev_level : Level;
  ev_service : string;
  ev_method : string;
  ev_url : string;
  ev_status : Z;
  ev_duration_ms : Z;
  ev_cache : option string;
  ev_message : string
}.

(** [Duration.Milliseconds]. *)
Definition Milliseconds (d : Z) : Z := Z.quot d 1000000.

Section LoggingMiddleware.
Context {W : Type}.
Variable time_Now : W -> Z.

(** The line the package's logger writes for an event. *)
Variable encode : LogEvent -> string.

Definition NewLoggingMiddleware (name : string) : RoundTripperMiddleware W :=
  fun next req =>
    start ← read_world time_Now;
    '(resp, err) ← next req;
    now ← read_world time_Now;
    let duration := now - start in
    match err with
    | Some e =>
        _ ← log (encode (mkLogEvent ErrorLevel name (Method req) (URL_String (ReqURL req))
                           500 (Milliseconds duration) None (Error e)));
        mret (resp, err)
    | None =>
        match resp with
        | None => panic nil_dereference
        | Some r =>
            _ ← log (encode (mkLogEvent InfoLevel name (Method req)
                               (URL_String (ReqURL req)) (StatusCode r)
                               (Milliseconds duration)
                               (Some (Header_Get (RespHeader r) "X-Cache")) (Status r)));
            mret (resp, err)
        end
    end.

End LoggingMiddleware.

(** ** The client facade (HTTPClient) *)

Record http_Client (W : Type) : Type := mk_http_Client {
  Timeout : Z;
  Transport : RoundTripper W
}.
Arguments mk_http_Client {W} _ _.
Arguments Timeout {W} _.
Arguments Transport {W} _.

Record HTTPClient (W : Type) : Type := mkHTTPClient {
  client : http_Client W;
  baseURL : string;
  headers : gmap string string
}.
Arguments mkHTTPClient {W} _ _ _.
Arguments client {W} _.
Arguments baseURL {W} _.
Arguments headers {W} _.

Record HTTPResponse (J : Type) : Type := mkHTTPResponse {
  HTTPResponse_Body : J;
  HTTPResponse_StatusCode : Z;
  HTTPResponse_Headers : Header
}.
Arguments mkHTTPResponse {J} _ _ _.
Arguments HTTPResponse_Body {J} _.
Arguments HTTPResponse_StatusCode {J} _.
Arguments HTTPResponse_Headers {J} _.

Section Facade.
Context {W J : Type}.

Variable range : gmap string string -> list (string * string).

(** Of net/http: the transport a client without middlewares uses, the
    method [Do] of a client, and [NewRequestWithContext]. *)
Variable DefaultTransport : RoundTripper W.
Variable Do : http_Client W -> RoundTripper W.
Variable NewRequestWithContext : Context -> string -> string -> option Body -> error + Request.

(** [ctx.Value] at the key of the forwarded headers, asserted to be a map
    of strings: [None] when the context holds no such map. *)
Variable Value_forwardedHeaders : Context -> option (gmap string string).

(** [json.Unmarshal] into a value of type any. *)
Variable Unmarshal : string -> error + J.

Definition NewHTTPClient (baseUrl : string) (timeout : Z)
    (middlewares : list (option (RoundTripperMiddleware W))) : Outcome (HTTPClient W) :=
  match configMiddlewares DefaultTransport middlewares with
  | Returned transport => Returned (mkHTTPClient (mk_http_Client timeout transport) baseUrl ∅)
  | Panicked msg => Panicked msg
  end.

(** A missing map is a nil map, over which a range statement does nothing. *)
Definition getForwardedHeaders (ctx : Context) : gmap string string :=
  match Value_forwardedHeaders ctx with
  | Some m => m
  | None => ∅
  end.

(** Lines 145 to 148 of the facade: the URL of the request. *)
Definition requestURL (c : HTTPClient W) (path : string) : string :=
  if negb (HasPrefix path "http")
  then TrimSuffix (baseURL c) "/" ++ "/" ++ TrimPrefix path "/"
  else path.

(** Lines 155 to 167: the header of the request. *)
Definition requestHeader (c : HTTPClient W) (ctx : Context) (method : string)
    (h : Header) : Header :=
  let h := set_each (range (getForwardedHeaders ctx)) h in
  let h := set_each (range (headers c)) h in
  if String.eqb method "POST" && String.eqb (Header_Get h "Content-Type") ""
  then Header_Set h "Content-Type" "application/json"
  else h.

Definition doRequest (c : HTTPClient W) (ctx : Context) (method path : string)
    (body : option Body) : M W (option (HTTPResponse J) * option error) :=
  match NewRequestWithContext ctx method (requestURL c path) body with
  | inl err => mret (None, Some (wrapError "failed to create request: " err))
  | inr req =>
      '(resp, err) ← Do (client c)
                        (with_request_header req
                           (requestHeader c ctx method (ReqHeader req)));
      match err with
      | Some e => mret (None, Some (wrapError "request execution failed: " e))
      | None =>
          match resp with
          | None => panic nil_dereference
          | Some r =>
              let '(bodyBytes, rerr, _) := ReadAll (RespBody r) in
              match rerr with
              | Some e => mret (None, Some (wrapError "failed to read response body: " e))
              | None =>
                  match Unmarshal bodyBytes with
                  | inl e =>
                      mret (None, Some (wrapError "failed to unmarshal response body: " e))
                  | inr jsonBody =>
                      mret (Some (mkHTTPResponse jsonBody (StatusCode r) (RespHeader r)),
                            None)
                  end
              end
          end
      end
  end.

Definition HTTPClient_Get (c : HTTPClient W) (ctx : Context) (path : string) :=
  doRequest c ctx "GET" path None.
Definition HTTPClient_Post (c : HTTPClient W) (ctx : Context) (path : string) (body : Body) :=
  doRequest c ctx "POST" path (Some body).
Definition HTTPClient_Put (c : HTTPClient W) (ctx : Context) (path : string) (body : Body) :=
  doRequest c ctx "PUT" path (Some body).
Definition HTTPClient_Patch (c : HTTPClient W) (ctx : Context) (path : string) (body : Body) :=
  doRequest c ctx "PATCH" path (Some body).
Definition HTTPClient_Delete (c : HTTPClient W) (ctx : Context) (path : string) :=
  doRequest c ctx "DELETE" path None.
Definition HTTPClient_Head (c : HTTPClient W) (ctx : Context) (path : string) :=
  doRequest c ctx "HEAD" path None.

End Facade.

(** ** The server middlewares (package server) *)

Definition defaultForwardHeaders : list string :=
  ["x-request-id"; "x-canonical-uri"; "x-client-user-agent"; "x-platform-id";
   "x-device-id"; "x-client-version"; "x-tenant-id"; "x-profile-type";
   "x-country-code"; "x-origin-ip"; "x-hsid"; "x-glb-exp-id"].

(** The loop of [ForwardHeadersMiddleware] over the names to forward;
    [c_Get] is the method [Get] of the fiber context, which reads a header of
    the incoming request. *)
Definition collect (c_Get : string -> string) (forwardHeaders : list string)
    (headersMap : gmap string string) : gmap string string :=
  fold_left (fun m h => let val := c_Get h in
                        if negb (String.eqb val "") then <[h := val]> m else m)
            forwardHeaders headersMap.

(** [ForwardHeadersMiddleware]: [c_Next] runs the handlers that follow, with
    the map stored in the user context. *)
Definition ForwardHeadersMiddleware {R} (appName : string) (forwardHeaders : list string)
    (c_Get : string -> string) (c_Next : gmap string string -> R) : R :=
  let forwardHeaders :=
    if (length forwardHeaders =? 0)%nat
    then (forwardHeaders ++ defaultForwardHeaders)%list
    else forwardHeaders in
  c_Next (collect c_Get forwardHeaders ∅).

Definition isValidCacheType (ct : string) : bool :=
  String.eqb ct "public" || String.eqb ct "private"
  || String.eqb ct "no-store" || String.eqb ct "no-cache".

(** [SetCacheControlMiddleware] on a fiber context of type [C]: [c_Next]
    runs the handlers that follow, [Response_Header_Set] sets a header of
    the response. *)
Definition SetCacheControlMiddleware {C} (cacheType : string) (ttl : Z)
    (c_Next : C -> option error * C) (Response_Header_Set : string -> string -> C -> C)
    (c : C) : option error * C :=
  if negb (isValidCacheType cacheType)
  then (Some (errorString ("invalid cache type: " ++ cacheType)), c)
  else
    let '(err, c) := c_Next c in
    match err with
    | Some e => (Some e, c)
    | None =>
        let value := cacheType in
        let value := if 0 <? ttl then value ++ ", max-age=" ++ Itoa ttl else value in
        (None, Response_Header_Set "Cache-Control" value c)
    end.

(** ** The Redis client (package redisclient) *)

(** [url.Userinfo], and a [url.URL] with its field User, which [URL]
    leaves out. *)
Record Userinfo : Type := mkUserinfo {
  username : string;
  password : string;
  passwordSet : bool
}.

Record RedisURL : Type := mkRedisURL {
  Located : URL;
  User : option Userinfo
}.

(** The options that the three constructors share. *)
Record PoolOptions : Type := mkPoolOptions {
  PoolSize : Z;
  MinIdleConns : Z;
  DialTimeout : Z;
  ReadTimeout : Z;
  WriteTimeout : Z
}.

Definition poolOptions : PoolOptions :=
  mkPoolOptions 20 5 (2 * time_Second) (1 * time_Second) (1 * time_Second).

(** The client that go-redis is asked to build. *)
Inductive UniversalClient : Type :=
| NewClient (Addr Password : string) (DB : Z) (pool : PoolOptions)
| NewFailoverClient (MasterName : string) (SentinelAddrs : list string)
                    (Password : string) (DB : Z) (pool : PoolOptions)
| NewClusterClient (Addrs : list string) (Password : string) (pool : PoolOptions).

Definition cleanRedisURL (rawURL : string) : string :=
  if HasPrefix rawURL "http://" then TrimPrefix rawURL "http://"
  else if HasPrefix rawURL "https://" then TrimPrefix rawURL "https://"
  else rawURL.

Definition extractPassword (parsed : RedisURL) : string :=
  match User parsed with
  | Some u => password u
  | None => ""
  end.

Definition extractAddrs (parsed : RedisURL) : list string :=
  Split (Host (Located parsed)) ",".

Definition createRedisClient (addrs : list string) (password : string) (db : Z)
    : Outcome UniversalClient :=
  match index addrs 0 with
  | Returned addr => Returned (NewClient addr password db poolOptions)
  | Panicked msg => Panicked msg
  end.

(** The expression that [createSentinelClient] and [createClusterClient]
    take the hosts from. *)
Definition hosts_of (rawURL : string) : Outcome (list string) :=
  match index (Split rawURL "//") 1 with
  | Returned rest =>
      match index (Split rest "/") 0 with
      | Returned hosts => Returned (Split hosts ",")
      | Panicked msg => Panicked msg
      end
  | Panicked msg => Panicked msg
  end.

Definition createSentinelClient (rawURL : string) (parsed : RedisURL) (password : string)
    : Outcome UniversalClient :=
  match hosts_of rawURL with
  | Returned hosts =>
      let path := TrimPrefix (Path (Located parsed)) "/" in
      let masterName :=
        if Contains path "service_name:"
        then index (Split path "service_name:") 1
        else Returned path in
      match masterName with
      | Returned masterName =>
          Returned (NewFailoverClient masterName hosts password 0 poolOptions)
      | Panicked msg => Panicked msg
      end
  | Panicked msg => Panicked msg
  end.

Definition createClusterClient (rawURL : string) (password : string)
    : Outcome UniversalClient :=
  match hosts_of rawURL with
  | Returned hosts => Returned (NewClusterClient hosts password poolOptions)
  | Panicked msg => Panicked msg
  end.

Section RedisClient.

(** [url.Parse]. *)
Variable parseURL : string -> error + RedisURL.

Definition built (c : Outcome UniversalClient)
    : Outcome (option UniversalClient * option error) :=
  match c with
  | Returned c => Returned (Some c, None)
  | Panicked msg => Panicked msg
  end.

(** [NewRedisClientFromURL]: the lines it prints, without the prefix and
    the date that the logger puts before each, and what it returns. *)
Definition NewRedisClientFromURL (rawURL : string)
    : list string * Outcome (option UniversalClient * option error) :=
  let cleanURL := cleanRedisURL rawURL in
  match parseURL cleanURL with
  | inl err =>
      (["Parsed error to : %w" ++ Error err],
       Returned (None, Some (wrapError "parsed error to : " err)))
  | inr parsed =>
      let password := extractPassword parsed in
      let addrs := extractAddrs parsed in
      let scheme := Scheme (Located parsed) in
      if String.eqb scheme "redis" then
        ([], built (createRedisClient addrs password 0))
      else if String.eqb scheme "redis+sentinel" || String.eqb scheme "sentinel" then
        (["connect into redis sentinel mode"],
         built (createSentinelClient rawURL parsed password))
      else if String.eqb scheme "redis+cluster" || String.eqb scheme "cluster" then
        (["connect into redis cluster"], built (createClusterClient rawURL password))
      else if (length addrs =? 0)%nat then
        ([], Returned (None, Some (errorString ("invalid redis URL: " ++ rawURL))))
      else
        ([], built (createRedisClient addrs password 0))
  end.

End RedisClient.

(** ** Scenario values for the facade, the server and the Redis client *)

(** A client over the scripted upstream, with one header of its own. *)
Definition api_client : HTTPClient ScriptWorld :=
  mkHTTPClient (mk_http_Client (30 * time_Second) (upstream ∅ (Readable "[]")))
               "https://api.example.com/" {["x-api-key" := "secret"]}.

(** An incoming request that carries the header x-request-id alone. *)
Definition incoming (name : string) : string :=
  if String.eqb name "x-request-id" then "r1" else "".

(** Contexts that hold the map stored by the server middleware for that
    request. *)
Definition forwarded_ctx (_ : Context) : option (gmap string string) :=
  Some (ForwardHeadersMiddleware "app" [] incoming id).

(** Stand-ins for net/http and encoding/json: a request for the URL as
    its path, a client that calls its transport once, and a decoder that
    accepts every text but the empty one. *)
Definition plain_request (ctx : Context) (method url : string) (_ : option Body)
    : error + Request :=
  inr (mkRequest method (mkURL "" "" url "" "") ∅ ctx).

Definition transport_Do {W} (c : http_Client W) : RoundTripper W := Transport c.

Definition text_Unmarshal (text : string) : error + string :=
  if nonempty text then inr text
  else inl (errorString "unexpected end of JSON input").

(** A stand-in for [url.Parse] on URLs of the forms scheme://host/path
    and scheme:opaque. *)
Definition simple_parse (urlStr : string) : error + RedisURL :=
  let '(scheme, rest, found) := Cut urlStr ":" in
  if negb found then inl (errorString "missing protocol scheme")
  else
    match CutPrefix rest "//" with
    | Some authority =>
        let '(host, path, slash) := Cut authority "/" in
        inr (mkRedisURL (mkURL scheme host (if slash then "/" ++ path else "") "" "") None)
    | None => inr (mkRedisURL (mkURL scheme "" "" "" "") None)
    end.


(** ** Strings through encoding/json *)

(** Of unicode/utf8: for a first byte that starts a sequence of more than
    one byte, the length of the sequence and the bounds of its second
    byte. *)
Definition utf8_first (b0 : Z) : option (nat * Z * Z) :=
  if b0 <? 0xC2 then None
  else if b0 <=? 0xDF then Some (2%nat, 0x80, 0xBF)
  else if b0 =? 0xE0 then Some (3%nat, 0xA0, 0xBF)
  else if b0 <=? 0xEC then Some (3%nat, 0x80, 0xBF)
  else if b0 =? 0xED then Some (3%nat, 0x80, 0x9F)
  else if b0 <=? 0xEF then Some (3%nat, 0x80, 0xBF)
  else if b0 =? 0xF0 then Some (4%nat, 0x90, 0xBF)
  else if b0 <=? 0xF3 then Some (4%nat, 0x80, 0xBF)
  else if b0 =? 0xF4 then Some (4%nat, 0x80, 0x8F)
  else None.

Definition byte_between (lo hi : Z) (c : ascii) : bool :=
  (lo <=? byte_code c) && (byte_code c <=? hi).

(** [utf8.DecodeRuneInString] as far as its size goes: the length of the
    encoding at the head of [s], or [None] when the head is not a valid
    encoding (the function then returns [RuneError] and the width 1). *)
Definition rune_size (s : string) : option nat :=
  match s with
  | EmptyString => None
  | String c0 rest =>
      if byte_code c0 <? 0x80 then Some 1%nat
      else
        match utf8_first (byte_code c0), rest with
        | Some (size, lo, hi), String c1 rest1 =>
            if negb (byte_between lo hi c1) then None
            else if (size <=? 2)%nat then Some 2%nat
            else
              match rest1 with
              | String c2 rest2 =>
                  if negb (byte_between 0x80 0xBF c2) then None
                  else if (size <=? 3)%nat then Some 3%nat
                  else
                    match rest2 with
                    | String c3 _ =>
                        if negb (byte_between 0x80 0xBF c3) then None else Some 4%nat
                    | EmptyString => None
                    end
              | EmptyString => None
              end
        | _, _ => None
        end
  end.

(** The encoding of U+FFFD. *)
Definition replacement_character : string :=
  String (byte_of 0xEF) (String (byte_of 0xBF) (String (byte_of 0xBD) "")).

(** A string as [json.Unmarshal] reads it back from what [json.Marshal]
    wrote for it: valid encodings are kept, every other byte becomes
    U+FFFD.  [skip] counts the bytes of a valid encoding still to be
    copied. *)
Fixpoint json_string_loop (skip : nat) (s : string) : string :=
  match s with
  | EmptyString => ""
  | String c rest =>
      match skip with
      | S skip' => String c (json_string_loop skip' rest)
      | O =>
          match rune_size s with
          | Some size => String c (json_string_loop (size - 1) rest)
          | None => replacement_character ++ json_string_loop 0 rest
          end
      end
  end.

Definition json_string (s : string) : string := json_string_loop 0 s.

Definition key_le (a b : string * list string) : Prop := String.le a.1 b.1.

#[global] Instance key_le_dec : RelDecision key_le :=
  fun a b => decide (String.le a.1 b.1).

(** A map of string lists through JSON: the encoder writes the keys in
    ascending order, the decoder stores them one after the other. *)
Definition json_header (h : Header) : Header :=
  fold_left (fun m kv => <[json_string kv.1 := json_string <$> kv.2]> m)
            (merge_sort key_le (map_to_list h)) ∅.

(** The record that [json.Unmarshal] reads back from what [json.Marshal]
    wrote for [sr]. *)
Definition json_round_trip (sr : SerializableCache) : SerializableCache :=
  mkSerializableCache (json_string (CachedStatus sr)) (CachedStatusCode sr)
    (json_string (CachedProto sr)) (json_header (ResponseHeaders sr))
    (json_string (CachedBody sr)) (CacheControlValue sr)
    (mkCachePolicy (MaxAge (Policy sr)) (json_string <$> PolicyHeaders (Policy sr))).



(** * Properties *)

(** ** SHA-256 test vectors *)

Example sha256_abc :
  EncodeToString (SHA256.Sum256 "abc")
  = "ba7816bf8f01cfea414140de5dae2223b00361a396177a9cb410ff61f20015ad".
Proof. vm_compute. reflexivity. Qed.

Example sha256_empty :
  EncodeToString (SHA256.Sum256 "")
  = "e3b0c44298fc1c149afbf4c8996fb92427ae41e4649b934ca495991b7852b855".
Proof. vm_compute. reflexivity. Qed.

Example sha256_two_blocks :
  EncodeToString (SHA256.Sum256
    "aaaaaaaaaaaaaaaaaaaaaaaaaaaaaaaaaaaaaaaaaaaaaaaaaaaaaaaaaaaaaaaaaaaaaaaaaaaaaaaaaaaaaaaaaaaaaaaaaaaa")
  = "2816597888e4a0d3a36b82b83316ab32680eb8f00f8cd3b904d681246d285a0e".
Proof. vm_compute. reflexivity. Qed.

(** ** The pipeline composer *)

Section ComposerProperties.
Context {W : Type}.
Variable DefaultTransport : RoundTripper W.


(** The loop entered at [n] wraps the entries below [n], the last of them
    innermost. *)
Lemma compose_loop_app (front back : list (RoundTripperMiddleware W))
    (composed : RoundTripper W) :
  compose_loop (Some <$> front ++ back)%list (length front) composed
  = Returned (fold_right (fun m t => m t) composed front).
Proof.
  revert back composed.
  induction front as [|m front IH] using rev_ind; intros back composed.
  - reflexivity.
  - rewrite length_app, Nat.add_comm. cbn [length Nat.add compose_loop].
    rewrite <- app_assoc. cbn [app].
    rewrite fmap_app, lookup_app_r by (rewrite length_fmap; lia).
    rewrite length_fmap, Nat.sub_diag. cbn [fmap list_fmap lookup list_lookup].
    rewrite <- fmap_cons, <- fmap_app, IH.
    rewrite fold_right_app. reflexivity.
Qed.

Lemma configMiddlewares_nested (ms : list (RoundTripperMiddleware W)) :
  configMiddlewares DefaultTransport (Some <$> ms) = Returned (nested DefaultTransport ms).
Proof.
  unfold configMiddlewares. rewrite length_fmap.
  rewrite <- (app_nil_r ms) at 1.
  apply (compose_loop_app ms []).
Qed.

(** C9: for a slice of middlewares of any length, [configMiddlewares]
    returns the nested application of the middlewares over the default
    transport, the first-listed outermost: with an empty slice it is the
    default transport itself, and the transport for [m :: ms] is [m]
    applied to the transport for [ms], so that [m] is handed the request
    first and decides what is returned last.  The result is a function of
    the slice alone. *)
Theorem configMiddlewares_first_outermost :
  configMiddlewares DefaultTransport [] = Returned DefaultTransport
  /\ (forall ms : list (RoundTripperMiddleware W),
        configMiddlewares DefaultTransport (Some <$> ms) = Returned (nested DefaultTransport ms))
  /\ (forall (m : RoundTripperMiddleware W) (ms : list (RoundTripperMiddleware W)),
        configMiddlewares DefaultTransport (Some <$> m :: ms) = Returned (m (nested DefaultTransport ms))).
Proof.
  split; [reflexivity|]. split.
  - apply configMiddlewares_nested.
  - intros m ms. apply (configMiddlewares_nested (m :: ms)).
Qed.

(** Three middlewares over the upstream: the first-listed is handed the
    request first and the response last. *)
Example configMiddlewares_order :
  match configMiddlewares (upstream ∅ (Readable ""))
          [Some (tracing "a"); Some (tracing "b"); Some (tracing "c")] with
  | Returned t =>
      logged (snd (t (get_request "/items" "" ∅ Background) (start [200])))
      = ["request reaches a"; "request reaches b"; "request reaches c";
         "response reaches c"; "response reaches b"; "response reaches a"]
  | Panicked _ => False
  end.
Proof. vm_compute. reflexivity. Qed.

(** A nil entry makes the composition panic when the loop reaches it. *)
Lemma configMiddlewares_nil_entry (ms : list (RoundTripperMiddleware W)) :
  configMiddlewares DefaultTransport ((Some <$> ms) ++ [None])%list
  = Panicked nil_dereference.
Proof.
  unfold configMiddlewares. rewrite length_app, Nat.add_comm.
  cbn [length Nat.add compose_loop].
  rewrite lookup_app_r by done.
  rewrite Nat.sub_diag. reflexivity.
Qed.

End ComposerProperties.

(** ** The circuit breaker middleware *)

Section BreakerProperties.
Context {W : Type}.
Variable time_Now : W -> Z.



Lemma fresh_closed name now :
  gobreaker.state (fresh name now) = gobreaker.StateClosed
  /\ gobreaker.expiry (fresh name now) = now + 10 * time_Second
  /\ gobreaker.counts (fresh name now) = gobreaker.no_counts.
Proof. repeat split. Qed.

Lemma currentState_fresh name now :
  gobreaker.currentState (fresh name now) now = fresh name now.
Proof.
  unfold gobreaker.currentState.
  destruct (fresh_closed name now) as (-> & -> & _).
  replace (now + 10 * time_Second <? now) with false
    by (symmetry; apply Z.ltb_ge; unfold time_Second; lia).
  rewrite andb_false_r. reflexivity.
Qed.

Lemma logState_fresh name now req (s : St W) :
  now = time_Now (world s) ->
  logState time_Now name (fresh name now) req s = (Returned (fresh name now), s).
Proof.
  intros ->. unfold logState, mbind, M_bind, read_world, gobreaker.State_of.
  rewrite currentState_fresh. reflexivity.
Qed.

Lemma beforeRequest_fresh name now :
  gobreaker.beforeRequest (fresh name now) now
  = (gobreaker.with_counts (fresh name now)
       (gobreaker.Counts_onRequest gobreaker.no_counts),
     1, None).
Proof.
  unfold gobreaker.beforeRequest. rewrite currentState_fresh. reflexivity.
Qed.

(** Every call builds a closed breaker that admits it: the middleware
    always runs the inner transport. *)
Lemma breaker_never_rejects name next req (s : St W) :
  NewCircuitBreakerMiddleware time_Now name next req s
  = passed_on (guarded next req s).
Proof.
  unfold NewCircuitBreakerMiddleware, breakerRoundTrip.
  fold (fresh name (time_Now (world s))).
  rewrite logState_fresh by reflexivity.
  unfold gobreaker.Execute. rewrite beforeRequest_fresh.
  destruct (guarded next req s) as [[[result [e|]]|msg] s']; reflexivity.
Qed.

Lemma readyToTrip_single (c : gobreaker.Counts) :
  gobreaker.Requests c < 20 -> ReadyToTrip c = false.
Proof.
  intros H. unfold ReadyToTrip.
  replace (20 <=? gobreaker.Requests c) with false by (symmetry; apply Z.leb_gt; lia).
  reflexivity.
Qed.

(** A closed breaker that has admitted fewer than twenty calls in its
    window is closed after the outcome has been counted. *)
Lemma afterRequest_closed (cb : gobreaker.CircuitBreaker) before success now :
  gobreaker.state cb = gobreaker.StateClosed ->
  gobreaker.readyToTrip cb = ReadyToTrip ->
  gobreaker.Requests (gobreaker.counts cb) < 20 ->
  gobreaker.state (gobreaker.afterRequest cb before success now) = gobreaker.StateClosed.
Proof.
  intros Hst Hrt Hreq. unfold gobreaker.afterRequest.
  assert (Hcur : gobreaker.state (gobreaker.currentState cb now) = gobreaker.StateClosed
                 /\ gobreaker.readyToTrip (gobreaker.currentState cb now) = ReadyToTrip
                 /\ gobreaker.Requests (gobreaker.counts (gobreaker.currentState cb now)) < 20).
  { unfold gobreaker.currentState. rewrite Hst.
    destruct (negb (gobreaker.expiry cb =? 0) && (gobreaker.expiry cb <? now)).
    - unfold gobreaker.toNewGeneration. cbn. rewrite Hst. repeat split. assumption.
    - repeat split; assumption. }
  destruct Hcur as (Hst' & Hrt' & Hreq').
  set (cb' := gobreaker.currentState cb now) in *.
  destruct (negb (gobreaker.generation cb' =? before)); [assumption|].
  destruct success.
  - unfold gobreaker.onSuccess. rewrite Hst'. exact Hst'.
  - unfold gobreaker.onFailure. rewrite Hst'. cbn.
    rewrite Hrt', readyToTrip_single by exact Hreq'. exact Hst'.
Qed.

(** The breaker a call has built is closed when the call returns,
    whatever the inner transport did. *)
Lemma breaker_left_closed name next req (s : St W) :
  gobreaker.state (fst (breakerRoundTrip time_Now name next req s))
  = gobreaker.StateClosed.
Proof.
  unfold breakerRoundTrip.
  fold (fresh name (time_Now (world s))).
  rewrite logState_fresh by reflexivity.
  unfold gobreaker.Execute. rewrite beforeRequest_fresh.
  destruct (guarded next req s) as [[[result err]|msg] s'].
  - destruct (gobreaker.isSuccessful _ err); destruct err;
      cbn [fst]; (apply afterRequest_closed; reflexivity).
  - cbn [fst]. apply afterRequest_closed; reflexivity.
Qed.

(** C10: when the inner transport returns a response whose status code is
    at least 500 or equal to 429, the middleware drops the response and
    returns a nil response together with an [HTTPStatusError] carrying
    that status code. *)
Theorem breaker_discards_5xx_and_429 name next req (s s' : St W) (r : Response) :
  next req s = (Returned (Some r, None), s') ->
  500 <= StatusCode r \/ StatusCode r = 429 ->
  NewCircuitBreakerMiddleware time_Now name next req s
  = (Returned (None, Some (HTTPStatusError (StatusCode r) (errorString "HTTP error"))), s').
Proof.
  intros Hnext Hcode. rewrite breaker_never_rejects.
  unfold guarded, mbind, M_bind. rewrite Hnext.
  replace ((500 <=? StatusCode r) || (StatusCode r =? 429)) with true; [reflexivity|].
  symmetry. apply orb_true_iff.
  destruct Hcode as [H|H]; [left; apply Z.leb_le|right; apply Z.eqb_eq]; exact H.
Qed.

End BreakerProperties.


Lemma breaker_discards_5xx_and_429_witness :
  NewCircuitBreakerMiddleware clock "svc" (upstream ∅ (Readable "busy"))
    (get_request "/items" "" ∅ Background) (start [503])
  = (http_error 503,
     mkSt (mkScriptWorld 1000001000000 [] 1 ∅) [] []).
Proof.
  apply (breaker_discards_5xx_and_429 clock "svc" (upstream ∅ (Readable "busy"))
           (get_request "/items" "" ∅ Background) (start [503])
           (mkSt (mkScriptWorld 1000001000000 [] 1 ∅) [] [])
           (plain_response 503 ∅ (Readable "busy"))).
  - reflexivity.
  - left. simpl. lia.
Defined.

(** *** Scenario C *)



(** C1, as the code behaves: 25 calls in a row through the middleware named
    svc, 15 of them answered with status 500 within one window of ten
    seconds, all reach the upstream; the breaker that the 26th call builds
    is closed, the 26th call reaches the upstream as well and returns its
    answer instead of failing with the circuit-open error. *)
Theorem breaker_rebuilt_on_every_call :
  let svc := NewCircuitBreakerMiddleware clock "svc" (upstream ∅ (Readable "")) in
  let after25 := round_trips 25 svc svc_request (start scenarioC) in
  length (filter (fun out => is_http_error 500 out = true) (fst after25)) = 15%nat
  /\ network_calls (world (snd after25)) = 25%nat
  /\ clock (world (snd after25)) - clock (world (start scenarioC)) < 10 * time_Second
  /\ gobreaker.state
       (fst (breakerRoundTrip clock "svc" (upstream ∅ (Readable "")) svc_request (snd after25)))
     = gobreaker.StateClosed
  /\ fst (svc svc_request (snd after25))
     = Returned (Some (plain_response 200 ∅ (Readable "")), None)
  /\ is_circuit_open (fst (svc svc_request (snd after25))) = false
  /\ network_calls (world (snd (svc svc_request (snd after25)))) = 26%nat.
Proof. vm_compute. repeat split. Qed.

(** With one breaker kept across the calls, the same 25 answers leave the
    breaker open, and the 26th call fails with the circuit-open error
    without reaching the upstream. *)
Lemma shared_breaker_opens :
  let next := upstream ∅ (Readable "") in
  let s0 := start scenarioC in
  let after25 := SpecBreaker.calls clock 25 next svc_request (fresh "svc" (clock (world s0))) s0 in
  gobreaker.state (fst after25) = gobreaker.StateOpen
  /\ network_calls (world (snd (snd after25))) = 25%nat
  /\ fst (snd (SpecBreaker.roundTrip clock next svc_request (fst after25) (snd (snd after25))))
     = Returned (None, Some ErrOpenState)
  /\ network_calls
       (world (snd (snd (SpecBreaker.roundTrip clock next svc_request
                           (fst after25) (snd (snd after25))))))
     = 25%nat.
Proof. vm_compute. repeat split. Qed.

(** ** Decimal digits and durations of whole seconds *)

Lemma append_cons (x : ascii) (a b : string) : String x a ++ b = String x (a ++ b).
Proof. reflexivity. Qed.

Lemma append_assoc (a b c : string) : (a ++ b) ++ c = a ++ (b ++ c).
Proof.
  induction a as [|x a IH]; [reflexivity|]. rewrite !append_cons, IH. reflexivity.
Qed.

Lemma append_nil_r (a : string) : a ++ "" = a.
Proof. induction a as [|x a IH]; [reflexivity|]. rewrite append_cons, IH. reflexivity. Qed.

Lemma length_append (a b : string) :
  String.length (a ++ b) = (String.length a + String.length b)%nat.
Proof.
  induction a as [|x a IH]; [reflexivity|]. rewrite append_cons. cbn [String.length].
  rewrite IH. reflexivity.
Qed.

Lemma digits_of_acc fuel n acc :
  digits_of fuel n acc = digits_of fuel n "" ++ acc.
Proof.
  revert n acc. induction fuel as [|fuel IH]; intros n acc; [reflexivity|].
  cbn [digits_of]. destruct (n / 10 =? 0); [reflexivity|].
  rewrite IH, (IH _ (String _ "")). rewrite append_assoc. reflexivity.
Qed.

Lemma digits_of_fuel f1 f2 n acc :
  0 <= n < 2 ^ Z.of_nat f1 -> 0 <= n < 2 ^ Z.of_nat f2 ->
  (0 < f1)%nat -> (0 < f2)%nat ->
  digits_of f1 n acc = digits_of f2 n acc.
Proof.
  revert f2 n acc. induction f1 as [|f1 IH]; intros f2 n acc H1 H2 Hf1 Hf2; [lia|].
  destruct f2 as [|f2]; [lia|]. cbn [digits_of].
  destruct (n / 10 =? 0) eqn:Hq; [reflexivity|].
  apply Z.eqb_neq in Hq.
  assert (Hn : 10 <= n).
  { destruct (Z_lt_le_dec n 10) as [Hlt|]; [|assumption].
    rewrite Z.div_small in Hq by lia. lia. }
  assert (Hdiv : 0 <= n / 10 /\ 2 * (n / 10) <= n).
  { split; [apply Z.div_pos; lia|]. pose proof (Z.mul_div_le n 10 ltac:(lia)). lia. }
  assert (Hp1 : 2 ^ Z.of_nat (S f1) = 2 * 2 ^ Z.of_nat f1)
    by (rewrite Nat2Z.inj_succ, Z.pow_succ_r; lia).
  assert (Hp2 : 2 ^ Z.of_nat (S f2) = 2 * 2 ^ Z.of_nat f2)
    by (rewrite Nat2Z.inj_succ, Z.pow_succ_r; lia).
  destruct f1 as [|f1]; [cbn in H1; lia|].
  destruct f2 as [|f2]; [cbn in H2; lia|].
  apply IH; lia.
Qed.

Lemma decimal_step t :
  10 <= t -> decimal t = decimal (t / 10) ++ String (byte_of (48 + t mod 10)) "".
Proof.
  intros Ht. unfold decimal at 1. cbn [digits_of].
  assert (Hq : 1 <= t / 10) by (apply Z.div_le_lower_bound; lia).
  replace (t / 10 =? 0) with false by (symmetry; apply Z.eqb_neq; lia).
  rewrite digits_of_acc. f_equal. unfold decimal.
  pose proof (Z.log2_spec t ltac:(lia)) as Hl.
  pose proof (Z.log2_spec (t / 10) ltac:(lia)) as Hl10.
  pose proof (Z.log2_nonneg t). pose proof (Z.log2_nonneg (t / 10)).
  assert (Hle : 2 * (t / 10) <= t) by (pose proof (Z.mul_div_le t 10 ltac:(lia)); lia).
  assert (3 <= Z.log2 t) by (apply Z.log2_le_pow2; lia).
  rewrite Z.pow_succ_r in Hl by lia.
  apply digits_of_fuel.
  - rewrite Z2Nat.id by lia. lia.
  - rewrite Nat2Z.inj_succ, Z2Nat.id by lia. lia.
  - lia.
  - lia.
Qed.

Lemma decimal_mul10 t : 0 < t -> decimal (t * 10) = decimal t ++ "0".
Proof.
  intros Ht. rewrite decimal_step by lia.
  rewrite Z.div_mul, Z.mod_mul by lia. reflexivity.
Qed.

Lemma zeros_snoc n : Float64.zeros n ++ "0" = Float64.zeros (S n).
Proof.
  induction n as [|n IH]; [reflexivity|].
  cbn [Float64.zeros]. rewrite append_cons, IH. reflexivity.
Qed.

Lemma decimal_pow10 t (p : nat) :
  0 < t -> decimal (t * 10 ^ Z.of_nat p) = decimal t ++ Float64.zeros p.
Proof.
  intros Ht. induction p as [|p IH].
  - rewrite Z.mul_1_r. cbn [Float64.zeros]. rewrite append_nil_r. reflexivity.
  - rewrite Nat2Z.inj_succ, Z.pow_succ_r by lia.
    replace (t * (10 * 10 ^ Z.of_nat p)) with (t * 10 ^ Z.of_nat p * 10) by lia.
    rewrite decimal_mul10 by (apply Z.mul_pos_pos; lia).
    rewrite IH, append_assoc, zeros_snoc. reflexivity.
Qed.

Lemma decimal_length t (j : nat) :
  10 ^ (Z.of_nat j) <= t < 10 ^ (Z.of_nat (S j)) ->
  String.length (decimal t) = S j.
Proof.
  revert t. induction j as [|j IH]; intros t Ht.
  - cbn in Ht. unfold decimal. cbn [digits_of].
    rewrite Z.div_small by lia. reflexivity.
  - rewrite !Nat2Z.inj_succ, !Z.pow_succ_r in Ht by lia.
    assert (0 < 10 ^ Z.of_nat j) by (apply Z.pow_pos_nonneg; lia).
    rewrite decimal_step by lia. rewrite length_append.
    rewrite IH; [cbn; lia|].
    rewrite Nat2Z.inj_succ, Z.pow_succ_r by lia. split.
    + apply Z.div_le_lower_bound; lia.
    + apply Z.div_lt_upper_bound; lia.
Qed.

Lemma substring_all (n : nat) (s : string) :
  (String.length s <= n)%nat -> substring 0 n s = s.
Proof.
  revert n. induction s as [|c s IH]; intros n Hn.
  - destruct n; reflexivity.
  - destruct n as [|n]; [cbn in Hn; lia|]. cbn [substring]. rewrite IH; [reflexivity|].
    cbn in Hn. lia.
Qed.

Lemma round_half_even_1 x : Float64.round_half_even x 1 = x.
Proof.
  unfold Float64.round_half_even. rewrite Z.div_1_r, Z.mod_1_r. reflexivity.
Qed.

Lemma of_ratio_integer n :
  1 <= n < 2 ^ 53 ->
  Float64.of_ratio n 1 = (n * 2 ^ (52 - Z.log2 n), Z.log2 n - 52).
Proof.
  intros Hn. unfold Float64.of_ratio, Float64.scale.
  pose proof (Z.log2_spec n ltac:(lia)) as Hl.
  pose proof (Z.log2_nonneg n) as Hk.
  assert (Hk52 : Z.log2 n <= 52).
  { assert (Z.log2 n < 53); [|lia]. apply Z.log2_lt_pow2; lia. }
  change (Z.log2 1) with 0. rewrite Z.sub_0_r.
  set (k := Z.log2 n) in *.
  replace (0 <=? k) with true by (symmetry; apply Z.leb_le; lia).
  cbv beta iota zeta. rewrite Z.mul_1_l.
  replace (2 ^ k <=? n) with true by (symmetry; apply Z.leb_le; lia).
  cbv beta iota zeta.
  assert (Hm : n * 2 ^ (52 - k) < 2 ^ 53).
  { replace (2 ^ 53) with (2 ^ (k + 1) * 2 ^ (52 - k))
      by (rewrite <- Z.pow_add_r by lia; f_equal; lia).
    apply Z.mul_lt_mono_pos_r; [apply Z.pow_pos_nonneg; lia|].
    rewrite Z.add_1_r. lia. }
  destruct (0 <=? k - 52) eqn:He; cbv beta iota zeta.
  - apply Z.leb_le in He. assert (Hk' : k = 52) by lia.
    rewrite Hk' in *. change (52 - 52) with 0 in *. change (2 ^ 0) with 1 in *.
    rewrite Z.mul_1_r in *. rewrite round_half_even_1.
    replace (n =? 2 ^ 53) with false by (symmetry; apply Z.eqb_neq; lia).
    f_equal; lia.
  - apply Z.leb_gt in He.
    replace (- (k - 52)) with (52 - k) by lia.
    rewrite round_half_even_1.
    replace (n * 2 ^ (52 - k) =? 2 ^ 53) with false by (symmetry; apply Z.eqb_neq; lia).
    reflexivity.
Qed.

Lemma Seconds_pos_whole n :
  1 <= n < 2 ^ 53 ->
  Float64.Seconds_pos (n * time_Second) = (n * 2 ^ (52 - Z.log2 n), Z.log2 n - 52).
Proof.
  intros Hn. unfold Float64.Seconds_pos.
  rewrite Z.div_mul, Z.mod_mul by (unfold time_Second; lia).
  cbn [Z.eqb]. apply of_ratio_integer. exact Hn.
Qed.

Lemma bounds_whole n :
  1 <= n < 2 ^ 53 ->
  exists lo D,
    Float64.bounds (n * 2 ^ (52 - Z.log2 n)) (Z.log2 n - 52) = (n * D, lo, n * D + 2, D)
    /\ 4 <= D /\ (lo = n * D - 1 \/ lo = n * D - 2).
Proof.
  intros Hn.
  pose proof (Z.log2_nonneg n) as Hk.
  assert (Hk52 : Z.log2 n <= 52).
  { assert (Z.log2 n < 53); [|lia]. apply Z.log2_lt_pow2; lia. }
  set (k := Z.log2 n) in *.
  assert (HD : 4 * 2 ^ (52 - k) = 2 ^ (54 - k)).
  { replace (54 - k) with (2 + (52 - k)) by lia. rewrite Z.pow_add_r by lia. reflexivity. }
  assert (H4 : 4 <= 2 ^ (54 - k)).
  { change 4 with (2 ^ 2). apply Z.pow_le_mono_r; lia. }
  unfold Float64.bounds.
  replace (0 <=? k - 52 - 2) with false by (symmetry; apply Z.leb_gt; lia).
  replace (- (k - 52 - 2)) with (54 - k) by lia.
  replace (4 * (n * 2 ^ (52 - k))) with (n * 2 ^ (54 - k)) by lia.
  eexists _, _. split; [reflexivity|]. split; [exact H4|].
  destruct (n * 2 ^ (52 - k) =? 2 ^ 52); auto.
Qed.

Lemma point_up_spec (k : nat) : forall (fuel : nat) n D dp d0,
  0 < D -> 0 <= d0 -> d0 + Z.of_nat k = dp ->
  10 ^ (dp - 1) <= n < 10 ^ dp ->
  (k < fuel)%nat ->
  Float64.point_up fuel (n * D) D d0 = dp.
Proof.
  induction k as [|k IH]; intros fuel n D dp d0 HD Hd0 Hdp Hn Hfuel.
  - destruct fuel as [|fuel]; [lia|]. cbn [Float64.point_up].
    replace d0 with dp by lia.
    replace (n * D <? D * 10 ^ dp) with true; [reflexivity|].
    symmetry. apply Z.ltb_lt. rewrite (Z.mul_comm n D).
    apply Z.mul_lt_mono_pos_l; lia.
  - destruct fuel as [|fuel]; [lia|]. cbn [Float64.point_up].
    replace (n * D <? D * 10 ^ d0) with false.
    + apply IH; lia.
    + symmetry. apply Z.ltb_ge. rewrite (Z.mul_comm n D).
      apply Z.mul_le_mono_nonneg_l; [lia|].
      apply Z.le_trans with (10 ^ (dp - 1)); [|lia].
      apply Z.pow_le_mono_r; lia.
Qed.

Lemma decimal_point_whole n D dp :
  0 < D -> 1 <= dp <= 400 -> 10 ^ (dp - 1) <= n < 10 ^ dp ->
  Float64.decimal_point (n * D) D = dp.
Proof.
  intros HD Hdp Hn. unfold Float64.decimal_point.
  assert (1 <= n).
  { assert (0 < 10 ^ (dp - 1)) by (apply Z.pow_pos_nonneg; lia). lia. }
  replace (D <=? n * D) with true by (symmetry; apply Z.leb_le; nia).
  apply (point_up_spec (Z.to_nat (dp - 1))); try lia.
Qed.

Lemma shortest_step fuel n D lo dp inclusive j :
  4 <= D -> 1 <= n -> lo = n * D - 1 \/ lo = n * D - 2 -> j <= dp ->
  Float64.shortest (S fuel) (n * D) lo (n * D + 2) D dp inclusive j
  = if n mod 10 ^ (dp - j) =? 0 then (n / 10 ^ (dp - j), j)
    else Float64.shortest fuel (n * D) lo (n * D + 2) D dp inclusive (j + 1).
Proof.
  intros HD Hn Hlo Hj. cbn [Float64.shortest].
  set (p := dp - j).
  assert (Hp : 0 <= p) by (unfold p; lia).
  rewrite (Z.max_l 0 (- p)), (Z.max_r 0 p) by lia.
  change (10 ^ 0) with 1. rewrite !Z.mul_1_r.
  set (P := 10 ^ p).
  assert (HP : 0 < P) by (apply Z.pow_pos_nonneg; lia).
  replace (n * D / (D * P)) with (n / P)
    by (rewrite (Z.mul_comm n D); symmetry; apply Z.div_mul_cancel_l; lia).
  pose proof (Z.div_mod n P ltac:(lia)) as Hdm.
  pose proof (Z.mod_pos_bound n P HP) as Hmod.
  set (t := n / P) in *. set (r := n mod P) in *.
  assert (Hup1 : ((t + 1) * (D * P) <? n * D + 2) = false) by (apply Z.ltb_ge; nia).
  assert (Hup2 : ((t + 1) * (D * P) =? n * D + 2) = false) by (apply Z.eqb_neq; nia).
  rewrite Hup1, Hup2, andb_false_r. cbn [orb].
  destruct (r =? 0) eqn:Hr.
  - apply Z.eqb_eq in Hr.
    replace (lo <? t * (D * P)) with true by (symmetry; apply Z.ltb_lt; nia).
    cbn [orb andb]. reflexivity.
  - apply Z.eqb_neq in Hr.
    replace (lo <? t * (D * P)) with false by (symmetry; apply Z.ltb_ge; nia).
    replace (lo =? t * (D * P)) with false by (symmetry; apply Z.eqb_neq; nia).
    destruct inclusive; reflexivity.
Qed.

Lemma shortest_run (k : nat) : forall (fuel : nat) n D lo dp inclusive j,
  4 <= D -> 1 <= n -> lo = n * D - 1 \/ lo = n * D - 2 ->
  dp - j = Z.of_nat k ->
  (forall p, Z.of_nat k < p < dp -> n mod 10 ^ p <> 0) ->
  (k < fuel)%nat ->
  exists z, 0 <= z <= Z.of_nat k /\ n mod 10 ^ z = 0
            /\ (forall p, z < p < dp -> n mod 10 ^ p <> 0)
            /\ Float64.shortest fuel (n * D) lo (n * D + 2) D dp inclusive j
               = (n / 10 ^ z, dp - z).
Proof.
  induction k as [|k IH]; intros fuel n D lo dp inclusive j HD Hn Hlo Hj Hnot Hfuel;
    (destruct fuel as [|fuel]; [lia|]); rewrite shortest_step by (assumption || lia);
    rewrite Hj.
  - exists 0. change (10 ^ Z.of_nat 0) with 1. rewrite Z.mod_1_r. cbn [Z.eqb].
    repeat split; try lia.
    + exact Hnot.
    + rewrite Z.mod_1_r. cbn [Z.eqb]. f_equal; try reflexivity; lia.
  - destruct (n mod 10 ^ Z.of_nat (S k) =? 0) eqn:Hmod.
    + apply Z.eqb_eq in Hmod. exists (Z.of_nat (S k)).
      repeat split; try lia; try assumption. f_equal. lia.
    + apply Z.eqb_neq in Hmod.
      destruct (IH fuel n D lo dp inclusive (j + 1)) as (z & Hz & Hz0 & Hzn & Heq);
        try assumption; try lia.
      * intros p Hp. destruct (Z.eq_dec p (Z.of_nat (S k))) as [->|Hne]; [exact Hmod|].
        apply Hnot. lia.
      * exists z. repeat split; try lia; assumption.
Qed.

Lemma format_pos_whole n dp :
  1 <= dp <= 6 -> 10 ^ (dp - 1) <= n < 10 ^ dp ->
  Float64.format_pos (n * 2 ^ (52 - Z.log2 n)) (Z.log2 n - 52) = decimal n.
Proof.
  intros Hdp Hn.
  assert (Hlow : 0 < 10 ^ (dp - 1)) by (apply Z.pow_pos_nonneg; lia).
  assert (Hhigh : 10 ^ dp <= 10 ^ 6) by (apply Z.pow_le_mono_r; lia).
  assert (Hn53 : 1 <= n < 2 ^ 53) by (change (10 ^ 6) with 1000000 in Hhigh; lia).
  unfold Float64.format_pos.
  destruct (bounds_whole n Hn53) as (lo & D & -> & HD & Hlo).
  rewrite (decimal_point_whole n D dp) by lia.
  destruct (shortest_run (Z.to_nat (dp - 1)) 20 n D lo dp
              (Z.even (n * 2 ^ (52 - Z.log2 n))) 1)
    as (z & Hz & Hz0 & Hzn & ->); try lia.
  rewrite Z2Nat.id in Hz by lia.
  set (t := n / 10 ^ z).
  assert (HP : 0 < 10 ^ z) by (apply Z.pow_pos_nonneg; lia).
  assert (Hnt : n = t * 10 ^ z).
  { pose proof (Z.div_mod n (10 ^ z) ltac:(lia)) as Hdm. fold t in Hdm. lia. }
  clearbody t.
  assert (Hsplit : 10 ^ dp = 10 ^ (dp - z) * 10 ^ z)
    by (rewrite <- Z.pow_add_r by lia; f_equal; lia).
  assert (Hsplit' : 10 ^ (dp - 1) = 10 ^ (dp - z - 1) * 10 ^ z)
    by (rewrite <- Z.pow_add_r by lia; f_equal; lia).
  assert (Ht : 10 ^ (dp - z - 1) <= t < 10 ^ (dp - z)) by nia.
  assert (Ht0 : 0 < 10 ^ (dp - z - 1)) by (apply Z.pow_pos_nonneg; lia).
  replace (t =? 10 ^ (dp - z)) with false by (symmetry; apply Z.eqb_neq; lia).
  assert (Hmod10 : t mod 10 <> 0).
  { destruct (Z.eq_dec z (dp - 1)) as [->|Hne].
    - replace (dp - (dp - 1)) with 1 in Ht by lia.
      replace (dp - (dp - 1) - 1) with 0 in Ht by lia.
      change (10 ^ 1) with 10 in Ht. change (10 ^ 0) with 1 in Ht.
      rewrite Z.mod_small by lia. lia.
    - intros Hm. apply (Hzn (z + 1)); [lia|].
      rewrite Z.pow_add_r by lia. change (10 ^ 1) with 10.
      pose proof (Z.div_mod t 10 ltac:(lia)) as Hdm. rewrite Hm in Hdm.
      rewrite Hnt. rewrite Hdm at 1.
      replace ((10 * (t / 10) + 0) * 10 ^ z) with ((t / 10) * (10 ^ z * 10)) by lia.
      apply Z.mod_mul. lia. }
  assert (Hstrip : Float64.strip_zeros 20 t = t).
  { cbn [Float64.strip_zeros].
    replace (t mod 10 =? 0) with false by (symmetry; apply Z.eqb_neq; exact Hmod10).
    reflexivity. }
  rewrite Hstrip.
  replace ((dp - 1 <? -4) || (6 <=? dp - 1)) with false
    by (symmetry; apply orb_false_iff; split; [apply Z.ltb_ge|apply Z.leb_gt]; lia).
  assert (Hlen : String.length (decimal t) = Z.to_nat (dp - z)).
  { rewrite (decimal_length t (Z.to_nat (dp - z - 1))).
    - lia.
    - rewrite Nat2Z.inj_succ, Z2Nat.id by lia.
      replace (Z.succ (dp - z - 1)) with (dp - z) by lia. exact Ht. }
  unfold Float64.fmtF, Float64.len, Float64.take. rewrite Hlen, Z2Nat.id by lia.
  replace (0 <? dp) with true by (symmetry; apply Z.ltb_lt; lia).
  replace (dp <? dp - z) with false by (symmetry; apply Z.ltb_ge; lia).
  rewrite substring_all by (rewrite Hlen; lia).
  rewrite append_nil_r. replace (dp - (dp - z)) with z by lia.
  rewrite <- (Z2Nat.id z) in Hnt by lia. rewrite Hnt.
  symmetry. apply decimal_pow10. lia.
Qed.

Lemma digit_count n :
  1 <= n < 10 ^ 6 -> exists dp, 1 <= dp <= 6 /\ 10 ^ (dp - 1) <= n < 10 ^ dp.
Proof.
  intros Hn. change (10 ^ 6) with 1000000 in Hn.
  destruct (Z_lt_le_dec n 10); [exists 1; cbn; lia|].
  destruct (Z_lt_le_dec n 100); [exists 2; cbn; lia|].
  destruct (Z_lt_le_dec n 1000); [exists 3; cbn; lia|].
  destruct (Z_lt_le_dec n 10000); [exists 4; cbn; lia|].
  destruct (Z_lt_le_dec n 100000); [exists 5; cbn; lia|].
  exists 6; cbn; lia.
Qed.

(** A whole number of seconds below a million is rendered as that number. *)
Lemma format_Seconds_whole n :
  0 <= n < 10 ^ 6 -> format_Seconds (n * time_Second) = decimal n.
Proof.
  intros Hn. destruct (Z.eq_dec n 0) as [->|Hne]; [reflexivity|].
  unfold format_Seconds.
  assert (Hpos : 0 < n * time_Second) by (unfold time_Second; lia).
  replace (n * time_Second =? 0) with false by (symmetry; apply Z.eqb_neq; lia).
  replace (n * time_Second <? 0) with false by (symmetry; apply Z.ltb_ge; lia).
  rewrite Z.abs_eq by lia.
  assert (Hn53 : 1 <= n < 2 ^ 53) by (change (10 ^ 6) with 1000000 in Hn; lia).
  rewrite (Seconds_pos_whole n Hn53).
  destruct (digit_count n ltac:(lia)) as (dp & Hdp & Hrange).
  rewrite (format_pos_whole n dp Hdp Hrange). reflexivity.
Qed.

Lemma decimal_small t :
  0 <= t < 10 -> decimal t = String (byte_of (48 + t)) "".
Proof.
  intros Ht. unfold decimal. cbn [digits_of].
  rewrite Z.div_small, Z.mod_small by lia. reflexivity.
Qed.

(** Induction on the decimal digits of a number. *)
Lemma decimal_ind (P : Z -> Prop) :
  (forall t, 0 <= t < 10 -> P t) ->
  (forall t, 10 <= t -> P (t / 10) -> P t) ->
  forall t, 0 <= t -> P t.
Proof.
  intros Hsmall Hstep.
  assert (H : forall k : nat, forall t, 0 <= t < Z.of_nat k -> P t).
  { induction k as [|k IH]; intros t Ht; [lia|].
    destruct (Z_lt_le_dec t 10) as [Hlt|Hge]; [apply Hsmall; lia|].
    apply Hstep; [exact Hge|]. apply IH. split.
    - apply Z.div_pos; lia.
    - pose proof (Z.mul_div_le t 10 ltac:(lia)). lia. }
  intros t Ht. apply (H (Z.to_nat (t + 1))). lia.
Qed.

Lemma is_digit_byte d : 0 <= d < 10 -> is_digit (byte_of (48 + d)) = true.
Proof.
  intros Hd.
  assert (Hcases : d = 0 \/ d = 1 \/ d = 2 \/ d = 3 \/ d = 4 \/ d = 5 \/ d = 6
                   \/ d = 7 \/ d = 8 \/ d = 9) by lia.
  repeat (destruct Hcases as [->|Hcases]; [reflexivity|]). subst d. reflexivity.
Qed.

Lemma byte_code_digit d : 0 <= d < 10 -> byte_code (byte_of (48 + d)) - 48 = d.
Proof.
  intros Hd.
  assert (Hcases : d = 0 \/ d = 1 \/ d = 2 \/ d = 3 \/ d = 4 \/ d = 5 \/ d = 6
                   \/ d = 7 \/ d = 8 \/ d = 9) by lia.
  repeat (destruct Hcases as [->|Hcases]; [reflexivity|]). subst d. reflexivity.
Qed.

Lemma all_bytes_app p a b :
  all_bytes p (a ++ b) = all_bytes p a && all_bytes p b.
Proof.
  induction a as [|c a IH]; [reflexivity|].
  rewrite append_cons. cbn [all_bytes]. rewrite IH, andb_assoc. reflexivity.
Qed.

Lemma decimal_digits t : 0 <= t -> all_bytes is_digit (decimal t) = true.
Proof.
  revert t. apply decimal_ind.
  - intros t Ht. rewrite decimal_small by exact Ht. cbn [all_bytes].
    rewrite is_digit_byte by exact Ht. reflexivity.
  - intros t Ht IH. rewrite decimal_step by exact Ht.
    rewrite all_bytes_app, IH. cbn [all_bytes andb].
    rewrite is_digit_byte by (apply Z.mod_pos_bound; lia). reflexivity.
Qed.

Lemma digits_value_app a b acc :
  digits_value (a ++ b) acc = digits_value b (digits_value a acc).
Proof.
  revert acc. induction a as [|c a IH]; intros acc; [reflexivity|].
  rewrite append_cons. cbn [digits_value]. apply IH.
Qed.

Lemma digits_value_decimal t : 0 <= t -> digits_value (decimal t) 0 = t.
Proof.
  revert t. apply decimal_ind.
  - intros t Ht. rewrite decimal_small by exact Ht. cbn [digits_value].
    rewrite byte_code_digit by exact Ht. lia.
  - intros t Ht IH. rewrite decimal_step by exact Ht.
    rewrite digits_value_app, IH. cbn [digits_value].
    rewrite byte_code_digit by (apply Z.mod_pos_bound; lia).
    pose proof (Z.div_mod t 10 ltac:(lia)). lia.
Qed.

Lemma decimal_nonempty t : nonempty (decimal t) = true.
Proof.
  unfold decimal. cbn [digits_of]. destruct (t / 10 =? 0); [reflexivity|].
  rewrite digits_of_acc. destruct (digits_of _ _ ""); reflexivity.
Qed.

Lemma span_digits_app ds tail :
  all_bytes is_digit ds = true ->
  match tail with String c _ => is_digit c = false | EmptyString => True end ->
  span_digits (ds ++ tail) = (ds, tail).
Proof.
  intros Hds Htail. induction ds as [|c ds IH].
  - destruct tail as [|c tail]; [reflexivity|].
    cbn [append span_digits]. change ("" ++ String c tail) with (String c tail).
    cbn [span_digits]. rewrite Htail. reflexivity.
  - cbn [all_bytes] in Hds. apply andb_true_iff in Hds as [Hc Hds].
    rewrite append_cons. cbn [span_digits]. rewrite Hc, (IH Hds). reflexivity.
Qed.

Lemma CutPrefix_app prefix s : CutPrefix (prefix ++ s) prefix = Some s.
Proof.
  induction prefix as [|c prefix IH].
  - destruct s; reflexivity.
  - rewrite append_cons. cbn [CutPrefix]. rewrite Ascii.eqb_refl. exact IH.
Qed.

Lemma find_max_age_head c rest :
  find_max_age (String c rest)
  = match CutPrefix (String c rest) "max-age=" with
    | Some after =>
        let ds := fst (span_digits after) in
        if nonempty ds then Some ds else find_max_age rest
    | None => find_max_age rest
    end.
Proof. reflexivity. Qed.

(** The max-age read back from a header written with a number of whole
    seconds below a million is that number. *)
Lemma max_age_read_back n :
  0 <= n < 10 ^ 6 -> max_age_of (newCacheControl (n * time_Second)) = n.
Proof.
  intros Hn. unfold newCacheControl. rewrite (format_Seconds_whole n Hn).
  unfold max_age_of.
  assert (Hfind : find_max_age ("max-age=" ++ decimal n ++ ", public") = Some (decimal n)).
  { change ("max-age=" ++ decimal n ++ ", public")
      with (String "m" ("ax-age=" ++ decimal n ++ ", public")).
    rewrite find_max_age_head.
    change (String "m" ("ax-age=" ++ decimal n ++ ", public"))
      with ("max-age=" ++ decimal n ++ ", public").
    rewrite CutPrefix_app.
    rewrite span_digits_app by (try apply decimal_digits; try reflexivity; lia).
    cbn [fst]. cbv zeta. rewrite decimal_nonempty. reflexivity. }
  rewrite Hfind. unfold Atoi. rewrite digits_value_decimal by lia.
  replace (n <=? max_int64) with true; [reflexivity|].
  symmetry. apply Z.leb_le. change (10 ^ 6) with 1000000 in Hn. unfold max_int64. lia.
Qed.

Lemma span_digits_digits s : all_bytes is_digit (fst (span_digits s)) = true.
Proof.
  induction s as [|c s IH]; [reflexivity|]. cbn [span_digits].
  destruct (is_digit c) eqn:Hc; [|reflexivity].
  destruct (span_digits s) as [ds tail]. cbn [fst all_bytes] in *.
  rewrite Hc, IH. reflexivity.
Qed.

Lemma digits_value_nonneg s acc :
  all_bytes is_digit s = true -> 0 <= acc -> 0 <= digits_value s acc.
Proof.
  revert acc. induction s as [|c s IH]; intros acc Hs Hacc; [exact Hacc|].
  cbn [all_bytes] in Hs. apply andb_true_iff in Hs as [Hc Hs].
  cbn [digits_value]. apply IH; [exact Hs|].
  unfold is_digit, in_range in Hc. apply andb_true_iff in Hc as [Hlo _].
  apply Z.leb_le in Hlo. change (byte_code "0") with 48 in Hlo. lia.
Qed.

Lemma find_max_age_digits s ds :
  find_max_age s = Some ds -> all_bytes is_digit ds = true.
Proof.
  induction s as [|c s IH]; [discriminate|].
  rewrite find_max_age_head.
  destruct (CutPrefix (String c s) "max-age=") as [after|]; [|exact IH].
  cbv zeta. destruct (nonempty (fst (span_digits after))); [|exact IH].
  intros [= <-]. apply span_digits_digits.
Qed.

Lemma max_age_of_nonneg s : 0 <= max_age_of s.
Proof.
  unfold max_age_of. destruct (find_max_age s) as [ds|] eqn:Hfind; [|lia].
  unfold Atoi. destruct (digits_value ds 0 <=? max_int64); [|lia].
  apply digits_value_nonneg; [|lia]. exact (find_max_age_digits s ds Hfind).
Qed.

Lemma wrap_i64_small z : - 2 ^ 63 <= z < 2 ^ 63 -> wrap_i64 z = z.
Proof. intros Hz. unfold wrap_i64. rewrite Z.mod_small; lia. Qed.

(** ** The cache middleware *)

Lemma Header_Get_Set (h : Header) (key value : string) :
  Header_Get (Header_Set h key value) key = value.
Proof. unfold Header_Get, Header_Set. rewrite lookup_insert_eq. reflexivity. Qed.

Lemma Header_Get_Set_ne (h : Header) (key key' value : string) :
  CanonicalMIMEHeaderKey key <> CanonicalMIMEHeaderKey key' ->
  Header_Get (Header_Set h key value) key' = Header_Get h key'.
Proof.
  intros Hne. unfold Header_Get, Header_Set. rewrite lookup_insert_ne by exact Hne.
  reflexivity.
Qed.

Lemma wrapError_neq (prefix : string) (e : error) : wrapError prefix e <> e.
Proof.
  intros H. apply (f_equal error_size) in H. cbn in H. lia.
Qed.

Section CacheProperties.
Context {W : Type}.
Implicit Types (cfg : CacheConfig W) (next : RoundTripper W) (s : St W).

(** The request function, path by path. *)
Lemma NewCacheMiddleware_paths cfg next req s :
  NewCacheMiddleware cfg next req s
  = match cache_path cfg req s with
    | (Bypass, s1) | (Fallback, s1) => next req s1
    | (Hit sc, s1) => (Returned (Some (cachedResponse sc), None), s1)
    | (Miss, s1) => missPath cfg (getCacheKey req (Headers cfg)) next req s1
    end.
Proof.
  unfold NewCacheMiddleware, cache_path.
  destruct (RedisClient cfg) as [redis|]; [|reflexivity].
  destruct (negb (String.eqb (Method req) "GET")); [reflexivity|].
  unfold mbind, M_bind, on_world.
  destruct (Get redis (ReqContext req) (getCacheKey req (Headers cfg)) (world s))
    as [[value err] w].
  destruct err as [e|], value as [|sc|e']; reflexivity.
Qed.

Lemma rewritten_max_age cfg (resp : Response) :
  getCacheControlHeaderValue (rewritten cfg resp)
  = max_age_of (newCacheControl (effective_ttl cfg (getCacheControlHeaderValue resp))).
Proof.
  unfold getCacheControlHeaderValue at 1, rewritten, set_header. cbn [RespHeader with_header].
  rewrite Header_Get_Set. reflexivity.
Qed.

(** A miss answered with a 2xx response whose body can be read. *)
Lemma missPath_2xx cfg key next req s1 s2 (resp : Response) (body : string) :
  next req s1 = (Returned (Some resp, None), s2) ->
  is_2xx resp = true ->
  RespBody resp = Readable body ->
  missPath cfg key next req s1
  = (Returned (Some (set_header (with_body (rewritten cfg resp) (Readable body))
                                 "X-Cache" "MISS"), None),
     spawn s2 (mkSetTask (ReqContext req) key (json_Marshal (persisted cfg resp body))
                 (effective_ttl cfg (getCacheControlHeaderValue resp)))).
Proof.
  intros Hnext H2xx Hbody. unfold missPath, mbind, M_bind. rewrite Hnext.
  unfold is_2xx in H2xx. rewrite H2xx.
  unfold responseToJSON. cbn [RespBody with_header]. rewrite Hbody. reflexivity.
Qed.

(** A miss answered with a 2xx response whose body fails to read. *)
Lemma missPath_2xx_unreadable cfg key next req s1 s2 (resp : Response)
    (read : string) (e : error) :
  next req s1 = (Returned (Some resp, None), s2) ->
  is_2xx resp = true ->
  RespBody resp = Failing read e ->
  missPath cfg key next req s1
  = (Returned (Some (set_header (with_body (rewritten cfg resp) (Failing "" e))
                                 "X-Cache" "MISS"),
               Some (wrapError "error serializing response for cache: "
                       (wrapError "failed to read response body: " e))),
     mkSt (world s2) (goroutines s2)
          (logged s2 ++ ["Error serializing response for cache"])%list).
Proof.
  intros Hnext H2xx Hbody. unfold missPath, mbind, M_bind. rewrite Hnext.
  unfold is_2xx in H2xx. rewrite H2xx.
  unfold responseToJSON. cbn [RespBody with_header]. rewrite Hbody. reflexivity.
Qed.

(** A miss answered with a response outside 2xx, or with an error. *)
Lemma missPath_not_2xx cfg key next req s1 s2 (resp : Response) :
  next req s1 = (Returned (Some resp, None), s2) ->
  is_2xx resp = false ->
  missPath cfg key next req s1 = (Returned (Some resp, None), s2).
Proof.
  intros Hnext H2xx. unfold missPath, mbind, M_bind. rewrite Hnext.
  unfold is_2xx in H2xx. rewrite H2xx. reflexivity.
Qed.

Lemma missPath_error cfg key next req s1 s2 (resp : option Response) (e : error) :
  next req s1 = (Returned (resp, Some e), s2) ->
  missPath cfg key next req s1
  = (Returned (resp, Some (wrapError "error executing request: " e)), s2).
Proof.
  intros Hnext. unfold missPath, mbind, M_bind. rewrite Hnext. reflexivity.
Qed.

(** C4, amended: when the inner chain returns an error, the middleware
    returns the response the inner chain returned together with an error:
    the inner error itself where the request bypasses the cache or falls
    back after a stored text failed to decode, and on a miss a new error
    that wraps it under the prefix "error executing request: ".  The state
    is left as the inner chain left it: no goroutine is started, so
    nothing is written to the store. *)
Theorem inner_error_is_returned cfg next req s s1 s2 (path : CachePath)
    (resp : option Response) (e : error) :
  cache_path cfg req s = (path, s1) ->
  (forall sc, path <> Hit sc) ->
  next req s1 = (Returned (resp, Some e), s2) ->
  NewCacheMiddleware cfg next req s
  = (Returned (resp, Some (match path with
                           | Miss => wrapError "error executing request: " e
                           | _ => e
                           end)), s2)
  /\ Unwrap (wrapError "error executing request: " e) = Some e.
Proof.
  intros Hpath Hhit Hnext. split; [|reflexivity].
  rewrite NewCacheMiddleware_paths, Hpath.
  destruct path as [|sc| |].
  - exact Hnext.
  - destruct (Hhit sc eq_refl).
  - exact Hnext.
  - apply missPath_error. exact Hnext.
Qed.

(** C5, amended: a response served from the store carries X-Cache: HIT; a
    2xx response returned on a miss carries X-Cache: MISS; a request that
    bypasses the cache (no store configured, or a method other than GET)
    or falls back after a stored text failed to decode gets whatever the
    inner chain returns, and a response outside 2xx returned on a miss is
    passed on as the inner chain returned it. *)
Theorem X_Cache_marker cfg next req s :
  match cache_path cfg req s with
  | (Hit sc, s1) =>
      exists r, NewCacheMiddleware cfg next req s = (Returned (Some r, None), s1)
                /\ Header_Get (RespHeader r) "X-Cache" = "HIT"
  | (Bypass, s1) | (Fallback, s1) =>
      NewCacheMiddleware cfg next req s = next req s1
  | (Miss, s1) =>
      forall (r : Response) s2,
        next req s1 = (Returned (Some r, None), s2) ->
        if is_2xx r
        then exists r' err s3,
               NewCacheMiddleware cfg next req s = (Returned (Some r', err), s3)
               /\ Header_Get (RespHeader r') "X-Cache" = "MISS"
        else NewCacheMiddleware cfg next req s = (Returned (Some r, None), s2)
  end.
Proof.
  rewrite NewCacheMiddleware_paths.
  destruct (cache_path cfg req s) as [[|sc| |] s1]; try reflexivity.
  - eexists. split; [reflexivity|]. unfold cachedResponse. cbn [RespHeader].
    apply Header_Get_Set.
  - intros r s2 Hnext. destruct (is_2xx r) eqn:H2xx.
    + destruct (RespBody r) as [body|read e] eqn:Hbody.
      * do 3 eexists. split; [apply (missPath_2xx _ _ _ _ _ _ _ _ Hnext H2xx Hbody)|].
        apply Header_Get_Set.
      * do 3 eexists.
        split; [apply (missPath_2xx_unreadable _ _ _ _ _ _ _ _ _ Hnext H2xx Hbody)|].
        apply Header_Get_Set.
    + apply missPath_not_2xx; assumption.
Qed.

(** C6, amended: what the middleware returns, path by path.  A response
    together with an error is returned in two cases only: when the inner
    chain itself returned both, and when the body of a 2xx response
    returned on a miss failed to read, in which case the live response,
    marked X-Cache: MISS, is returned together with the serialization
    error.  When the request bypasses the cache or falls back, whatever the
    inner chain returns is returned as it is, be it both a response and an
    error or neither.  A hit returns the rebuilt response and a nil error.
    On a miss an error of the inner chain is returned wrapped, together
    with whatever response came with it, and a nil response with a nil
    error makes the middleware panic.  A nil response with a nil error is
    returned only when the inner chain returned that on a bypass or a
    fallback. *)
Theorem response_with_error cfg next req s :
  let path := fst (cache_path cfg req s) in
  let s1 := snd (cache_path cfg req s) in
  (forall s' (r : Response) (err : error),
     NewCacheMiddleware cfg next req s = (Returned (Some r, Some err), s') ->
     (exists e, next req s1 = (Returned (Some r, Some e), s')
                /\ (err = e \/ err = wrapError "error executing request: " e))
     \/ (exists (r0 : Response) read e,
           next req s1 = (Returned (Some r0, None),
                          mkSt (world s') (goroutines s') (removelast (logged s')))
           /\ is_2xx r0 = true
           /\ RespBody r0 = Failing read e
           /\ r = set_header (with_body (rewritten cfg r0) (Failing "" e)) "X-Cache" "MISS"
           /\ err = wrapError "error serializing response for cache: "
                      (wrapError "failed to read response body: " e)))
  /\ (path = Bypass \/ path = Fallback ->
      NewCacheMiddleware cfg next req s = next req s1)
  /\ (forall sc, path = Hit sc ->
        NewCacheMiddleware cfg next req s
        = (Returned (Some (cachedResponse sc), None), s1))
  /\ (forall s2 (resp : option Response) (e : error),
        path = Miss ->
        next req s1 = (Returned (resp, Some e), s2) ->
        NewCacheMiddleware cfg next req s
        = (Returned (resp, Some (wrapError "error executing request: " e)), s2))
  /\ (forall s2 (r0 : Response) read (e : error),
        path = Miss ->
        next req s1 = (Returned (Some r0, None), s2) ->
        is_2xx r0 = true ->
        RespBody r0 = Failing read e ->
        NewCacheMiddleware cfg next req s
        = (Returned (Some (set_header (with_body (rewritten cfg r0) (Failing "" e))
                                      "X-Cache" "MISS"),
                     Some (wrapError "error serializing response for cache: "
                             (wrapError "failed to read response body: " e))),
           mkSt (world s2) (goroutines s2)
                (logged s2 ++ ["Error serializing response for cache"])))
  /\ (forall s2,
        path = Miss ->
        next req s1 = (Returned (None, None), s2) ->
        NewCacheMiddleware cfg next req s = (Panicked nil_dereference, s2))
  /\ (forall s',
        NewCacheMiddleware cfg next req s = (Returned (None, None), s') ->
        (path = Bypass \/ path = Fallback)
        /\ next req s1 = (Returned (None, None), s')).
Proof.
  rewrite NewCacheMiddleware_paths.
  destruct (cache_path cfg req s) as [[|sc| |] s1] eqn:Hpath; cbn [fst snd];
    (split; [|split; [|split; [|split; [|split; [|split]]]]]);
    try (intros; discriminate); try (intros; reflexivity).
  - intros s' r err H. left. exists err. auto.
  - intros s' H. split; [left; reflexivity|exact H].
  - intros [H|H]; discriminate H.
  - intros sc' [= <-]. reflexivity.
  - intros s' r err H. left. exists err. auto.
  - intros s' H. split; [right; reflexivity|exact H].
  - intros s' r err.
    destruct (next req s1) as [[[resp [e|]]|msg] s2] eqn:Hnext.
    + rewrite (missPath_error _ _ _ _ _ _ _ _ Hnext). intros H.
      injection H as -> <- <-. left. exists e. auto.
    + destruct resp as [r0|].
      * destruct (is_2xx r0) eqn:H2xx.
        -- destruct (RespBody r0) as [body|read e] eqn:Hbody.
           ++ rewrite (missPath_2xx _ _ _ _ _ _ _ _ Hnext H2xx Hbody). discriminate.
           ++ rewrite (missPath_2xx_unreadable _ _ _ _ _ _ _ _ _ Hnext H2xx Hbody).
              intros H. injection H as <- <- <-. right.
              exists r0, read, e. cbn [world goroutines logged].
              rewrite removelast_last. destruct s2. auto 6.
        -- rewrite (missPath_not_2xx _ _ _ _ _ _ _ Hnext H2xx). discriminate.
      * unfold missPath, mbind, M_bind. rewrite Hnext. discriminate.
    + unfold missPath, mbind, M_bind. rewrite Hnext. discriminate.
  - intros [H|H]; discriminate H.
  - intros s2 resp e _ Hnext. apply (missPath_error _ _ _ _ _ _ _ _ Hnext).
  - intros s2 r0 read e _ Hnext H2xx Hbody.
    apply (missPath_2xx_unreadable _ _ _ _ _ _ _ _ _ Hnext H2xx Hbody).
  - intros s2 _ Hnext. unfold missPath, mbind, M_bind. rewrite Hnext. reflexivity.
  - intros s'.
    destruct (next req s1) as [[[resp [e|]]|msg] s2] eqn:Hnext.
    + rewrite (missPath_error _ _ _ _ _ _ _ _ Hnext). discriminate.
    + destruct resp as [r0|].
      * destruct (is_2xx r0) eqn:H2xx.
        -- destruct (RespBody r0) as [body|read e] eqn:Hbody.
           ++ rewrite (missPath_2xx _ _ _ _ _ _ _ _ Hnext H2xx Hbody). discriminate.
           ++ rewrite (missPath_2xx_unreadable _ _ _ _ _ _ _ _ _ Hnext H2xx Hbody).
              discriminate.
        -- rewrite (missPath_not_2xx _ _ _ _ _ _ _ Hnext H2xx). discriminate.
      * unfold missPath, mbind, M_bind. rewrite Hnext. discriminate.
    + unfold missPath, mbind, M_bind. rewrite Hnext. discriminate.
Qed.

(** The request function on a miss answered with a 2xx response whose
    body can be read. *)
Lemma miss_2xx cfg next req s s1 s2 (resp : Response) (body : string) :
  cache_path cfg req s = (Miss, s1) ->
  next req s1 = (Returned (Some resp, None), s2) ->
  is_2xx resp = true ->
  RespBody resp = Readable body ->
  NewCacheMiddleware cfg next req s
  = (Returned (Some (set_header (with_body (rewritten cfg resp) (Readable body))
                                 "X-Cache" "MISS"), None),
     spawn s2 (mkSetTask (ReqContext req) (getCacheKey req (Headers cfg))
                 (json_Marshal (persisted cfg resp body))
                 (effective_ttl cfg (getCacheControlHeaderValue resp)))).
Proof.
  intros Hpath Hnext H2xx Hbody. rewrite NewCacheMiddleware_paths, Hpath.
  apply missPath_2xx; assumption.
Qed.

(** C3, amended: for a 2xx response cached on a miss, the record handed to
    the store holds the original max-age of the upstream Cache-Control
    header (0 if absent or malformed) in its field policy.maxAge; its field
    cacheControlValue holds the max-age read back from the Cache-Control
    header after the header has been rewritten with the effective time to
    live.  That is the effective time to live in seconds when it is a whole
    number of seconds below a million: the original max-age when the
    override flag is off, the configured time to live when it is on. *)
Theorem persisted_max_age cfg next req s s1 s2 (resp : Response) (body : string) :
  cache_path cfg req s = (Miss, s1) ->
  next req s1 = (Returned (Some resp, None), s2) ->
  is_2xx resp = true ->
  RespBody resp = Readable body ->
  exists (r' : Response) (sr : SerializableCache) key,
    let original := getCacheControlHeaderValue resp in
    NewCacheMiddleware cfg next req s
    = (Returned (Some r', None),
       spawn s2 (mkSetTask (ReqContext req) key (json_Marshal sr)
                   (effective_ttl cfg original)))
    /\ MaxAge (Policy sr) = original
    /\ CacheControlValue sr = max_age_of (newCacheControl (effective_ttl cfg original))
    /\ (forall n, 0 <= n < 10 ^ 6 -> effective_ttl cfg original = n * time_Second ->
        CacheControlValue sr = n)
    /\ (OverrideTTL cfg = false -> original < 10 ^ 6 -> CacheControlValue sr = original).
Proof.
  intros Hpath Hnext H2xx Hbody. do 3 eexists. cbv zeta.
  split; [apply (miss_2xx _ _ _ _ _ _ _ _ Hpath Hnext H2xx Hbody)|].
  split; [reflexivity|]. split; [apply rewritten_max_age|].
  cbn [CacheControlValue persisted]. rewrite rewritten_max_age. split.
  - intros n Hn ->. apply max_age_read_back. exact Hn.
  - intros Hoff Hlt.
    pose proof (max_age_of_nonneg (Header_Get (RespHeader resp) "Cache-Control")) as Hnn.
    fold (getCacheControlHeaderValue resp) in Hnn.
    unfold effective_ttl. rewrite Hoff.
    change (10 ^ 6) with 1000000 in Hlt.
    rewrite wrap_i64_small by (unfold time_Second; lia).
    rewrite Z.mul_comm. apply max_age_read_back.
    change (10 ^ 6) with 1000000. lia.
Qed.

(** C7, amended: the goroutine that persists a response calls the store's
    [Set] with the context of the inbound request itself: whenever the
    caller's context is done, so is the context of the write. *)
Theorem cache_write_context cfg next req s s1 s2 (resp : Response) (body : string) :
  cache_path cfg req s = (Miss, s1) ->
  next req s1 = (Returned (Some resp, None), s2) ->
  is_2xx resp = true ->
  RespBody resp = Readable body ->
  exists t,
    goroutines (snd (NewCacheMiddleware cfg next req s)) = (goroutines s2 ++ [t])%list
    /\ task_ctx t = ReqContext req
    /\ forall cancelled, ctx_done cancelled (task_ctx t) = ctx_done cancelled (ReqContext req).
Proof.
  intros Hpath Hnext H2xx Hbody.
  rewrite (miss_2xx _ _ _ _ _ _ _ _ Hpath Hnext H2xx Hbody).
  eexists. split; [reflexivity|]. split; reflexivity.
Qed.



End CacheProperties.

(** *** The cache key *)

Lemma sort_Strings_any_order (l1 l2 : list string) :
  l1 ≡ₚ l2 -> sort_Strings l1 = sort_Strings l2.
Proof.
  intros Hperm. unfold sort_Strings.
  apply (Sorted_unique String.le); try apply Sorted_merge_sort; try apply _.
  rewrite !merge_sort_Permutation. exact Hperm.
Qed.

(** The query part does not depend on the order in which the map of
    parameters is ranged over. *)
Lemma queryPart_any_order (pairs pairs' : list (string * list string)) :
  pairs ≡ₚ pairs' -> queryPart_of pairs = queryPart_of pairs'.
Proof.
  intros Hperm. unfold queryPart_of. f_equal.
  apply sort_Strings_any_order, Permutation_map, Hperm.
Qed.



















(** The URL part is the URL as written, raw query included: the same
    parameters in another order give another key. *)
Example query_order_changes_key :
  let r1 := get_request "/items" "a=1&b=2" ∅ Background in
  let r2 := get_request "/items" "b=2&a=1" ∅ Background in
  buildQueryPart r1 = buildQueryPart r2
  /\ cacheKeyBase r1 [] = "https://api.example.com/items?a=1&b=2|a=1&b=2|"
  /\ cacheKeyBase r2 [] = "https://api.example.com/items?b=2&a=1|a=1&b=2|"
  /\ getCacheKey r1 [] <> getCacheKey r2 [].
Proof.
  repeat split; try (vm_compute; reflexivity).
  vm_compute. discriminate.
Qed.

(** Another path and query, another key. *)
Example url_changes_key :
  getCacheKey (get_request "/users/1" "" ∅ Background) ["Authorization"]
  <> getCacheKey (get_request "/users/2" "page=9" ∅ Background) ["Authorization"].
Proof. vm_compute. discriminate. Qed.

Example scenario_A_keys :
  cacheKeyBase (users_request "GET" "Bearer abc") ["Authorization"]
  = "https://api.example.com/users/1||Authorization:Bearer abc"
  /\ getCacheKey (users_request "GET" "Bearer abc") ["Authorization"]
     = "3e515bdf989ab275d4d10c27d3de41bff0bcb1d540f9cab3dbac5f59fe5910e2"
  /\ getCacheKey (users_request "GET" "Bearer xyz") ["Authorization"]
     = "0600074cc808b695f9e0ab21853cc233931f1b6c8a247a60bff5d3fefa8264cc".
Proof. vm_compute. repeat split. Qed.

(** *** Scenario B and the other concrete runs *)



Lemma persisted_max_age_witness :
  exists (r' : Response) (sr : SerializableCache) key,
    let original := getCacheControlHeaderValue (plain_response 200 cc60 (Readable "[]")) in
    NewCacheMiddleware (scenarioB_cfg true) (upstream cc60 (Readable "[]"))
      (items_request Background) (start [200])
    = (Returned (Some r', None),
       spawn (answered []) (mkSetTask Background key (json_Marshal sr)
                              (effective_ttl (scenarioB_cfg true) original)))
    /\ MaxAge (Policy sr) = original
    /\ CacheControlValue sr
       = max_age_of (newCacheControl (effective_ttl (scenarioB_cfg true) original))
    /\ (forall n, 0 <= n < 10 ^ 6 ->
        effective_ttl (scenarioB_cfg true) original = n * time_Second ->
        CacheControlValue sr = n)
    /\ (OverrideTTL (scenarioB_cfg true) = false -> original < 10 ^ 6 ->
        CacheControlValue sr = original).
Proof.
  apply (persisted_max_age (scenarioB_cfg true) (upstream cc60 (Readable "[]"))
           (items_request Background) (start [200]) (start [200]) (answered [])
           (plain_response 200 cc60 (Readable "[]")) "[]").
  - vm_compute. reflexivity.
  - reflexivity.
  - reflexivity.
  - reflexivity.
Defined.

(** The claim C3 as stated fails: with an override of 30 seconds and an
    upstream max-age of 60, the record handed to the store has
    cacheControlValue 30 (and policy.maxAge 60). *)
Lemma persisted_cacheControlValue_is_rewritten :
  let out := NewCacheMiddleware (scenarioB_cfg true) (upstream cc60 (Readable "[]"))
               (items_request Background) (start [200]) in
  getCacheControlHeaderValue (plain_response 200 cc60 (Readable "[]")) = 60
  /\ List.map (fun t => CacheControlValue (record_of t)) (goroutines (snd out)) = [30]
  /\ List.map (fun t => MaxAge (Policy (record_of t))) (goroutines (snd out)) = [60].
Proof. vm_compute. repeat split. Qed.

Lemma inner_error_is_returned_witness :
  NewCacheMiddleware (scenarioB_cfg false) (upstream ∅ (Readable ""))
    (items_request Background) (start [])
  = (Returned (None, Some (wrapError "error executing request: "
                             (errorString "connection refused"))),
     answered [])
  /\ Unwrap (wrapError "error executing request: " (errorString "connection refused"))
     = Some (errorString "connection refused").
Proof.
  apply (inner_error_is_returned (scenarioB_cfg false) (upstream ∅ (Readable ""))
           (items_request Background) (start []) (start []) (answered []) Miss
           None (errorString "connection refused")).
  - vm_compute. reflexivity.
  - intros sc. discriminate.
  - reflexivity.
Defined.

(** The claim C4 as stated fails: on a miss the error returned is not the
    error of the inner chain but a new one that wraps it. *)
Lemma inner_error_is_wrapped_on_miss :
  exists err,
    fst (NewCacheMiddleware (scenarioB_cfg false) (upstream ∅ (Readable ""))
           (items_request Background) (start []))
    = Returned (None, Some err)
    /\ fst (upstream ∅ (Readable "") (items_request Background) (start []))
       = Returned (None, Some (errorString "connection refused"))
    /\ err <> errorString "connection refused".
Proof.
  exists (wrapError "error executing request: " (errorString "connection refused")).
  split; [vm_compute; reflexivity|]. split; [reflexivity|discriminate].
Qed.

(** The claim C5 as stated fails: without a store the response of the inner
    chain is returned as it is, and so is a 404 returned on a miss; neither
    carries the marker. *)
Lemma X_Cache_absent :
  (exists r : Response,
     fst (NewCacheMiddleware no_store_cfg (upstream ∅ (Readable "[]"))
            (items_request Background) (start [200]))
     = Returned (Some r, None)
     /\ Header_Get (RespHeader r) "X-Cache" <> "HIT"
     /\ Header_Get (RespHeader r) "X-Cache" <> "MISS")
  /\ (exists r : Response,
        fst (NewCacheMiddleware (scenarioB_cfg false) (upstream ∅ (Readable ""))
               (items_request Background) (start [404]))
        = Returned (Some r, None)
        /\ Header_Get (RespHeader r) "X-Cache" <> "HIT"
        /\ Header_Get (RespHeader r) "X-Cache" <> "MISS").
Proof.
  split.
  - exists (plain_response 200 ∅ (Readable "[]")).
    split; [reflexivity|]. split; vm_compute; discriminate.
  - exists (plain_response 404 ∅ (Readable "")).
    split; [vm_compute; reflexivity|]. split; vm_compute; discriminate.
Qed.


Lemma response_with_error_witness :
  let cfg := scenarioB_cfg false in
  let next := upstream cc60 broken_body in
  let s1 := snd (cache_path cfg (items_request Background) (start [200])) in
  let r := set_header (with_body (rewritten cfg (plain_response 200 cc60 broken_body))
                         (Failing "" (errorString "unexpected EOF"))) "X-Cache" "MISS" in
  let err := wrapError "error serializing response for cache: "
               (wrapError "failed to read response body: " (errorString "unexpected EOF")) in
  let s' := mkSt (mkScriptWorld 1000001000000 [] 1 ∅) []
                 ["Error serializing response for cache"] in
  (exists e, next (items_request Background) s1 = (Returned (Some r, Some e), s')
             /\ (err = e \/ err = wrapError "error executing request: " e))
  \/ (exists (r0 : Response) read e,
        next (items_request Background) s1
        = (Returned (Some r0, None),
           mkSt (world s') (goroutines s') (removelast (logged s')))
        /\ is_2xx r0 = true
        /\ RespBody r0 = Failing read e
        /\ r = set_header (with_body (rewritten cfg r0) (Failing "" e)) "X-Cache" "MISS"
        /\ err = wrapError "error serializing response for cache: "
                   (wrapError "failed to read response body: " e)).
Proof.
  intros cfg next s1 r err s'.
  apply (proj1 (response_with_error (scenarioB_cfg false) (upstream cc60 broken_body)
                  (items_request Background) (start [200])) s' r err).
  vm_compute. reflexivity.
Defined.

(** The claim C6 as stated fails: when the body of a 200 returned on a miss
    cannot be read, the middleware returns the response and an error at
    once. *)
Lemma response_and_error_at_once :
  exists (r : Response) (err : error),
    fst (NewCacheMiddleware (scenarioB_cfg false) (upstream cc60 broken_body)
           (items_request Background) (start [200]))
    = Returned (Some r, Some err).
Proof. do 2 eexists. vm_compute. reflexivity. Qed.

(** Neither a response nor an error: a POST bypasses the cache and gets
    what the inner chain returns, be it nothing at all; a GET that misses
    makes the middleware panic on the same answer. *)
Example nil_result_paths :
  let silent : RoundTripper ScriptWorld := fun _ s => (Returned (None, None), s) in
  NewCacheMiddleware (scenarioB_cfg false) silent (users_request "POST" "") (start [])
  = (Returned (None, None), start [])
  /\ NewCacheMiddleware (scenarioB_cfg false) silent (items_request Background) (start [])
     = (Panicked nil_dereference, start []).
Proof. vm_compute. split; reflexivity. Qed.


Lemma cache_write_context_witness :
  exists t,
    goroutines (snd (NewCacheMiddleware (scenarioB_cfg false) (upstream cc60 (Readable "[]"))
                       (items_request caller_ctx) (start [200])))
    = (goroutines (answered []) ++ [t])%list
    /\ task_ctx t = ReqContext (items_request caller_ctx)
    /\ forall cancelled,
         ctx_done cancelled (task_ctx t)
         = ctx_done cancelled (ReqContext (items_request caller_ctx)).
Proof.
  apply (cache_write_context (scenarioB_cfg false) (upstream cc60 (Readable "[]"))
           (items_request caller_ctx) (start [200]) (start [200]) (answered [])
           (plain_response 200 cc60 (Readable "[]")) "[]").
  - vm_compute. reflexivity.
  - reflexivity.
  - reflexivity.
  - reflexivity.
Defined.

(** The claim C7 as stated fails: the write runs under the caller's own
    context.  Once the caller has cancelled it, the context handed to [Set]
    is done, and a store client that honours its context gives the write
    up: the store stays empty and the failure is logged. *)
Lemma cache_write_follows_caller_cancellation :
  let cfg := mkCacheConfig ScriptWorld (Some (scriptRedis {[1%nat]}))
               (30 * time_Second) false [] in
  let out := NewCacheMiddleware cfg (upstream cc60 (Readable "[]"))
               (items_request caller_ctx) (start [200]) in
  ctx_done {[1%nat]} (ReqContext (items_request caller_ctx)) = true
  /\ List.map task_ctx (goroutines (snd out)) = [caller_ctx]
  /\ List.map (ctx_done {[1%nat]}) (List.map task_ctx (goroutines (snd out))) = [true]
  /\ List.map (fun t => let s := snd (runSetTask (scriptRedis {[1%nat]}) t (snd out)) in
                        (store (world s), logged s))
              (goroutines (snd out))
     = [(∅, ["Error saving to cache"])].
Proof. vm_compute. repeat split. Qed.



(** The verb [%v] renders the seconds as a [float64]: a time to live that
    is not a whole number of seconds, or one of a million seconds or more,
    gives a header whose max-age is read back as its leading digits. *)
Example newCacheControl_float :
  newCacheControl (30 * time_Second) = "max-age=30, public"
  /\ newCacheControl (1500000000) = "max-age=1.5, public"
  /\ max_age_of (newCacheControl (1500000000)) = 1
  /\ newCacheControl (999999 * time_Second) = "max-age=999999, public"
  /\ newCacheControl (2000000 * time_Second) = "max-age=2e+06, public"
  /\ max_age_of (newCacheControl (2000000 * time_Second)) = 2
  /\ newCacheControl (-5 * time_Second) = "max-age=-5, public"
  /\ max_age_of (newCacheControl (-5 * time_Second)) = 0.
Proof. vm_compute. repeat split. Qed.

(** The header's max-age is read up to the range of [int]; the product with
    [time.Second] wraps around in 64 bits. *)
Example max_age_edges :
  max_age_of "public, max-age=0060, must-revalidate" = 60
  /\ max_age_of "max-age=, max-age=7" = 7
  /\ max_age_of "s-maxage=5" = 0
  /\ max_age_of "max-age=9223372036854775808" = 0
  /\ wrap_i64 (time_Second * 9223372037) = -9223372036709551616.
Proof. vm_compute. repeat split. Qed.

(** Scenario B, run: the time to live handed to the store and the header
    returned to the caller, with the override off and on. *)
Example scenario_B_runs :
  let run override :=
    NewCacheMiddleware (scenarioB_cfg override) (upstream cc60 (Readable "[]"))
      (items_request Background) (start [200]) in
  let header_of (out : Outcome Result * St ScriptWorld) :=
    match fst out with
    | Returned (Some r, None) =>
        (Header_Get (RespHeader r) "Cache-Control", Header_Get (RespHeader r) "X-Cache")
    | _ => ("", "")
    end in
  List.map task_ttl (goroutines (snd (run false))) = [60 * time_Second]
  /\ header_of (run false) = ("max-age=60, public", "MISS")
  /\ List.map task_ttl (goroutines (snd (run true))) = [30 * time_Second]
  /\ header_of (run true) = ("max-age=30, public", "MISS").
Proof. vm_compute. repeat split. Qed.

(** * Further properties *)

(** ** The pipeline composer: nil entries *)

Section ComposerEdges.
Context {W : Type}.
Variable DefaultTransport : RoundTripper W.

Lemma compose_loop_nil_free (ms : list (option (RoundTripperMiddleware W))) (n : nat)
    (composed : RoundTripper W) :
  (n <= length ms)%nat ->
  (forall i, (i < n)%nat -> ms !! i <> Some None) ->
  exists t, compose_loop ms n composed = Returned t.
Proof.
  revert composed. induction n as [|n IH]; intros composed Hn Hfree.
  - eexists. reflexivity.
  - cbn [compose_loop].
    destruct (ms !! n) as [[m|]|] eqn:Hlook.
    + apply IH; [lia|]. intros i Hi. apply Hfree. lia.
    + exfalso. apply (Hfree n); [lia|exact Hlook].
    + apply lookup_ge_None in Hlook. pose proof (Nat.le_trans _ _ _ Hn Hlook). lia.
Qed.

Lemma compose_loop_nil (ms : list (option (RoundTripperMiddleware W))) (n : nat)
    (composed : RoundTripper W) (i : nat) :
  (n <= length ms)%nat -> (i < n)%nat -> ms !! i = Some None ->
  compose_loop ms n composed = Panicked nil_dereference.
Proof.
  revert composed. induction n as [|n IH]; intros composed Hn Hi Hnil; [lia|].
  cbn [compose_loop].
  destruct (ms !! n) as [[m|]|] eqn:Hlook.
  - apply IH; [lia| |exact Hnil].
    destruct (Nat.eq_dec i n) as [->|Hne]; [|lia].
    pose proof (eq_trans (eq_sym Hlook) Hnil) as Habs. discriminate Habs.
  - reflexivity.
  - apply lookup_ge_None in Hlook. pose proof (Nat.le_trans _ _ _ Hn Hlook). lia.
Qed.

Lemma nil_entry_or_not (ms : list (option (RoundTripperMiddleware W))) :
  None ∈ ms \/ None ∉ ms.
Proof.
  induction ms as [|[m|] ms IH].
  - right. apply not_elem_of_nil.
  - destruct IH as [H|H]; [left; apply elem_of_cons; auto|right].
    intros [Heq|Hin]%elem_of_cons; [discriminate|auto].
  - left. apply elem_of_cons. auto.
Qed.

(** X1: a slice that holds a nil entry, at whatever position, makes the
    composition panic with a nil dereference; a slice without a nil entry
    is always composed into a transport. *)
Theorem configMiddlewares_nil_entries (ms : list (option (RoundTripperMiddleware W))) :
  (None ∈ ms <-> configMiddlewares DefaultTransport ms = Panicked nil_dereference)
  /\ (None ∉ ms <-> exists t, configMiddlewares DefaultTransport ms = Returned t).
Proof.
  assert (Hin : None ∈ ms -> configMiddlewares DefaultTransport ms = Panicked nil_dereference).
  { intros Hnil. apply list_elem_of_lookup in Hnil as [i Hi].
    apply (compose_loop_nil ms (length ms) DefaultTransport i); [lia| |exact Hi].
    apply lookup_lt_Some in Hi. exact Hi. }
  assert (Hout : None ∉ ms -> exists t, configMiddlewares DefaultTransport ms = Returned t).
  { intros Hfree. apply compose_loop_nil_free; [lia|].
    intros i _ Hi. apply Hfree. apply list_elem_of_lookup. eauto. }
  split; split; try assumption.
  - intros Hpanic. destruct (nil_entry_or_not ms) as [H|H]; [exact H|].
    destruct (Hout H) as [t Ht]. congruence.
  - intros [t Ht] Hnil. rewrite (Hin Hnil) in Ht. discriminate.
Qed.

End ComposerEdges.

(** ** The circuit breaker middleware: what it passes on *)

Section BreakerPassThrough.
Context {W : Type}.
Variable time_Now : W -> Z.

(** X2: a response whose status is below 500 and is not 429 is returned to
    the caller as the inner transport returned it, with a nil error, and the
    state is left as the inner transport left it: the middleware rejects
    nothing and writes no log line. *)
Theorem breaker_passes_response name next req (s s' : St W) (r : Response) :
  next req s = (Returned (Some r, None), s') ->
  StatusCode r < 500 -> StatusCode r <> 429 ->
  NewCircuitBreakerMiddleware time_Now name next req s = (Returned (Some r, None), s').
Proof.
  intros Hnext Hlt Hne. rewrite breaker_never_rejects.
  unfold guarded, mbind, M_bind. rewrite Hnext.
  replace (500 <=? StatusCode r) with false by (symmetry; apply Z.leb_gt; lia).
  replace (StatusCode r =? 429) with false by (symmetry; apply Z.eqb_neq; lia).
  reflexivity.
Qed.

(** X3: an error of the inner transport is returned to the caller as the
    same error value, never wrapped or replaced by an error of the breaker;
    a response that the inner transport returned along with it is dropped. *)
Theorem breaker_returns_inner_error name next req (s s' : St W)
    (resp : option Response) (e : error) :
  next req s = (Returned (resp, Some e), s') ->
  NewCircuitBreakerMiddleware time_Now name next req s = (Returned (None, Some e), s').
Proof.
  intros Hnext. rewrite breaker_never_rejects.
  unfold guarded, mbind, M_bind. rewrite Hnext. reflexivity.
Qed.

(** X4: the breaker is ready to trip exactly when the window has seen at
    least 20 requests and at least half of them failed (for counters below
    42949672, where the product with 100 stays within 32 bits). *)
Theorem ReadyToTrip_at_half (c : gobreaker.Counts) :
  0 <= gobreaker.TotalFailures c < 42949672 ->
  0 <= gobreaker.Requests c ->
  ReadyToTrip c = true
  <-> 20 <= gobreaker.Requests c /\ gobreaker.Requests c <= 2 * gobreaker.TotalFailures c.
Proof.
  intros Hf Ht. unfold ReadyToTrip.
  set (total := gobreaker.Requests c) in *. set (failures := gobreaker.TotalFailures c) in *.
  unfold wrap_u32. rewrite (Z.mod_small (failures * 100)) by (change (2 ^ 32) with 4294967296; lia).
  rewrite andb_true_iff, !Z.leb_le. split.
  - intros [H20 H50]. split; [exact H20|].
    assert (50 * total <= failures * 100); [|lia].
    apply Z.le_trans with (total * (failures * 100 / total)); [nia|].
    apply Z.mul_div_le. lia.
  - intros [H20 Hhalf]. split; [exact H20|].
    apply Z.div_le_lower_bound; lia.
Qed.

End BreakerPassThrough.

Lemma breaker_passes_response_witness :
  NewCircuitBreakerMiddleware clock "svc" (upstream ∅ (Readable "none"))
    (get_request "/items" "" ∅ Background) (start [404])
  = (Returned (Some (plain_response 404 ∅ (Readable "none")), None), answered []).
Proof.
  apply (breaker_passes_response clock "svc" (upstream ∅ (Readable "none"))
           (get_request "/items" "" ∅ Background) (start [404]) (answered [])
           (plain_response 404 ∅ (Readable "none"))).
  - reflexivity.
  - simpl. lia.
  - simpl. lia.
Defined.

Lemma breaker_returns_inner_error_witness :
  NewCircuitBreakerMiddleware clock "svc" (upstream ∅ (Readable ""))
    (get_request "/items" "" ∅ Background) (start [])
  = (Returned (None, Some (errorString "connection refused")), answered []).
Proof.
  apply (breaker_returns_inner_error clock "svc" (upstream ∅ (Readable ""))
           (get_request "/items" "" ∅ Background) (start []) (answered [])
           None (errorString "connection refused")).
  reflexivity.
Defined.

Lemma ReadyToTrip_at_half_witness :
  ReadyToTrip (gobreaker.mkCounts 20 10 10 0 1) = true
  <-> 20 <= 20 /\ 20 <= 2 * 10.
Proof.
  apply (ReadyToTrip_at_half (gobreaker.mkCounts 20 10 10 0 1)); simpl; lia.
Defined.

(** Beyond 42949672 failures the product wraps around in 32 bits, and a
    window in which every request failed is not ready to trip. *)
Example ReadyToTrip_wraps :
  ReadyToTrip (gobreaker.mkCounts 42949673 0 42949673 0 42949673) = false.
Proof. reflexivity. Qed.

(** ** The cache middleware: hits and what is persisted *)

Section CacheHitsAndWrites.
Context {W : Type}.
Implicit Types (cfg : CacheConfig W) (next : RoundTripper W) (s : St W).

(** X5: when the store answers a GET with a text that decodes, the response
    is rebuilt from the record (status, status code, protocol, body, the
    body's length as content length, X-Cache: HIT and the record's
    cacheControlValue as max-age) and the inner chain is not called:
    whatever the inner chain is, the result is the same, no goroutine is
    started and nothing is logged. *)
Theorem cache_hit_skips_inner_chain cfg next req s (redis : IRedisClient W)
    (sc : SerializableCache) (w : W) :
  RedisClient cfg = Some redis ->
  Method req = "GET" ->
  Get redis (ReqContext req) (getCacheKey req (Headers cfg)) (world s)
  = ((JSONText sc, None), w) ->
  exists r : Response,
    (forall next', NewCacheMiddleware cfg next' req s
                   = (Returned (Some r, None), mkSt w (goroutines s) (logged s)))
    /\ Status r = CachedStatus sc
    /\ StatusCode r = CachedStatusCode sc
    /\ Proto r = CachedProto sc
    /\ RespBody r = Readable (CachedBody sc)
    /\ ContentLength r = Z.of_nat (String.length (CachedBody sc))
    /\ Header_Get (RespHeader r) "X-Cache" = "HIT"
    /\ Header_Get (RespHeader r) "Cache-Control"
       = "max-age=" ++ Itoa (CacheControlValue sc) ++ ", public".
Proof.
  intros Hredis Hget Hstore. exists (cachedResponse sc).
  split; [|repeat split].
  - intros next'. rewrite NewCacheMiddleware_paths. unfold cache_path.
    rewrite Hredis, Hget, Hstore. reflexivity.
  - unfold cachedResponse. cbn [RespHeader]. apply Header_Get_Set.
  - unfold cachedResponse. cbn [RespHeader].
    rewrite Header_Get_Set_ne by (vm_compute; discriminate).
    apply Header_Get_Set.
Qed.

(** The state after the lookup differs from the state before it in the
    world and the log only. *)
Lemma cache_path_goroutines cfg req s :
  goroutines (snd (cache_path cfg req s)) = goroutines s.
Proof.
  unfold cache_path. destruct (RedisClient cfg) as [redis|]; [|reflexivity].
  destruct (negb (String.eqb (Method req) "GET")); [reflexivity|].
  destruct (Get redis (ReqContext req) (getCacheKey req (Headers cfg)) (world s))
    as [[value err] w].
  destruct err as [e|], value as [|sc|e']; reflexivity.
Qed.

Lemma cache_path_miss_GET cfg req s s1 :
  cache_path cfg req s = (Miss, s1) ->
  Method req = "GET" /\ exists redis, RedisClient cfg = Some redis.
Proof.
  unfold cache_path. destruct (RedisClient cfg) as [redis|]; [|discriminate].
  destruct (String.eqb (Method req) "GET") eqn:Hm; cbn [negb]; [|discriminate].
  intros _. split; [apply String.eqb_eq; exact Hm|eauto].
Qed.

(** X6: the middleware starts a write to the store only for a GET that
    missed and was answered with a 2xx response: provided the inner chain
    starts no goroutine itself, a call either leaves the goroutines as they
    were, or adds exactly one write, keyed by the request's cache key, and
    then the method is GET, a store is configured and the call returns a 2xx
    response marked X-Cache: MISS with a nil error.  A response outside 2xx
    or an error never produces a write. *)
Theorem cache_writes_only_2xx_GET cfg next req s s' (out : Outcome Result) :
  (forall q s1 o s2, next q s1 = (o, s2) -> goroutines s2 = goroutines s1) ->
  NewCacheMiddleware cfg next req s = (out, s') ->
  goroutines s' = goroutines s
  \/ exists (t : SetTask) (r : Response),
       goroutines s' = (goroutines s ++ [t])%list
       /\ task_key t = getCacheKey req (Headers cfg)
       /\ Method req = "GET"
       /\ (exists redis, RedisClient cfg = Some redis)
       /\ out = Returned (Some r, None)
       /\ 200 <= StatusCode r < 300
       /\ Header_Get (RespHeader r) "X-Cache" = "MISS".
Proof.
  intros Hquiet. rewrite NewCacheMiddleware_paths.
  pose proof (cache_path_goroutines cfg req s) as Hg.
  destruct (cache_path cfg req s) as [[|sc| |] s1] eqn:Hpath; cbn [snd] in Hg.
  - intros Hrun. left. rewrite (Hquiet _ _ _ _ Hrun). exact Hg.
  - intros [= <- <-]. left. exact Hg.
  - intros Hrun. left. rewrite (Hquiet _ _ _ _ Hrun). exact Hg.
  - destruct (next req s1) as [[[resp [e|]]|msg] s2] eqn:Hnext;
      pose proof (Hquiet _ _ _ _ Hnext) as Hg2.
    + rewrite (missPath_error _ _ _ _ _ _ _ _ Hnext). intros [= <- <-].
      left. congruence.
    + destruct resp as [r0|].
      * destruct (is_2xx r0) eqn:H2xx.
        -- destruct (RespBody r0) as [body|read e] eqn:Hbody.
           ++ rewrite (missPath_2xx _ _ _ _ _ _ _ _ Hnext H2xx Hbody).
              intros [= <- <-]. right. do 2 eexists.
              split; [cbn [spawn goroutines]; rewrite Hg2, Hg; reflexivity|].
              split; [reflexivity|].
              destruct (cache_path_miss_GET _ _ _ _ Hpath) as [Hm Hr].
              split; [exact Hm|]. split; [exact Hr|]. split; [reflexivity|].
              split.
              ** unfold is_2xx in H2xx. apply andb_true_iff in H2xx as [Hlo Hhi].
                 apply Z.leb_le in Hlo. apply Z.ltb_lt in Hhi.
                 cbn [StatusCode set_header with_header with_body rewritten]. lia.
              ** apply Header_Get_Set.
           ++ rewrite (missPath_2xx_unreadable _ _ _ _ _ _ _ _ _ Hnext H2xx Hbody).
              intros [= <- <-]. left. cbn [goroutines]. congruence.
        -- rewrite (missPath_not_2xx _ _ _ _ _ _ _ Hnext H2xx).
           intros [= <- <-]. left. congruence.
      * unfold missPath, mbind, M_bind. rewrite Hnext. intros [= <- <-].
        left. congruence.
    + unfold missPath, mbind, M_bind. rewrite Hnext. intros [= <- <-].
      left. congruence.
Qed.

End CacheHitsAndWrites.

Lemma cache_hit_skips_inner_chain_witness :
  exists r : Response,
    (forall next', NewCacheMiddleware (scenarioB_cfg false) next'
                     (items_request Background) warm
                   = (Returned (Some r, None), warm))
    /\ Status r = "200"
    /\ StatusCode r = 200
    /\ Proto r = "HTTP/1.1"
    /\ RespBody r = Readable "[]"
    /\ ContentLength r = 2
    /\ Header_Get (RespHeader r) "X-Cache" = "HIT"
    /\ Header_Get (RespHeader r) "Cache-Control" = "max-age=60, public".
Proof.
  apply (cache_hit_skips_inner_chain (scenarioB_cfg false)
           (upstream ∅ (Readable "")) (items_request Background) warm
           (scriptRedis ∅) items_record warm_world).
  - reflexivity.
  - reflexivity.
  - vm_compute. reflexivity.
Defined.

Lemma cache_writes_only_2xx_GET_witness :
  let run := NewCacheMiddleware (scenarioB_cfg false) (upstream cc60 (Readable "[]"))
               (items_request Background) (start [200]) in
  goroutines (snd run) = goroutines (start [200])
  \/ exists (t : SetTask) (r : Response),
       goroutines (snd run) = (goroutines (start [200]) ++ [t])%list
       /\ task_key t = getCacheKey (items_request Background) (Headers (scenarioB_cfg false))
       /\ Method (items_request Background) = "GET"
       /\ (exists redis, RedisClient (scenarioB_cfg false) = Some redis)
       /\ fst run = Returned (Some r, None)
       /\ 200 <= StatusCode r < 300
       /\ Header_Get (RespHeader r) "X-Cache" = "MISS".
Proof.
  intros run.
  apply (cache_writes_only_2xx_GET (scenarioB_cfg false)
           (upstream cc60 (Readable "[]")) (items_request Background) (start [200])
           (snd run) (fst run)).
  - intros q s1 o s2. unfold upstream.
    destruct (script (world s1)); intros [= <- <-]; reflexivity.
  - apply surjective_pairing.
Defined.

(** ** The cache middleware: a hit after a miss *)




Example json_string_examples :
  json_string "max-age=60, public" = "max-age=60, public"
  /\ json_string (String (byte_of 0xC3) (String (byte_of 0xA9) "!"))
     = String (byte_of 0xC3) (String (byte_of 0xA9) "!")
  /\ json_string (String (byte_of 0xFF) (String (byte_of 0xFE) ""))
     = replacement_character ++ replacement_character
  /\ json_string (String (byte_of 0xE2) (String (byte_of 0x82) "x"))
     = replacement_character ++ replacement_character ++ "x"
  /\ json_string (String (byte_of 0xED) (String (byte_of 0xA0) (String (byte_of 0x80) "")))
     = replacement_character ++ replacement_character ++ replacement_character
  /\ json_string replacement_character = replacement_character.
Proof. vm_compute. repeat split. Qed.

(** ** A hit after a miss, through JSON *)









Section HitAfterMiss.
Context {W : Type}.
Implicit Types (cfg : CacheConfig W) (next : RoundTripper W) (s : St W).


End HitAfterMiss.


(** Bytes that are not valid UTF-8 do not come back: for a body of the two
    bytes FF FE, the hit carries U+FFFD twice, six bytes. *)
Example hit_replaces_invalid_bytes :
  let body := String (byte_of 0xFF) (String (byte_of 0xFE) "") in
  let sr := persisted (scenarioB_cfg false) (plain_response 200 cc60 (Readable body)) body in
  CachedBody sr = body
  /\ RespBody (cachedResponse (json_round_trip sr))
     = Readable (replacement_character ++ replacement_character)
  /\ ContentLength (cachedResponse (json_round_trip sr)) = 6.
Proof. vm_compute. repeat split. Qed.

(** ** Reading max-age *)

Lemma find_max_age_leading (digits tail : string) :
  all_bytes is_digit digits = true ->
  nonempty digits = true ->
  match tail with String c _ => is_digit c = false | EmptyString => True end ->
  find_max_age ("max-age=" ++ digits ++ tail) = Some digits.
Proof.
  intros Hdigits Hne Htail.
  change ("max-age=" ++ digits ++ tail) with (String "m" ("ax-age=" ++ digits ++ tail)).
  rewrite find_max_age_head.
  change (String "m" ("ax-age=" ++ digits ++ tail)) with ("max-age=" ++ digits ++ tail).
  rewrite CutPrefix_app, span_digits_app by assumption.
  cbn [fst]. cbv zeta. rewrite Hne. reflexivity.
Qed.

(** X8: the max-age that the cache reads in a response lies between 0 and
    the largest 64-bit integer; it is 0 when the response has no
    Cache-Control header; and for a header that starts with max-age=N it is
    N when N fits 64 bits and 0 when it does not. *)
Theorem getCacheControlHeaderValue_range (res : Response) :
  0 <= getCacheControlHeaderValue res <= max_int64
  /\ (Header_Get (RespHeader res) "Cache-Control" = "" ->
      getCacheControlHeaderValue res = 0)
  /\ (forall n tail,
        0 <= n ->
        match tail with String c _ => is_digit c = false | EmptyString => True end ->
        Header_Get (RespHeader res) "Cache-Control" = "max-age=" ++ decimal n ++ tail ->
        getCacheControlHeaderValue res = if n <=? max_int64 then n else 0).
Proof.
  unfold getCacheControlHeaderValue. split; [|split].
  - split; [apply max_age_of_nonneg|].
    unfold max_age_of. destruct (find_max_age _) as [ds|]; [|unfold max_int64; lia].
    unfold Atoi. destruct (digits_value ds 0 <=? max_int64) eqn:Hle.
    + apply Z.leb_le. exact Hle.
    + unfold max_int64. lia.
  - intros ->. reflexivity.
  - intros n tail Hn Htail ->. unfold max_age_of.
    rewrite find_max_age_leading
      by (try apply decimal_digits; try apply decimal_nonempty; assumption).
    unfold Atoi. rewrite digits_value_decimal by exact Hn.
    destruct (n <=? max_int64); reflexivity.
Qed.

(** ** The shape of the cache key *)

Lemma round_length (st : list Z) (kw : Z * Z) :
  length (SHA256.round st kw) = length st.
Proof.
  unfold SHA256.round.
  destruct st as [|a [|b [|c [|d [|e [|f [|g [|h [|x st]]]]]]]]]; reflexivity.
Qed.

Lemma fold_round_length (l : list (Z * Z)) (st : list Z) :
  length (fold_left SHA256.round l st) = length st.
Proof.
  revert st. induction l as [|kw l IH]; intros st; [reflexivity|].
  cbn [fold_left]. rewrite IH. apply round_length.
Qed.

Lemma add_state_length (l1 l2 : list Z) :
  length l1 = length l2 -> length (SHA256.add_state l1 l2) = length l1.
Proof.
  revert l2. induction l1 as [|x l1 IH]; intros [|y l2] Hlen; try discriminate; [reflexivity|].
  cbn [SHA256.add_state length]. f_equal. apply IH. injection Hlen. auto.
Qed.

Lemma add_state_range (l1 l2 : list Z) :
  Forall (fun w => 0 <= w < 2 ^ 32) (SHA256.add_state l1 l2).
Proof.
  revert l2. induction l1 as [|x l1 IH]; intros [|y l2]; try constructor.
  - unfold SHA256.add32, SHA256.w32. apply Z.mod_pos_bound. reflexivity.
  - apply IH.
Qed.

Lemma blocks_length (n : nat) (h bytes : list Z) :
  length (SHA256.blocks n h bytes) = length h.
Proof.
  revert h bytes. induction n as [|n IH]; intros h bytes; [reflexivity|].
  cbn [SHA256.blocks]. rewrite IH. unfold SHA256.compress.
  apply add_state_length. symmetry. apply fold_round_length.
Qed.

Lemma be_bytes_bytes (n : nat) (z : Z) :
  length (SHA256.be_bytes n z) = n
  /\ Forall (fun b => 0 <= b < 256) (SHA256.be_bytes n z).
Proof.
  induction n as [|n [IHlen IHall]]; [split; [reflexivity|constructor]|].
  cbn [SHA256.be_bytes]. split; [cbn [length]; f_equal; exact IHlen|].
  constructor; [apply Z.mod_pos_bound; lia|exact IHall].
Qed.

Lemma concat_be_bytes (ws : list Z) :
  length (concat (List.map (SHA256.be_bytes 4) ws)) = (4 * length ws)%nat
  /\ Forall (fun b => 0 <= b < 256) (concat (List.map (SHA256.be_bytes 4) ws)).
Proof.
  induction ws as [|w ws [IHlen IHall]]; [split; [reflexivity|constructor]|].
  cbn [List.map concat]. destruct (be_bytes_bytes 4 w) as [Hlen Hall]. split.
  - rewrite length_app, Hlen, IHlen. cbn [length]. lia.
  - apply Forall_app. split; assumption.
Qed.

Lemma hex_digit_lower (z : Z) : 0 <= z < 16 -> is_lower_hex (hex_digit z) = true.
Proof.
  intros Hz.
  assert (Hcases : z = 0 \/ z = 1 \/ z = 2 \/ z = 3 \/ z = 4 \/ z = 5 \/ z = 6 \/ z = 7
                   \/ z = 8 \/ z = 9 \/ z = 10 \/ z = 11 \/ z = 12 \/ z = 13 \/ z = 14
                   \/ z = 15) by lia.
  repeat (destruct Hcases as [->|Hcases]; [reflexivity|]). subst z. reflexivity.
Qed.

Lemma EncodeToString_hex (bytes : list Z) :
  Forall (fun b => 0 <= b < 256) bytes ->
  String.length (EncodeToString bytes) = (2 * length bytes)%nat
  /\ all_bytes is_lower_hex (EncodeToString bytes) = true.
Proof.
  induction 1 as [|b bytes Hb _ [IHlen IHall]]; [split; reflexivity|].
  cbn [EncodeToString String.length all_bytes length]. split.
  - rewrite IHlen. lia.
  - rewrite IHall, !hex_digit_lower.
    + reflexivity.
    + apply Z.mod_pos_bound. lia.
    + split; [apply Z.div_pos; lia|apply Z.div_lt_upper_bound; lia].
Qed.

(** X9: whatever the request and the configured headers, the cache key is a
    string of exactly 64 characters, each a digit or a letter from a to f. *)
Theorem getCacheKey_shape (req : Request) (headers : list string) :
  String.length (getCacheKey req headers) = 64%nat
  /\ all_bytes is_lower_hex (getCacheKey req headers) = true.
Proof.
  unfold getCacheKey, SHA256.Sum256.
  set (bytes := SHA256.pad _).
  destruct (concat_be_bytes (SHA256.blocks (length bytes / 64) SHA256.H0 bytes))
    as [Hlen Hall].
  destruct (EncodeToString_hex _ Hall) as [Hslen Hshex].
  split; [|exact Hshex].
  rewrite Hslen, Hlen, blocks_length. reflexivity.
Qed.

(** ** The query part of the cache key *)

Lemma parse_pair_kv (m : Values) (pair : string) :
  parse_pair m pair
  = match pair_kv pair with
    | Some (k, v) => <[k := (default [] (m !! k) ++ [v])%list]> m
    | None => m
    end.
Proof.
  unfold parse_pair, pair_kv.
  destruct (contains_byte ";" pair); [reflexivity|].
  destruct (negb (nonempty pair)); [reflexivity|].
  destruct (Cut pair "=") as [[key value] found].
  destruct (QueryUnescape key), (QueryUnescape value); reflexivity.
Qed.

Lemma fold_parse_pair_lookup (pairs : list string) : forall (m : Values) (k : string),
  fold_left parse_pair pairs m !! k
  = match values_of k (omap pair_kv pairs) with
    | [] => m !! k
    | vs => Some (default [] (m !! k) ++ vs)%list
    end.
Proof.
  induction pairs as [|pair pairs IH]; intros m k; [reflexivity|].
  cbn [fold_left]. rewrite IH, parse_pair_kv. cbn [omap list_omap].
  destruct (pair_kv pair) as [[k' v]|]; [|reflexivity].
  unfold values_of. rewrite filter_cons. cbn [fst].
  destruct (decide (k' = k)) as [->|Hne].
  - rewrite lookup_insert_eq. cbn [fmap list_fmap snd from_option id].
    destruct ((filter (fun kv : string * string => kv.1 = k) (omap pair_kv pairs)).*2);
      [reflexivity|].
    rewrite <- app_assoc. reflexivity.
  - rewrite lookup_insert_ne by exact Hne. reflexivity.
Qed.

Lemma URL_Query_lookup (u : URL) (k : string) :
  URL_Query u !! k
  = match values_of k (omap pair_kv (split_pairs (RawQuery u) "")) with
    | [] => None
    | vs => Some vs
    end.
Proof.
  unfold URL_Query. rewrite fold_parse_pair_lookup, lookup_empty.
  destruct (values_of _ _); reflexivity.
Qed.

Lemma sorted_query_any_order (u1 u2 : URL) :
  split_pairs (RawQuery u1) "" ≡ₚ split_pairs (RawQuery u2) "" ->
  sort_Strings <$> URL_Query u1 = sort_Strings <$> URL_Query u2.
Proof.
  intros Hperm. apply map_eq. intros k. rewrite !lookup_fmap, !URL_Query_lookup.
  assert (Hvs : values_of k (omap pair_kv (split_pairs (RawQuery u1) ""))
                ≡ₚ values_of k (omap pair_kv (split_pairs (RawQuery u2) ""))).
  { unfold values_of. rewrite Hperm. reflexivity. }
  destruct (values_of k (omap pair_kv (split_pairs (RawQuery u1) ""))) as [|v1 vs1];
    destruct (values_of k (omap pair_kv (split_pairs (RawQuery u2) ""))) as [|v2 vs2].
  - reflexivity.
  - apply Permutation_nil_l in Hvs. discriminate.
  - apply Permutation_nil_r in Hvs. discriminate.
  - cbn [fmap option_fmap option_map]. f_equal. apply sort_Strings_any_order. exact Hvs.
Qed.

Lemma queryPart_of_sorted (m : Values) :
  queryPart_of (map_to_list m) = queryPart_of (map_to_list (sort_Strings <$> m)).
Proof.
  unfold queryPart_of. f_equal. f_equal.
  rewrite map_to_list_fmap.
  change (@List.map) with (@fmap list _). rewrite <- list_fmap_compose.
  apply list_fmap_ext. intros i [k vs] _.
  unfold compose, prod_map. cbn [fst snd].
  assert (Hidem : sort_Strings (sort_Strings vs) = sort_Strings vs).
  { apply sort_Strings_any_order. unfold sort_Strings. apply merge_sort_Permutation. }
  rewrite Hidem. reflexivity.
Qed.

(** X10: the query part of the cache key does not depend on the order in
    which the parameters are written in the URL, nor on the order of the
    values of a repeated parameter: two raw queries that hold the same pairs
    in another order give the same query part. *)
Theorem buildQueryPart_any_order (r1 r2 : Request) :
  split_pairs (RawQuery (ReqURL r1)) "" ≡ₚ split_pairs (RawQuery (ReqURL r2)) "" ->
  buildQueryPart r1 = buildQueryPart r2.
Proof.
  intros Hperm. unfold buildQueryPart.
  rewrite (queryPart_of_sorted (URL_Query (ReqURL r1))).
  rewrite (queryPart_of_sorted (URL_Query (ReqURL r2))).
  rewrite (sorted_query_any_order _ _ Hperm). reflexivity.
Qed.

Lemma buildQueryPart_any_order_witness :
  buildQueryPart (get_request "/items" "b=2&a=1&a=0" ∅ Background)
  = buildQueryPart (get_request "/items" "a=0&b=2&a=1" ∅ Background).
Proof.
  apply (buildQueryPart_any_order (get_request "/items" "b=2&a=1&a=0" ∅ Background)
           (get_request "/items" "a=0&b=2&a=1" ∅ Background)).
  vm_compute. symmetry. apply (Permutation_cons_append ["b=2"; "a=1"] "a=0").
Defined.

(** ** The cache in the pipeline *)

Section CacheInPipeline.
Context {W : Type}.
Variable time_Now : W -> Z.
Variable DefaultTransport : RoundTripper W.
Implicit Types (cfg : CacheConfig W) (next : RoundTripper W) (s : St W).

(** X11: with the cache first in the slice, a hit is answered from the
    store whatever middlewares follow and whatever the base transport is:
    none of them is called, so a hit reaches neither the breaker nor the
    network. *)
Theorem cache_first_hit_stops_the_chain cfg (rest : list (RoundTripperMiddleware W))
    req s (redis : IRedisClient W) (sc : SerializableCache) (w : W) :
  RedisClient cfg = Some redis ->
  Method req = "GET" ->
  Get redis (ReqContext req) (getCacheKey req (Headers cfg)) (world s)
  = ((JSONText sc, None), w) ->
  exists t,
    configMiddlewares DefaultTransport (Some <$> NewCacheMiddleware cfg :: rest) = Returned t
    /\ t req s = (Returned (Some (cachedResponse sc), None), mkSt w (goroutines s) (logged s)).
Proof.
  intros Hredis Hget Hstore. eexists. split.
  - apply (configMiddlewares_nested DefaultTransport (NewCacheMiddleware cfg :: rest)).
  - cbn [nested fold_right]. rewrite NewCacheMiddleware_paths. unfold cache_path.
    rewrite Hredis, Hget, Hstore. reflexivity.
Qed.

(** X12: with the breaker behind the cache, a response with status 500 or
    more, or 429, never reaches the store: on a miss the breaker turns it
    into an [HTTPStatusError], the cache returns that error wrapped, with a
    nil response, and starts no write. *)
Theorem server_error_is_never_cached cfg name next req s s1 s2 (r : Response) :
  cache_path cfg req s = (Miss, s1) ->
  next req s1 = (Returned (Some r, None), s2) ->
  500 <= StatusCode r \/ StatusCode r = 429 ->
  NewCacheMiddleware cfg (NewCircuitBreakerMiddleware time_Now name next) req s
  = (Returned (None, Some (wrapError "error executing request: "
                             (HTTPStatusError (StatusCode r) (errorString "HTTP error")))),
     s2)
  /\ Error (wrapError "error executing request: "
             (HTTPStatusError (StatusCode r) (errorString "HTTP error")))
     = "error executing request: HTTP status " ++ Itoa (StatusCode r) ++ ": HTTP error".
Proof.
  intros Hpath Hnext Hcode. split; [|reflexivity].
  rewrite NewCacheMiddleware_paths, Hpath. apply missPath_error.
  rewrite breaker_never_rejects. unfold guarded, mbind, M_bind. rewrite Hnext.
  replace ((500 <=? StatusCode r) || (StatusCode r =? 429)) with true; [reflexivity|].
  symmetry. apply orb_true_iff.
  destruct Hcode as [H|H]; [left; apply Z.leb_le|right; apply Z.eqb_eq]; exact H.
Qed.

End CacheInPipeline.

Lemma cache_first_hit_stops_the_chain_witness :
  exists t,
    configMiddlewares (upstream ∅ (Readable "[]"))
      (Some <$> NewCacheMiddleware (scenarioB_cfg false)
                :: [NewCircuitBreakerMiddleware clock "svc"])
    = Returned t
    /\ t (items_request Background) warm
       = (Returned (Some (cachedResponse items_record), None),
          mkSt warm_world (goroutines warm) (logged warm)).
Proof.
  apply (cache_first_hit_stops_the_chain (upstream ∅ (Readable "[]"))
           (scenarioB_cfg false) [NewCircuitBreakerMiddleware clock "svc"]
           (items_request Background) warm (scriptRedis ∅) items_record warm_world).
  - reflexivity.
  - reflexivity.
  - vm_compute. reflexivity.
Defined.

Lemma server_error_is_never_cached_witness :
  NewCacheMiddleware (scenarioB_cfg false)
    (NewCircuitBreakerMiddleware clock "svc" (upstream ∅ (Readable "")))
    (items_request Background) (start [503])
  = (Returned (None, Some (wrapError "error executing request: "
                             (HTTPStatusError 503 (errorString "HTTP error")))),
     answered [])
  /\ Error (wrapError "error executing request: "
             (HTTPStatusError 503 (errorString "HTTP error")))
     = "error executing request: HTTP status " ++ Itoa 503 ++ ": HTTP error".
Proof.
  apply (server_error_is_never_cached clock (scenarioB_cfg false) "svc"
           (upstream ∅ (Readable "")) (items_request Background) (start [503])
           (start [503]) (answered []) (plain_response 503 ∅ (Readable ""))).
  - vm_compute. reflexivity.
  - reflexivity.
  - left. simpl. lia.
Defined.

(** ** Setting the entries of a map on a header *)

Lemma set_each_other (l : list (string * string)) : forall (h : Header) (c : string),
  (forall k v, (k, v) ∈ l -> CanonicalMIMEHeaderKey k <> c) ->
  set_each l h !! c = h !! c.
Proof.
  induction l as [|[k0 v0] l IH]; intros h c Hl; [reflexivity|].
  unfold set_each in *. cbn [fold_left fst snd]. rewrite IH.
  - unfold Header_Set. apply lookup_insert_ne. apply (Hl k0 v0). left.
  - intros k v Hin. apply (Hl k v). right. exact Hin.
Qed.

Lemma canonical_name_among (l : list (string * string)) (c : string) :
  (exists k v, (k, v) ∈ l /\ CanonicalMIMEHeaderKey k = c)
  \/ (forall k v, (k, v) ∈ l -> CanonicalMIMEHeaderKey k <> c).
Proof.
  induction l as [|[k0 v0] l [(k & v & Hin & Hk)|IH]].
  - right. intros k v Hin. inversion Hin.
  - left. exists k, v. split; [right; exact Hin|exact Hk].
  - destruct (decide (CanonicalMIMEHeaderKey k0 = c)) as [Hk|Hk].
    + left. exists k0, v0. split; [left|exact Hk].
    + right. intros k v Hin. apply elem_of_cons in Hin as [[= -> ->]|Hin];
        [exact Hk|exact (IH k v Hin)].
Qed.

Lemma set_each_set (l : list (string * string)) : forall (h : Header) (k v : string),
  (k, v) ∈ l ->
  (forall k' v', (k', v') ∈ l ->
                 CanonicalMIMEHeaderKey k' = CanonicalMIMEHeaderKey k -> v' = v) ->
  set_each l h !! CanonicalMIMEHeaderKey k = Some [v].
Proof.
  induction l as [|[k0 v0] l IH]; intros h k v Hin Huniq; [inversion Hin|].
  change (set_each ((k0, v0) :: l) h) with (set_each l (Header_Set h k0 v0)).
  destruct (canonical_name_among l (CanonicalMIMEHeaderKey k)) as [(k1 & v1 & Hin1 & Hk1)|Hnone].
  - assert (v1 = v) as -> by (apply (Huniq k1); [right; exact Hin1|exact Hk1]).
    rewrite <- Hk1. apply IH; [exact Hin1|].
    intros k' v' Hin' Hk'. apply (Huniq k'); [right; exact Hin'|congruence].
  - rewrite set_each_other by exact Hnone.
    apply elem_of_cons in Hin as [[= -> ->]|Hin].
    + unfold Header_Set. apply lookup_insert_eq.
    + exfalso. exact (Hnone k v Hin eq_refl).
Qed.

(** ** The header middleware *)

Section HeaderMiddlewareProperties.
Context {W : Type}.
Variable range : gmap string string -> list (string * string).
Hypothesis range_visits_all : forall m, range m ≡ₚ map_to_list m.

Lemma range_elem (m : gmap string string) (k v : string) :
  (k, v) ∈ range m <-> m !! k = Some v.
Proof. rewrite range_visits_all. apply elem_of_map_to_list. Qed.

Lemma set_each_range_other (m : gmap string string) (h : Header) (name : string) :
  (forall k, is_Some (m !! k) -> CanonicalMIMEHeaderKey k <> CanonicalMIMEHeaderKey name) ->
  set_each (range m) h !! CanonicalMIMEHeaderKey name = h !! CanonicalMIMEHeaderKey name.
Proof.
  intros Hm. apply set_each_other. intros k v Hin. apply Hm.
  exists v. apply range_elem. exact Hin.
Qed.

Lemma set_each_range_set (m : gmap string string) (h : Header) (k v : string) :
  m !! k = Some v ->
  names_agree m k v ->
  set_each (range m) h !! CanonicalMIMEHeaderKey k = Some [v].
Proof.
  intros Hk Huniq. apply set_each_set; [apply range_elem; exact Hk|].
  intros k' v' Hin. apply Huniq. apply range_elem. exact Hin.
Qed.

(** X13: the header middleware hands the rest of the chain the same
    request with the configured headers set, in whatever order the map is
    visited: a configured name holds its configured value alone (values
    that the request had under that name are replaced), provided no other
    configured name with the same canonical form has a different value; a
    name whose canonical form is not configured keeps the values it had.
    The result of the chain is returned as it is. *)
Theorem NewHeaderMiddleware_sets_headers (headers : gmap string string)
    (next : RoundTripper W) (req : Request) :
  exists h : Header,
    NewHeaderMiddleware range headers next req
    = next (mkRequest (Method req) (ReqURL req) h (ReqContext req))
    /\ (forall k v,
          headers !! k = Some v ->
          names_agree headers k v ->
          h !! CanonicalMIMEHeaderKey k = Some [v] /\ Header_Get h k = v)
    /\ (forall name,
          (forall k, is_Some (headers !! k) ->
                     CanonicalMIMEHeaderKey k <> CanonicalMIMEHeaderKey name) ->
          h !! CanonicalMIMEHeaderKey name = ReqHeader req !! CanonicalMIMEHeaderKey name
          /\ Header_Get h name = Header_Get (ReqHeader req) name).
Proof.
  eexists. split; [reflexivity|].
  destruct (size headers =? 0)%nat eqn:Hsize; cbn [negb].
  - apply Nat.eqb_eq, map_size_empty_iff in Hsize. subst headers. split.
    + intros k v Hk. rewrite lookup_empty in Hk. discriminate.
    + intros name _. split; reflexivity.
  - split.
    + intros k v Hk Huniq.
      pose proof (set_each_range_set headers (ReqHeader req) k v Hk Huniq) as Hset.
      split; [exact Hset|]. unfold Header_Get. rewrite Hset. reflexivity.
    + intros name Hname.
      pose proof (set_each_range_other headers (ReqHeader req) name Hname) as Hsame.
      split; [exact Hsame|]. unfold Header_Get. rewrite Hsame. reflexivity.
Qed.

End HeaderMiddlewareProperties.


Lemma NewHeaderMiddleware_sets_headers_witness :
  exists h : Header,
    NewHeaderMiddleware map_to_list {["x-api-key" := "secret"]}
      (upstream ∅ (Readable "[]")) (items_request Background)
    = upstream ∅ (Readable "[]")
        (mkRequest (Method (items_request Background)) (ReqURL (items_request Background))
                   h (ReqContext (items_request Background)))
    /\ (forall k v,
          ({["x-api-key" := "secret"]} : gmap string string) !! k = Some v ->
          names_agree {["x-api-key" := "secret"]} k v ->
          h !! CanonicalMIMEHeaderKey k = Some [v] /\ Header_Get h k = v)
    /\ (forall name,
          (forall k, is_Some (({["x-api-key" := "secret"]} : gmap string string) !! k) ->
                     CanonicalMIMEHeaderKey k <> CanonicalMIMEHeaderKey name) ->
          h !! CanonicalMIMEHeaderKey name
          = ReqHeader (items_request Background) !! CanonicalMIMEHeaderKey name
          /\ Header_Get h name = Header_Get (ReqHeader (items_request Background)) name).
Proof.
  apply (NewHeaderMiddleware_sets_headers map_to_list).
  intros m. reflexivity.
Defined.

(** ** The client facade *)

Lemma HasSuffix_slash (b : string) : HasSuffix (b ++ "/") "/" = true.
Proof.
  unfold HasSuffix. rewrite length_append. cbn [String.length].
  replace (String.length b + 1 - 1)%nat with (String.length b) by lia.
  replace (1 <=? String.length b + 1)%nat with true by (symmetry; apply Nat.leb_le; lia).
  cbn [andb]. induction b as [|c b IH]; [reflexivity|].
  rewrite append_cons. cbn [String.length substring]. exact IH.
Qed.

Lemma TrimSuffix_slash (b : string) : TrimSuffix (b ++ "/") "/" = b.
Proof.
  unfold TrimSuffix. rewrite HasSuffix_slash, length_append. cbn [String.length].
  replace (String.length b + 1 - 1)%nat with (String.length b) by lia.
  induction b as [|c b IH]; [reflexivity|].
  rewrite append_cons. cbn [String.length substring]. f_equal. exact IH.
Qed.

Lemma TrimPrefix_slash (p : string) : TrimPrefix ("/" ++ p) "/" = p.
Proof. unfold TrimPrefix. rewrite append_cons. cbn. destruct p; reflexivity. Qed.

Lemma TrimPrefix_none (p prefix : string) : HasPrefix p prefix = false -> TrimPrefix p prefix = p.
Proof. unfold HasPrefix, TrimPrefix. destruct (CutPrefix p prefix); [discriminate|reflexivity]. Qed.

Section FacadeProperties.
Context {W J : Type}.
Variable range : gmap string string -> list (string * string).
Variable DefaultTransport : RoundTripper W.
Variable Do : http_Client W -> RoundTripper W.
Variable NewRequestWithContext : Context -> string -> string -> option Body -> error + Request.
Variable Value_forwardedHeaders : Context -> option (gmap string string).
Variable Unmarshal : string -> error + J.

(** X14: how the facade forms the URL.  A path that starts with the four
    bytes http is used as it is and the base URL is ignored, whatever
    follows those bytes.  Any other path is joined to the base URL with one
    slash: one slash at the end of the base URL and one at the start of the
    path are dropped, so that the four ways of writing them give the same
    URL. *)
Theorem requestURL_join (c : HTTPClient W) (path : string) :
  (HasPrefix path "http" = true -> requestURL c path = path)
  /\ (HasPrefix path "http" = false ->
      forall b p,
        baseURL c = b \/ baseURL c = b ++ "/" ->
        HasSuffix b "/" = false ->
        path = p \/ path = "/" ++ p ->
        HasPrefix p "/" = false ->
        requestURL c path = b ++ "/" ++ p).
Proof.
  unfold requestURL. split; intros Hhttp; rewrite Hhttp; cbn [negb]; [reflexivity|].
  intros b p Hb Hbs Hp Hps. f_equal; [|f_equal].
  - destruct Hb as [->| ->]; [|apply TrimSuffix_slash].
    unfold TrimSuffix. rewrite Hbs. reflexivity.
  - destruct Hp as [->| ->]; [|apply TrimPrefix_slash].
    apply TrimPrefix_none. exact Hps.
Qed.


Hypothesis range_visits_all : forall m, range m ≡ₚ map_to_list m.


(** The header before the default content type is considered. *)
Lemma requestHeader_unfold (c : HTTPClient W) ctx method (h : Header) :
  requestHeader range Value_forwardedHeaders c ctx method h
  = let h2 := set_each (range (headers c))
                       (set_each (range (getForwardedHeaders Value_forwardedHeaders ctx)) h) in
    if String.eqb method "POST" && String.eqb (Header_Get h2 "Content-Type") ""
    then Header_Set h2 "Content-Type" "application/json"
    else h2.
Proof. reflexivity. Qed.

Lemma requestHeader_Get (c : HTTPClient W) ctx method (h : Header) (k v : string) :
  v <> "" \/ CanonicalMIMEHeaderKey k <> "Content-Type" \/ method <> "POST" ->
  set_each (range (headers c)) (set_each (range (getForwardedHeaders Value_forwardedHeaders ctx)) h)
    !! CanonicalMIMEHeaderKey k = Some [v] ->
  Header_Get (requestHeader range Value_forwardedHeaders c ctx method h) k = v.
Proof.
  intros Hcase Hset. rewrite requestHeader_unfold. cbv zeta.
  set (h2 := set_each (range (headers c)) _) in *.
  assert (Hget : Header_Get h2 k = v) by (unfold Header_Get; rewrite Hset; reflexivity).
  destruct (String.eqb method "POST") eqn:Hm; cbn [andb]; [|exact Hget].
  destruct (String.eqb (Header_Get h2 "Content-Type") "") eqn:Hct; [|exact Hget].
  apply String.eqb_eq in Hm, Hct.
  destruct (decide (CanonicalMIMEHeaderKey k = "Content-Type")) as [Hk|Hk].
  - exfalso. unfold Header_Get in Hct.
    change (CanonicalMIMEHeaderKey "Content-Type") with "Content-Type" in Hct.
    rewrite <- Hk, Hset in Hct.
    destruct Hcase as [H|[H|H]]; [exact (H Hct)|exact (H Hk)|exact (H Hm)].
  - rewrite Header_Get_Set_ne; [exact Hget|].
    change (CanonicalMIMEHeaderKey "Content-Type") with "Content-Type". congruence.
Qed.

Lemma requestHeader_forwarded (c : HTTPClient W) ctx method (h : Header) (k v : string) :
  v <> "" \/ CanonicalMIMEHeaderKey k <> "Content-Type" \/ method <> "POST" ->
  getForwardedHeaders Value_forwardedHeaders ctx !! k = Some v ->
  names_agree (getForwardedHeaders Value_forwardedHeaders ctx) k v ->
  (forall k', is_Some (headers c !! k') ->
              CanonicalMIMEHeaderKey k' <> CanonicalMIMEHeaderKey k) ->
  Header_Get (requestHeader range Value_forwardedHeaders c ctx method h) k = v.
Proof.
  intros Hcase Hk Hagree Hfree. apply requestHeader_Get; [exact Hcase|].
  rewrite (set_each_range_other range range_visits_all) by exact Hfree.
  apply (set_each_range_set range range_visits_all); assumption.
Qed.

(** X15: which value a header of the outgoing request has.  A header of the
    client's own map has the value given there, whatever the context
    forwards under that name; a forwarded header has the forwarded value
    when the client's map has no name of the same canonical form.  In both
    cases no other name of the same map with that canonical form may have a
    different value, and an empty Content-Type of a POST is excepted. *)
Theorem requestHeader_precedence (c : HTTPClient W) ctx method (h : Header) (k v : string) :
  v <> "" \/ CanonicalMIMEHeaderKey k <> "Content-Type" \/ method <> "POST" ->
  (headers c !! k = Some v /\ names_agree (headers c) k v)
  \/ (getForwardedHeaders Value_forwardedHeaders ctx !! k = Some v
      /\ names_agree (getForwardedHeaders Value_forwardedHeaders ctx) k v
      /\ forall k', is_Some (headers c !! k') ->
                    CanonicalMIMEHeaderKey k' <> CanonicalMIMEHeaderKey k) ->
  Header_Get (requestHeader range Value_forwardedHeaders c ctx method h) k = v.
Proof.
  intros Hcase [[Hk Hagree]|(Hk & Hagree & Hfree)].
  - apply requestHeader_Get; [exact Hcase|].
    apply (set_each_range_set range range_visits_all); assumption.
  - apply requestHeader_forwarded; assumption.
Qed.

(** X16: the default content type.  The Content-Type of a POST is never
    empty.  When neither the request, nor the forwarded headers, nor the
    client's map give a Content-Type, a POST is sent as application/json,
    and a request of any other method, PUT and PATCH included, is sent
    without a Content-Type. *)
Theorem default_content_type (c : HTTPClient W) ctx method (h : Header) :
  (method = "POST" ->
   Header_Get (requestHeader range Value_forwardedHeaders c ctx method h) "Content-Type"
   <> "")
  /\ (Header_Get h "Content-Type" = "" ->
      (forall k, is_Some (getForwardedHeaders Value_forwardedHeaders ctx !! k) ->
                 CanonicalMIMEHeaderKey k <> "Content-Type") ->
      (forall k, is_Some (headers c !! k) -> CanonicalMIMEHeaderKey k <> "Content-Type") ->
      Header_Get (requestHeader range Value_forwardedHeaders c ctx method h) "Content-Type"
      = if String.eqb method "POST" then "application/json" else "").
Proof.
  rewrite requestHeader_unfold. cbv zeta.
  set (h2 := set_each (range (headers c)) _). split.
  - intros ->. cbn [String.eqb Ascii.eqb Bool.eqb andb].
    destruct (String.eqb (Header_Get h2 "Content-Type") "") eqn:Hct.
    + rewrite Header_Get_Set. discriminate.
    + apply String.eqb_neq. exact Hct.
  - intros Hh Hfwd Hown.
    assert (Hget : Header_Get h2 "Content-Type" = "").
    { unfold Header_Get, h2.
      rewrite !(set_each_range_other range range_visits_all) by assumption.
      exact Hh. }
    rewrite Hget. cbn [String.eqb]. rewrite andb_true_r.
    destruct (String.eqb method "POST"); [apply Header_Get_Set|exact Hget].
Qed.

(** X17: what a call of the facade returns.  It returns a response or an
    error, never both and never neither.  An error is one of four, each
    wrapping its cause: the request could not be created (and then nothing
    was sent), the client failed, the body could not be read, or the body
    is not JSON.  A response is returned whatever its status code, with the
    status code and the header of the response that the client received. *)
Theorem doRequest_result (c : HTTPClient W) ctx method path body (s s' : St W)
    (out : option (HTTPResponse J) * option error) :
  doRequest range Do NewRequestWithContext Value_forwardedHeaders Unmarshal
            c ctx method path body s
  = (Returned out, s') ->
  (exists e, out = (None, Some (wrapError "failed to create request: " e))
             /\ s' = s
             /\ NewRequestWithContext ctx method (requestURL c path) body = inl e)
  \/ (exists e, out = (None, Some (wrapError "request execution failed: " e)))
  \/ (exists e, out = (None, Some (wrapError "failed to read response body: " e)))
  \/ (exists e, out = (None, Some (wrapError "failed to unmarshal response body: " e)))
  \/ (exists req r text j,
        NewRequestWithContext ctx method (requestURL c path) body = inr req
        /\ Do (client c)
              (with_request_header req
                 (requestHeader range Value_forwardedHeaders c ctx method (ReqHeader req))) s
           = (Returned (Some r, None), s')
        /\ fst (ReadAll (RespBody r)) = (text, None)
        /\ Unmarshal text = inr j
        /\ out = (Some (mkHTTPResponse j (StatusCode r) (RespHeader r)), None)).
Proof.
  unfold doRequest.
  destruct (NewRequestWithContext ctx method (requestURL c path) body) as [e|req] eqn:Hnew.
  - intros [= <- <-]. left. exists e. repeat split.
  - unfold mbind, M_bind.
    destruct (Do (client c) _ s) as [[[resp err]|msg] s1] eqn:Hdo; [|discriminate].
    destruct err as [e|].
    + intros [= <- <-]. right. left. exists e. reflexivity.
    + destruct resp as [r|]; [|discriminate].
      destruct (ReadAll (RespBody r)) as [[text rerr] b] eqn:Hread.
      destruct rerr as [e|].
      * intros [= <- <-]. do 2 right. left. exists e. reflexivity.
      * destruct (Unmarshal text) as [e|j] eqn:Hjson.
        -- intros [= <- <-]. do 3 right. left. exists e. reflexivity.
        -- intros [= <- <-]. do 4 right. exists req, r, text, j.
           rewrite Hread. repeat split; assumption.
Qed.

End FacadeProperties.

Lemma requestHeader_precedence_witness :
  Header_Get (requestHeader map_to_list forwarded_ctx api_client Background "GET" ∅)
             "x-api-key"
  = "secret".
Proof.
  apply (requestHeader_precedence map_to_list forwarded_ctx (fun m => Permutation_refl _)
           api_client Background "GET" ∅ "x-api-key" "secret").
  - left. discriminate.
  - left. split; [reflexivity|].
    intros k' v' Hk' _. cbn [headers api_client] in Hk'.
    apply lookup_singleton_Some in Hk' as [_ <-]. reflexivity.
Defined.

Lemma default_content_type_witness :
  ("POST" = "POST" ->
   Header_Get (requestHeader map_to_list forwarded_ctx api_client Background "POST" ∅)
              "Content-Type" <> "")
  /\ (Header_Get ∅ "Content-Type" = "" ->
      (forall k, is_Some (getForwardedHeaders forwarded_ctx Background !! k) ->
                 CanonicalMIMEHeaderKey k <> "Content-Type") ->
      (forall k, is_Some (headers api_client !! k) ->
                 CanonicalMIMEHeaderKey k <> "Content-Type") ->
      Header_Get (requestHeader map_to_list forwarded_ctx api_client Background "POST" ∅)
                 "Content-Type"
      = if String.eqb "POST" "POST" then "application/json" else "").
Proof.
  apply (default_content_type map_to_list forwarded_ctx (fun m => Permutation_refl _)
           api_client Background "POST" ∅).
Defined.

Lemma doRequest_result_witness :
  let out : option (HTTPResponse string) * option error :=
    (Some (mkHTTPResponse "[]" 200 ∅), None) in
  (exists e, out = (None, Some (wrapError "failed to create request: " e))
             /\ answered [] = start [200]
             /\ plain_request Background "GET" (requestURL api_client "/items") None = inl e)
  \/ (exists e, out = (None, Some (wrapError "request execution failed: " e)))
  \/ (exists e, out = (None, Some (wrapError "failed to read response body: " e)))
  \/ (exists e, out = (None, Some (wrapError "failed to unmarshal response body: " e)))
  \/ (exists req r text j,
        plain_request Background "GET" (requestURL api_client "/items") None = inr req
        /\ transport_Do (client api_client)
             (with_request_header req
                (requestHeader map_to_list forwarded_ctx api_client Background "GET"
                   (ReqHeader req))) (start [200])
           = (Returned (Some r, None), answered [])
        /\ fst (ReadAll (RespBody r)) = (text, None)
        /\ text_Unmarshal text = inr j
        /\ out = (Some (mkHTTPResponse j (StatusCode r) (RespHeader r)), None)).
Proof.
  intros out.
  apply (doRequest_result map_to_list transport_Do plain_request forwarded_ctx
           text_Unmarshal api_client Background "GET" "/items" None (start [200])
           (answered []) out).
  reflexivity.
Defined.

(** ** The server middlewares *)

Lemma collect_lookup (c_Get : string -> string) (l : list string) :
  forall (m : gmap string string) (h : string),
    collect c_Get l m !! h
    = if bool_decide (h ∈ l) && nonempty (c_Get h) then Some (c_Get h) else m !! h.
Proof.
  induction l as [|a l IH]; intros m h; [reflexivity|].
  unfold collect in *. cbn [fold_left]. rewrite IH. cbv zeta.
  destruct (decide (h = a)) as [->|Hne].
  - rewrite (bool_decide_eq_true_2 (a ∈ a :: l)) by left. cbn [andb].
    fold (nonempty (c_Get a)).
    destruct (nonempty (c_Get a)); [|rewrite andb_false_r; reflexivity].
    rewrite andb_true_r, lookup_insert_eq. destruct (bool_decide (a ∈ l)); reflexivity.
  - assert (Hin : bool_decide (h ∈ a :: l) = bool_decide (h ∈ l)).
    { apply bool_decide_ext. rewrite elem_of_cons. tauto. }
    rewrite Hin. destruct (bool_decide (h ∈ l) && nonempty (c_Get h)); [reflexivity|].
    destruct (negb (String.eqb (c_Get a) "")); [|reflexivity].
    apply lookup_insert_ne. congruence.
Qed.

Lemma collect_spec (c_Get : string -> string) (l : list string) (h v : string) :
  collect c_Get l ∅ !! h = Some v <-> h ∈ l /\ c_Get h = v /\ v <> "".
Proof.
  rewrite collect_lookup, lookup_empty. unfold nonempty.
  destruct (bool_decide (h ∈ l)) eqn:Hin; cbn [andb].
  - apply bool_decide_eq_true_1 in Hin.
    destruct (String.eqb (c_Get h) "") eqn:Hv; cbn [negb].
    + apply String.eqb_eq in Hv. split; [discriminate|]. intros (_ & <- & Hne). contradiction.
    + apply String.eqb_neq in Hv. split.
      * intros [= <-]. auto.
      * intros (_ & <- & _). reflexivity.
  - apply bool_decide_eq_false_1 in Hin. split; [discriminate|]. intros [H _]. contradiction.
Qed.

(** X18: the map that [ForwardHeadersMiddleware] stores for the handlers
    that follow holds exactly the listed headers that the incoming request
    has with a value that is not empty, each with that value; the names
    listed are the default ones when the list given is empty.  The name of
    the application plays no part: x-origin-app is in the map only if it is
    listed and the request carries it. *)
Theorem ForwardHeadersMiddleware_map {R} (appName : string) (forwardHeaders : list string)
    (c_Get : string -> string) (c_Next : gmap string string -> R) :
  exists m : gmap string string,
    ForwardHeadersMiddleware appName forwardHeaders c_Get c_Next = c_Next m
    /\ forall h v,
         m !! h = Some v
         <-> h ∈ match forwardHeaders with
                 | [] => defaultForwardHeaders
                 | _ => forwardHeaders
                 end
             /\ c_Get h = v /\ v <> "".
Proof.
  eexists. split; [reflexivity|]. intros h v. rewrite collect_spec.
  destruct forwardHeaders; reflexivity.
Qed.

Section ForwardedToUpstream.
Context {W : Type}.
Variable range : gmap string string -> list (string * string).
Variable Value_forwardedHeaders : Context -> option (gmap string string).
Hypothesis range_visits_all : forall m, range m ≡ₚ map_to_list m.

(** X19: from the incoming request to the outgoing one.  When the context
    of a call of the facade holds the map that [ForwardHeadersMiddleware]
    stored, a listed header that the incoming request has with a value that
    is not empty is sent with that value on the outgoing request, for every
    method, provided the client's own map has no header of the same
    canonical form and the listed names of that canonical form that the
    incoming request has carry the same value. *)
Theorem forwarded_header_reaches_request (c : HTTPClient W) ctx method (h : Header)
    (appName : string) (forwardHeaders : list string) (c_Get : string -> string)
    (name : string) :
  Value_forwardedHeaders ctx
  = Some (ForwardHeadersMiddleware appName forwardHeaders c_Get id) ->
  name ∈ match forwardHeaders with [] => defaultForwardHeaders | _ => forwardHeaders end ->
  c_Get name <> "" ->
  (forall name', CanonicalMIMEHeaderKey name' = CanonicalMIMEHeaderKey name ->
                 c_Get name' = "" \/ c_Get name' = c_Get name) ->
  (forall k, is_Some (headers c !! k) ->
             CanonicalMIMEHeaderKey k <> CanonicalMIMEHeaderKey name) ->
  Header_Get (requestHeader range Value_forwardedHeaders c ctx method h) name = c_Get name.
Proof.
  intros Hctx Hin Hval Hsame Hfree.
  assert (Hmap : getForwardedHeaders Value_forwardedHeaders ctx
                 = collect c_Get match forwardHeaders with
                                 | [] => defaultForwardHeaders
                                 | _ => forwardHeaders
                                 end ∅).
  { unfold getForwardedHeaders. rewrite Hctx. destruct forwardHeaders; reflexivity. }
  apply (requestHeader_forwarded range Value_forwardedHeaders range_visits_all);
    [left; exact Hval| | |exact Hfree].
  - rewrite Hmap. apply collect_spec. auto.
  - intros k' v'. rewrite Hmap. intros Hk' Hcanon.
    apply collect_spec in Hk' as (_ & <- & Hne).
    destruct (Hsame k' Hcanon) as [H|H]; [contradiction|exact H].
Qed.

End ForwardedToUpstream.

Lemma forwarded_header_reaches_request_witness :
  Header_Get (requestHeader map_to_list forwarded_ctx api_client Background "GET" ∅)
             "x-request-id"
  = incoming "x-request-id".
Proof.
  apply (forwarded_header_reaches_request map_to_list forwarded_ctx
           (fun m => Permutation_refl _) api_client Background "GET" ∅ "app" [] incoming
           "x-request-id").
  - reflexivity.
  - left.
  - discriminate.
  - intros name' _. unfold incoming. destruct (String.eqb name' "x-request-id"); auto.
  - intros k [v Hk]. cbn [headers api_client] in Hk.
    apply lookup_singleton_Some in Hk as [<- _]. vm_compute. discriminate.
Defined.

Lemma find_max_age_skip (p rest : string) :
  contains_byte "m" p = false -> find_max_age (p ++ rest) = find_max_age rest.
Proof.
  induction p as [|c p IH]; intros Hp.
  - destruct rest; reflexivity.
  - cbn [contains_byte] in Hp. apply orb_false_iff in Hp as [Hc Hp].
    rewrite append_cons, find_max_age_head. cbn [CutPrefix].
    rewrite Hc. apply IH. exact Hp.
Qed.

Lemma isValidCacheType_cases (ct : string) :
  isValidCacheType ct = true ->
  ct = "public" \/ ct = "private" \/ ct = "no-store" \/ ct = "no-cache".
Proof.
  unfold isValidCacheType. rewrite !orb_true_iff, !String.eqb_eq. tauto.
Qed.

(** X20: what [SetCacheControlMiddleware] makes of a route, and what the
    client's cache reads in it.  With a cache type that is not one of the
    four, the handlers that follow are not run and the error is returned.
    With a valid one they are run; if they fail their error is returned and
    the header is not set; otherwise Cache-Control is set to a value in
    which the cache middleware of the client reads the max-age [ttl], for
    every one of the four types, no-store and private included, and 0 when
    [ttl] is not positive. *)
Theorem SetCacheControl_read_back {C} (cacheType : string) (ttl : Z)
    (c_Next : C -> option error * C) (Response_Header_Set : string -> string -> C -> C)
    (c : C) :
  ttl <= max_int64 ->
  (isValidCacheType cacheType = false ->
   SetCacheControlMiddleware cacheType ttl c_Next Response_Header_Set c
   = (Some (errorString ("invalid cache type: " ++ cacheType)), c))
  /\ (isValidCacheType cacheType = true ->
      (forall e c', c_Next c = (Some e, c') ->
         SetCacheControlMiddleware cacheType ttl c_Next Response_Header_Set c = (Some e, c'))
      /\ (forall c', c_Next c = (None, c') ->
            exists value,
              SetCacheControlMiddleware cacheType ttl c_Next Response_Header_Set c
              = (None, Response_Header_Set "Cache-Control" value c')
              /\ max_age_of value = Z.max 0 ttl)).
Proof.
  intros Hmax. unfold SetCacheControlMiddleware. split; intros Hvalid; rewrite Hvalid;
    cbn [negb]; [reflexivity|].
  split; [intros e c' ->; reflexivity|]. intros c' ->. eexists. split; [reflexivity|].
  destruct (0 <? ttl) eqn:Httl.
  - apply Z.ltb_lt in Httl. rewrite Z.max_r by lia. unfold max_age_of.
    assert (Hfind : find_max_age (cacheType ++ ", max-age=" ++ Itoa ttl)
                    = Some (decimal ttl)).
    { unfold Itoa. replace (ttl <? 0) with false by (symmetry; apply Z.ltb_ge; lia).
      change (", max-age=" ++ decimal ttl) with (", " ++ "max-age=" ++ decimal ttl).
      rewrite <- append_assoc, find_max_age_skip.
      - rewrite <- (append_nil_r (decimal ttl)) at 1.
        apply find_max_age_leading;
          [apply decimal_digits; lia|apply decimal_nonempty|exact I].
      - destruct (isValidCacheType_cases _ Hvalid) as [->|[->|[->| ->]]]; reflexivity. }
    rewrite Hfind. unfold Atoi. rewrite digits_value_decimal by lia.
    replace (ttl <=? max_int64) with true by (symmetry; apply Z.leb_le; exact Hmax).
    reflexivity.
  - apply Z.ltb_ge in Httl. rewrite Z.max_l by lia.
    destruct (isValidCacheType_cases _ Hvalid) as [->|[->|[->| ->]]]; reflexivity.
Qed.

Lemma SetCacheControl_read_back_witness :
  (isValidCacheType "no-store" = false ->
   SetCacheControlMiddleware "no-store" 60 (fun c : Header => (None, c))
     (fun k v h => Header_Set h k v) ∅
   = (Some (errorString ("invalid cache type: " ++ "no-store")), ∅))
  /\ (isValidCacheType "no-store" = true ->
      (forall e c', (None, ∅) = (Some e, c') ->
         SetCacheControlMiddleware "no-store" 60 (fun c : Header => (None, c))
           (fun k v h => Header_Set h k v) ∅ = (Some e, c'))
      /\ (forall c', (@None error, (∅ : Header)) = (None, c') ->
            exists value,
              SetCacheControlMiddleware "no-store" 60 (fun c : Header => (None, c))
                (fun k v h => Header_Set h k v) ∅
              = (None, Header_Set c' "Cache-Control" value)
              /\ max_age_of value = Z.max 0 60)).
Proof.
  apply (SetCacheControl_read_back "no-store" 60 (fun c : Header => (None, c))
           (fun k v h => Header_Set h k v) ∅).
  vm_compute. discriminate.
Defined.

(** ** Splitting *)

Lemma append_nil_l (s : string) : "" ++ s = s.
Proof. reflexivity. Qed.

Lemma CutPrefix_empty (s : string) : CutPrefix s "" = Some s.
Proof. destruct s; reflexivity. Qed.

Lemma split_loop_nonempty (s sep : string) :
  forall (skip : nat) (cur : string), split_loop skip s sep cur <> [].
Proof.
  induction s as [|c s IH]; intros skip cur; [discriminate|].
  cbn [split_loop]. destruct skip as [|skip]; [|apply IH].
  destruct (HasPrefix (String c s) sep); [discriminate|apply IH].
Qed.

Lemma split_loop_without (s sep : string) :
  forall cur, Contains s sep = false -> split_loop 0 s sep cur = [cur ++ s].
Proof.
  induction s as [|c s IH]; intros cur Hs.
  - rewrite append_nil_r. reflexivity.
  - cbn [Contains] in Hs. apply orb_false_iff in Hs as [Hhere Hs].
    cbn [split_loop]. rewrite Hhere, IH by exact Hs.
    rewrite append_assoc. reflexivity.
Qed.

Lemma split_loop_pass (pre : string) (c0 : ascii) (sep' : string) :
  forall rest cur,
    contains_byte c0 pre = false ->
    split_loop 0 (pre ++ rest) (String c0 sep') cur
    = split_loop 0 rest (String c0 sep') (cur ++ pre).
Proof.
  induction pre as [|c pre IH]; intros rest cur Hpre.
  - rewrite append_nil_l, append_nil_r. reflexivity.
  - cbn [contains_byte] in Hpre. apply orb_false_iff in Hpre as [Hc Hpre].
    rewrite append_cons. cbn [split_loop]. unfold HasPrefix. cbn [CutPrefix].
    rewrite Hc, IH by exact Hpre. rewrite append_assoc. reflexivity.
Qed.

Lemma split_loop_skip (p : string) :
  forall s sep cur, split_loop (String.length p) (p ++ s) sep cur = split_loop 0 s sep cur.
Proof.
  induction p as [|c p IH]; intros s sep cur.
  - rewrite append_nil_l. destruct s; reflexivity.
  - rewrite append_cons. cbn [String.length split_loop]. apply IH.
Qed.

Lemma split_loop_head (s sep : string) :
  forall cur, exists t u more, s = t ++ u /\ split_loop 0 s sep cur = (cur ++ t) :: more.
Proof.
  induction s as [|c s IH]; intros cur.
  - exists "", "", []. rewrite (append_nil_r cur). split; reflexivity.
  - cbn [split_loop]. destruct (HasPrefix (String c s) sep).
    + exists "", (String c s). eexists. rewrite (append_nil_r cur). split; reflexivity.
    + destruct (IH (cur ++ String c "")) as (t & u & more & Hs & Hsplit).
      exists (String c t), u, more. rewrite Hsplit, append_assoc, append_cons, Hs.
      split; reflexivity.
Qed.

Lemma Split_before_comma (s : string) :
  forall cur, exists more, split_loop 0 s "," cur = (cur ++ (Cut s ",").1.1) :: more.
Proof.
  induction s as [|c s IH]; intros cur.
  - exists []. rewrite append_nil_r. reflexivity.
  - cbn [split_loop Cut]. unfold HasPrefix. cbn [CutPrefix].
    rewrite (Ascii.eqb_sym "," c), CutPrefix_empty. destruct (Ascii.eqb c ",").
    + eexists. cbn [fst]. rewrite (append_nil_r cur). reflexivity.
    + destruct (IH (cur ++ String c "")) as [more Hsplit]. exists more.
      rewrite Hsplit, append_assoc. destruct (Cut s ",") as [[before after] found].
      reflexivity.
Qed.

(** The hosts of a URL written scheme://hosts or scheme://hosts/path. *)
Lemma hosts_of_url (pre hosts tail : string) :
  contains_byte "/" pre = false ->
  contains_byte "/" hosts = false ->
  tail = "" \/ HasPrefix tail "/" = true ->
  hosts_of (pre ++ "://" ++ hosts ++ tail) = Returned (Split hosts ",").
Proof.
  intros Hpre Hhosts Htail. unfold hosts_of.
  assert (Hfirst : exists t u more,
             tail = t ++ u
             /\ Split (pre ++ "://" ++ hosts ++ tail) "//" = (pre ++ ":") :: (hosts ++ t) :: more).
  { unfold Split. rewrite split_loop_pass by exact Hpre. rewrite append_nil_l.
    change ("://" ++ hosts ++ tail)
      with (String ":" (String "/" (String "/" (hosts ++ tail)))).
    cbn [split_loop]. unfold HasPrefix.
    cbn [CutPrefix Ascii.eqb Bool.eqb String.length Nat.sub].
    rewrite CutPrefix_empty. cbn [split_loop].
    rewrite split_loop_pass by exact Hhosts. rewrite append_nil_l.
    destruct (split_loop_head tail "//" hosts) as (t & u & more & Ht & Hsplit).
    exists t, u, more. rewrite Hsplit. split; [exact Ht|reflexivity]. }
  destruct Hfirst as (t & u & more & Ht & ->). cbn [index lookup list_lookup].
  unfold Split at 1. rewrite split_loop_pass by exact Hhosts. rewrite append_nil_l.
  destruct t as [|c t]; [reflexivity|].
  assert (Hc : c = "/"%char).
  { destruct Htail as [->|Hslash]; [discriminate|]. subst tail.
    rewrite append_cons in Hslash. unfold HasPrefix in Hslash. cbn [CutPrefix] in Hslash.
    destruct (Ascii.eqb "/" c) eqn:Hc; [|discriminate].
    apply Ascii.eqb_eq in Hc. congruence. }
  subst c. cbn [split_loop]. unfold HasPrefix. cbn [CutPrefix Ascii.eqb Bool.eqb].
  rewrite CutPrefix_empty. reflexivity.
Qed.

(** ** The Redis client *)

Section RedisClientProperties.
Variable parseURL : string -> error + RedisURL.

Lemma built_outcome (c : Outcome UniversalClient) :
  (exists u, built c = Returned (Some u, None)) \/ (exists msg, built c = Panicked msg).
Proof. destruct c as [u|msg]; [left|right]; eexists; reflexivity. Qed.

(** X21: [NewRedisClientFromURL] returns an error exactly when [url.Parse]
    rejects the cleaned URL, and the error is the wrapped parse error; the
    error for an invalid URL is never returned, since splitting the host
    always gives at least one address.  A call never returns a client
    together with an error, nor neither. *)
Theorem NewRedisClientFromURL_errors (rawURL : string) :
  (forall err,
     snd (NewRedisClientFromURL parseURL rawURL) = Returned (None, Some err)
     <-> exists e, parseURL (cleanRedisURL rawURL) = inl e
                   /\ err = wrapError "parsed error to : " e)
  /\ (forall u e, snd (NewRedisClientFromURL parseURL rawURL) <> Returned (Some u, Some e))
  /\ snd (NewRedisClientFromURL parseURL rawURL) <> Returned (None, None).
Proof.
  unfold NewRedisClientFromURL.
  destruct (parseURL (cleanRedisURL rawURL)) as [e|parsed]; cbn [snd].
  - split; [|split; [intros u e'|]; discriminate].
    intros err. split.
    + intros [= <-]. exists e. split; reflexivity.
    + intros (e' & [= <-] & ->). reflexivity.
  - assert (Hbuilt : forall c : Outcome UniversalClient,
              (forall err, built c = Returned (None, Some err)
                           <-> exists e : error, @inr error RedisURL parsed = inl e
                                 /\ err = wrapError "parsed error to : " e)
              /\ (forall u e, built c <> Returned (Some u, Some e))
              /\ built c <> Returned (None, None)).
    { intros c. split; [|split].
      - intros err. split.
        + destruct c; discriminate.
        + intros (e & He & _). discriminate.
      - intros u e. destruct c; discriminate.
      - destruct c; discriminate. }
    destruct (String.eqb (Scheme (Located parsed)) "redis"); cbn [snd]; [apply Hbuilt|].
    destruct (String.eqb _ "redis+sentinel" || String.eqb _ "sentinel");
      cbn [snd]; [apply Hbuilt|].
    destruct (String.eqb _ "redis+cluster" || String.eqb _ "cluster");
      cbn [snd]; [apply Hbuilt|].
    destruct (length (extractAddrs parsed) =? 0)%nat eqn:Hlen; cbn [snd]; [|apply Hbuilt].
    exfalso. apply Nat.eqb_eq in Hlen. unfold extractAddrs, Split in Hlen.
    destruct (split_loop 0 (Host (Located parsed)) "," "") eqn:Hsplit; [|discriminate].
    exact (split_loop_nonempty _ _ _ _ Hsplit).
Qed.

(** X22: for the sentinel and cluster schemes the hosts are taken from the
    raw URL after its first double slash; a raw URL without a double slash
    makes the call panic with an index out of range. *)
Theorem special_scheme_without_slashes_panics (rawURL : string) (parsed : RedisURL) :
  parseURL (cleanRedisURL rawURL) = inr parsed ->
  Scheme (Located parsed) ∈ ["redis+sentinel"; "sentinel"; "redis+cluster"; "cluster"] ->
  Contains rawURL "//" = false ->
  snd (NewRedisClientFromURL parseURL rawURL) = Panicked (index_out_of_range 1 1).
Proof.
  intros Hparse Hscheme Hraw. unfold NewRedisClientFromURL. rewrite Hparse.
  assert (Hhosts : hosts_of rawURL = Panicked (index_out_of_range 1 1)).
  { unfold hosts_of, Split. rewrite split_loop_without by exact Hraw. reflexivity. }
  repeat (apply elem_of_cons in Hscheme as [->|Hscheme]);
    [| | | |inversion Hscheme]; cbn [String.eqb Ascii.eqb Bool.eqb orb snd];
    unfold createSentinelClient, createClusterClient; rewrite Hhosts; reflexivity.
Qed.

(** X23: every scheme other than the sentinel and cluster ones, the empty
    scheme included, gives a standalone client on database 0 whose address
    is the host up to its first comma: further hosts are dropped and an
    empty host is accepted. *)
Theorem other_schemes_are_standalone (rawURL : string) (parsed : RedisURL) :
  parseURL (cleanRedisURL rawURL) = inr parsed ->
  Scheme (Located parsed) ∉ ["redis+sentinel"; "sentinel"; "redis+cluster"; "cluster"] ->
  NewRedisClientFromURL parseURL rawURL
  = ([], Returned (Some (NewClient (Cut (Host (Located parsed)) ",").1.1
                           (extractPassword parsed) 0 poolOptions), None)).
Proof.
  intros Hparse Hscheme. unfold NewRedisClientFromURL. rewrite Hparse.
  assert (Hclient : built (createRedisClient (extractAddrs parsed) (extractPassword parsed) 0)
                    = Returned (Some (NewClient (Cut (Host (Located parsed)) ",").1.1
                                        (extractPassword parsed) 0 poolOptions), None)).
  { unfold createRedisClient, extractAddrs, Split.
    destruct (Split_before_comma (Host (Located parsed)) "") as [more ->].
    rewrite append_nil_l. reflexivity. }
  assert (Hlen : (length (extractAddrs parsed) =? 0)%nat = false).
  { unfold extractAddrs, Split.
    destruct (Split_before_comma (Host (Located parsed)) "") as [more ->]. reflexivity. }
  rewrite Hclient, Hlen.
  destruct (String.eqb (Scheme (Located parsed)) "redis"); [reflexivity|].
  destruct (String.eqb _ "redis+sentinel") eqn:H1;
    [apply String.eqb_eq in H1; exfalso; apply Hscheme; rewrite H1; set_solver|].
  destruct (String.eqb _ "sentinel") eqn:H2;
    [apply String.eqb_eq in H2; exfalso; apply Hscheme; rewrite H2; set_solver|].
  destruct (String.eqb _ "redis+cluster") eqn:H3;
    [apply String.eqb_eq in H3; exfalso; apply Hscheme; rewrite H3; set_solver|].
  destruct (String.eqb _ "cluster") eqn:H4;
    [apply String.eqb_eq in H4; exfalso; apply Hscheme; rewrite H4; set_solver|].
  reflexivity.
Qed.

(** X24: a cluster URL written scheme://hosts or scheme://hosts/path gives
    a cluster client whose addresses are the text between the double slash
    and the next slash, split at the commas; user information before the
    hosts is not removed from that text. *)
Theorem cluster_addresses (rawURL : string) (parsed : RedisURL) (pre hosts tail : string) :
  parseURL (cleanRedisURL rawURL) = inr parsed ->
  Scheme (Located parsed) ∈ ["redis+cluster"; "cluster"] ->
  rawURL = pre ++ "://" ++ hosts ++ tail ->
  contains_byte "/" pre = false ->
  contains_byte "/" hosts = false ->
  tail = "" \/ HasPrefix tail "/" = true ->
  NewRedisClientFromURL parseURL rawURL
  = (["connect into redis cluster"],
     Returned (Some (NewClusterClient (Split hosts ",") (extractPassword parsed) poolOptions),
               None)).
Proof.
  intros Hparse Hscheme Hraw Hpre Hhosts Htail. unfold NewRedisClientFromURL.
  rewrite Hparse. unfold createClusterClient.
  rewrite Hraw at 2. rewrite (hosts_of_url pre hosts tail Hpre Hhosts Htail).
  repeat (apply elem_of_cons in Hscheme as [->|Hscheme]); [| |inversion Hscheme];
    reflexivity.
Qed.

End RedisClientProperties.

Lemma special_scheme_without_slashes_panics_witness :
  snd (NewRedisClientFromURL simple_parse "cluster:h1:6379,h2:6379")
  = Panicked (index_out_of_range 1 1).
Proof.
  apply (special_scheme_without_slashes_panics simple_parse "cluster:h1:6379,h2:6379"
           (mkRedisURL (mkURL "cluster" "" "" "" "") None)).
  - reflexivity.
  - do 3 right. left.
  - reflexivity.
Defined.

Lemma other_schemes_are_standalone_witness :
  NewRedisClientFromURL simple_parse "redis://cache:6379,other:6379"
  = ([], Returned (Some (NewClient "cache:6379" "" 0 poolOptions), None)).
Proof.
  apply (other_schemes_are_standalone simple_parse "redis://cache:6379,other:6379"
           (mkRedisURL (mkURL "redis" "cache:6379,other:6379" "" "" "") None)).
  - reflexivity.
  - intros Hin. repeat (apply elem_of_cons in Hin as [Hin|Hin]; [discriminate Hin|]).
    inversion Hin.
Defined.

Lemma cluster_addresses_witness :
  NewRedisClientFromURL simple_parse "redis+cluster://h1:6379,h2:6379/0"
  = (["connect into redis cluster"],
     Returned (Some (NewClusterClient ["h1:6379"; "h2:6379"] "" poolOptions), None)).
Proof.
  apply (cluster_addresses simple_parse "redis+cluster://h1:6379,h2:6379/0"
           (mkRedisURL (mkURL "redis+cluster" "h1:6379,h2:6379" "/0" "" "") None)
           "redis+cluster" "h1:6379,h2:6379" "/0").
  - reflexivity.
  - left.
  - reflexivity.
  - reflexivity.
  - reflexivity.
  - right. reflexivity.
Defined.

(** ** The recommended pipeline *)

Section RecommendedPipeline.
Context {W : Type}.
Variable time_Now : W -> Z.
Variable encode : LogEvent -> string.
Variable range : gmap string string -> list (string * string).
Variable DefaultTransport : RoundTripper W.
Hypothesis range_visits_all : forall m, range m ≡ₚ map_to_list m.

Lemma range_empty : range ∅ = [].
Proof.
  apply Permutation_nil_r. rewrite range_visits_all, map_to_list_empty. reflexivity.
Qed.

(** X25: a cache hit in the pipeline in the recommended order (logging,
    headers, cache, breaker).  The key is that of the request with the
    configured headers set on it; when the store holds a record under it,
    the caller gets the response rebuilt from the record, the logger writes
    one line, of level info, with the record's status, the time the lookup
    took and the cache field HIT, and neither the breaker nor the base
    transport is called: no breaker line is written and the world is as the
    lookup left it. *)
Theorem recommended_pipeline_hit (service breaker : string) (hs : gmap string string)
    (cfg : CacheConfig W) (req : Request) (s : St W) (redis : IRedisClient W)
    (sc : SerializableCache) (w : W) :
  let sent := mkRequest (Method req) (ReqURL req) (set_each (range hs) (ReqHeader req))
                        (ReqContext req) in
  RedisClient cfg = Some redis ->
  Method req = "GET" ->
  Get redis (ReqContext req) (getCacheKey sent (Headers cfg)) (world s)
  = ((JSONText sc, None), w) ->
  exists t,
    configMiddlewares DefaultTransport
      [Some (NewLoggingMiddleware time_Now encode service);
       Some (NewHeaderMiddleware range hs);
       Some (NewCacheMiddleware cfg);
       Some (NewCircuitBreakerMiddleware time_Now breaker)]
    = Returned t
    /\ t req s
       = (Returned (Some (cachedResponse sc), None),
          mkSt w (goroutines s)
            (logged s
             ++ [encode (mkLogEvent InfoLevel service "GET" (URL_String (ReqURL req))
                           (CachedStatusCode sc)
                           (Milliseconds (time_Now w - time_Now (world s)))
                           (Some "HIT") (CachedStatus sc))])).
Proof.
  intros sent Hredis Hget Hstore. eexists. split.
  - apply (configMiddlewares_nested DefaultTransport
             [NewLoggingMiddleware time_Now encode service; NewHeaderMiddleware range hs;
              NewCacheMiddleware cfg; NewCircuitBreakerMiddleware time_Now breaker]).
  - cbn [nested fold_right]. unfold NewLoggingMiddleware, NewHeaderMiddleware.
    assert (Hsent : with_request_header req
                      (if negb (size hs =? 0)%nat
                       then set_each (range hs) (ReqHeader req) else ReqHeader req)
                    = sent).
    { destruct (size hs =? 0)%nat eqn:Hsize; cbn [negb]; [|reflexivity].
      apply Nat.eqb_eq, map_size_empty_iff in Hsize. subst hs sent.
      rewrite range_empty. reflexivity. }
    cbv zeta. rewrite Hsent. unfold mbind at 1, M_bind at 1. cbn [read_world].
    unfold mbind at 1, M_bind at 1.
    rewrite NewCacheMiddleware_paths. unfold cache_path.
    rewrite Hredis. subst sent. cbn [Method ReqContext]. rewrite Hget in Hstore |- *.
    cbn [String.eqb Ascii.eqb Bool.eqb negb]. rewrite Hstore.
    unfold mbind, M_bind, read_world, log, mret, M_ret.
    cbn [world goroutines logged RespHeader StatusCode Status cachedResponse].
    rewrite Header_Get_Set. reflexivity.
Qed.

End RecommendedPipeline.

Lemma recommended_pipeline_hit_witness :
  exists t,
    configMiddlewares (upstream ∅ (Readable "[]"))
      [Some (NewLoggingMiddleware clock ev_message "client");
       Some (NewHeaderMiddleware map_to_list ∅);
       Some (NewCacheMiddleware (scenarioB_cfg false));
       Some (NewCircuitBreakerMiddleware clock "svc")]
    = Returned t
    /\ t (items_request Background) warm
       = (Returned (Some (cachedResponse items_record), None),
          mkSt warm_world (goroutines warm)
            (logged warm
             ++ [ev_message (mkLogEvent InfoLevel "client" "GET"
                               (URL_String (ReqURL (items_request Background)))
                               (CachedStatusCode items_record)
                               (Milliseconds (clock warm_world - clock (world warm)))
                               (Some "HIT") (CachedStatus items_record))])).
Proof.
  apply (recommended_pipeline_hit clock ev_message map_to_list (upstream ∅ (Readable "[]"))
           (fun m => Permutation_refl _) "client" "svc" ∅ (scenarioB_cfg false)
           (items_request Background) warm (scriptRedis ∅) items_record warm_world).
  - reflexivity.
  - reflexivity.
  - vm_compute. reflexivity.
Defined.

(** ** Logging over the breaker *)

Section LoggingOverBreaker.
Context {W : Type}.
Variable time_Now : W -> Z.
Variable encode : LogEvent -> string.

(** X26: what the logger records when the breaker rejects a response.
    With the logging middleware around the breaker, a response with status
    500 or more, or 429, reaches the caller as an [HTTPStatusError] with a
    nil response, and the one line written has level error and the status
    500 whatever the status of the response was: that status appears in the
    message only. *)
Theorem rejected_response_is_logged_as_500 (service name : string)
    (next : RoundTripper W) (req : Request) (s s' : St W) (r : Response) :
  next req s = (Returned (Some r, None), s') ->
  500 <= StatusCode r \/ StatusCode r = 429 ->
  NewLoggingMiddleware time_Now encode service
    (NewCircuitBreakerMiddleware time_Now name next) req s
  = (Returned (None, Some (HTTPStatusError (StatusCode r) (errorString "HTTP error"))),
     mkSt (world s') (goroutines s')
       (logged s'
        ++ [encode (mkLogEvent ErrorLevel service (Method req) (URL_String (ReqURL req))
                      500 (Milliseconds (time_Now (world s') - time_Now (world s))) None
                      ("HTTP status " ++ Itoa (StatusCode r) ++ ": HTTP error"))])).
Proof.
  intros Hnext Hcode. unfold NewLoggingMiddleware.
  unfold mbind at 1, M_bind at 1. cbn [read_world].
  unfold mbind at 1, M_bind at 1.
  rewrite breaker_never_rejects.
  assert (Hguarded : guarded next req s
                     = (Returned (None, Some (HTTPStatusError (StatusCode r)
                                                (errorString "HTTP error"))), s')).
  { unfold guarded, mbind, M_bind. rewrite Hnext.
    replace ((500 <=? StatusCode r) || (StatusCode r =? 429)) with true; [reflexivity|].
    symmetry. apply orb_true_iff.
    destruct Hcode as [H|H]; [left; apply Z.leb_le|right; apply Z.eqb_eq]; exact H. }
  rewrite Hguarded. reflexivity.
Qed.

End LoggingOverBreaker.

Lemma rejected_response_is_logged_as_500_witness :
  NewLoggingMiddleware clock ev_message "client"
    (NewCircuitBreakerMiddleware clock "svc" (upstream ∅ (Readable "busy")))
    (items_request Background) (start [429])
  = (Returned (None, Some (HTTPStatusError 429 (errorString "HTTP error"))),
     mkSt (world (answered [])) (goroutines (answered []))
       (logged (answered []) ++ ["HTTP status 429: HTTP error"])).
Proof.
  apply (rejected_response_is_logged_as_500 clock ev_message "client" "svc"
           (upstream ∅ (Readable "busy")) (items_request Background) (start [429])
           (answered []) (plain_response 429 ∅ (Readable "busy"))).
  - reflexivity.
  - right. reflexivity.
Defined.

(** ** The cache middleware and a store that fails *)

Section StoreFailures.
Context {W : Type}.
Implicit Types (cfg : CacheConfig W) (next : RoundTripper W) (s : St W).

(** X27: an entry that does not decode is left where it is.  When the store
    answers a GET with a text that is not a record, the middleware writes
    one line and hands the request to the inner chain; what the chain
    returns is returned as it is, without the X-Cache header, and no write
    to the store is started, so the entry is met again on the next
    request. *)
Theorem undecodable_entry_is_not_replaced cfg next req s (redis : IRedisClient W)
    (e : error) (w : W) :
  RedisClient cfg = Some redis ->
  Method req = "GET" ->
  Get redis (ReqContext req) (getCacheKey req (Headers cfg)) (world s)
  = ((Undecodable e, None), w) ->
  NewCacheMiddleware cfg next req s
  = next req (mkSt w (goroutines s)
                (logged s ++ ["Error deserializing cached response"])).
Proof.
  intros Hredis Hget Hstore. rewrite NewCacheMiddleware_paths. unfold cache_path.
  rewrite Hredis, Hget, Hstore. reflexivity.
Qed.

(** X28: a store that fails does not fail the request.  When the lookup
    returns an error, the request is handled as a miss: a 2xx response of
    the inner chain is returned to the caller with its body, marked
    X-Cache: MISS, with a nil error, and one write is started; when that
    write fails in its turn, running it adds one line to the log and
    nothing else. *)
Theorem store_failure_is_a_miss cfg next req s s2 (redis : IRedisClient W)
    (value : StoredText) (e e' : error) (w w' : W) (resp : Response) (body : string) :
  RedisClient cfg = Some redis ->
  Method req = "GET" ->
  Get redis (ReqContext req) (getCacheKey req (Headers cfg)) (world s)
  = ((value, Some e), w) ->
  next req (mkSt w (goroutines s) (logged s)) = (Returned (Some resp, None), s2) ->
  is_2xx resp = true ->
  RespBody resp = Readable body ->
  exists (miss : Response) (t : SetTask),
    NewCacheMiddleware cfg next req s = (Returned (Some miss, None), spawn s2 t)
    /\ StatusCode miss = StatusCode resp
    /\ RespBody miss = Readable body
    /\ Header_Get (RespHeader miss) "X-Cache" = "MISS"
    /\ (Set_ redis (task_ctx t) (task_key t) (task_value t) (task_ttl t) (world s2)
        = (Some e', w') ->
        runSetTask redis t (spawn s2 t)
        = (Returned tt,
           mkSt w' (goroutines (spawn s2 t)) (logged s2 ++ ["Error saving to cache"]))).
Proof.
  intros Hredis Hget Hstore Hnext H2xx Hbody.
  assert (Hpath : cache_path cfg req s = (Miss, mkSt w (goroutines s) (logged s))).
  { unfold cache_path. rewrite Hredis, Hget, Hstore. destruct value; reflexivity. }
  do 2 eexists. split; [apply (miss_2xx _ _ _ _ _ _ _ _ Hpath Hnext H2xx Hbody)|].
  repeat split.
  - apply Header_Get_Set.
  - intros Hset. unfold runSetTask, mbind, M_bind, on_world.
    cbn [task_ctx task_key task_value task_ttl spawn world] in *.
    rewrite Hset. reflexivity.
Qed.

End StoreFailures.

Lemma undecodable_entry_is_not_replaced_witness :
  NewCacheMiddleware (scenarioB_cfg false) (upstream cc60 (Readable "[]"))
    (items_request Background) corrupt
  = upstream cc60 (Readable "[]") (items_request Background)
      (mkSt corrupt_world (goroutines corrupt)
         (logged corrupt ++ ["Error deserializing cached response"])).
Proof.
  apply (undecodable_entry_is_not_replaced (scenarioB_cfg false)
           (upstream cc60 (Readable "[]")) (items_request Background) corrupt
           (scriptRedis ∅)
           (errorString "invalid character 'x' looking for beginning of value")
           corrupt_world).
  - reflexivity.
  - reflexivity.
  - vm_compute. reflexivity.
Defined.

Lemma store_failure_is_a_miss_witness :
  exists (miss : Response) (t : SetTask),
    NewCacheMiddleware failing_store_cfg (upstream cc60 (Readable "[]"))
      (items_request caller_ctx) (start [200])
    = (Returned (Some miss, None), spawn (answered []) t)
    /\ StatusCode miss = StatusCode (plain_response 200 cc60 (Readable "[]"))
    /\ RespBody miss = Readable "[]"
    /\ Header_Get (RespHeader miss) "X-Cache" = "MISS"
    /\ (Set_ (scriptRedis {[1%nat]}) (task_ctx t) (task_key t) (task_value t) (task_ttl t)
          (world (answered []))
        = (Some (errorString "context canceled"), world (answered [])) ->
        runSetTask (scriptRedis {[1%nat]}) t (spawn (answered []) t)
        = (Returned tt,
           mkSt (world (answered [])) (goroutines (spawn (answered []) t))
             (logged (answered []) ++ ["Error saving to cache"]))).
Proof.
  apply (store_failure_is_a_miss failing_store_cfg (upstream cc60 (Readable "[]"))
           (items_request caller_ctx) (start [200]) (answered []) (scriptRedis {[1%nat]})
           EmptyText (errorString "redis: nil") (errorString "context canceled")
           (world (start [200])) (world (answered []))
           (plain_response 200 cc60 (Readable "[]")) "[]").
  - reflexivity.
  - reflexivity.
  - vm_compute. reflexivity.
  - reflexivity.
  - reflexivity.
  - reflexivity.
Defined.

(** ** Clients built by the constructor *)

Section BuiltClients.
Context {W : Type}.
Variable range : gmap string string -> list (string * string).
Variable DefaultTransport : RoundTripper W.
Variable Value_forwardedHeaders : Context -> option (gmap string string).
Hypothesis range_visits_all : forall m, range m ≡ₚ map_to_list m.

(** X29: a client built by [NewHTTPClient] has no headers of its own: the
    constructor leaves the map empty, so on its requests a header that is
    not forwarded keeps the value the request had, the default Content-Type
    of a POST apart; headers for every request can come from the header
    middleware only.  The client carries the base URL and the timeout
    given. *)
Theorem built_client_has_no_headers (baseUrl : string) (timeout : Z)
    (middlewares : list (option (RoundTripperMiddleware W))) (c : HTTPClient W) :
  NewHTTPClient DefaultTransport baseUrl timeout middlewares = Returned c ->
  baseURL c = baseUrl
  /\ Timeout (client c) = timeout
  /\ forall ctx method (h : Header) name,
       (forall k, is_Some (getForwardedHeaders Value_forwardedHeaders ctx !! k) ->
                  CanonicalMIMEHeaderKey k <> CanonicalMIMEHeaderKey name) ->
       CanonicalMIMEHeaderKey name <> "Content-Type" \/ method <> "POST" ->
       Header_Get (requestHeader range Value_forwardedHeaders c ctx method h) name
       = Header_Get h name.
Proof.
  unfold NewHTTPClient.
  destruct (configMiddlewares DefaultTransport middlewares) as [t|msg]; [|discriminate].
  intros [= <-]. split; [reflexivity|]. split; [reflexivity|].
  intros ctx method h name Hfwd Hcase. rewrite requestHeader_unfold.
  cbn [headers]. rewrite (range_empty range range_visits_all). cbv zeta.
  change (set_each [] ?x) with x.
  set (h2 := set_each _ h).
  assert (Hget : Header_Get h2 name = Header_Get h name).
  { unfold Header_Get, h2.
    rewrite (set_each_range_other range range_visits_all) by exact Hfwd. reflexivity. }
  destruct (String.eqb method "POST") eqn:Hm; cbn [andb]; [|exact Hget].
  destruct (String.eqb (Header_Get h2 "Content-Type") ""); [|exact Hget].
  apply String.eqb_eq in Hm. rewrite Header_Get_Set_ne; [exact Hget|].
  change (CanonicalMIMEHeaderKey "Content-Type") with "Content-Type".
  destruct Hcase as [H|H]; [congruence|contradiction].
Qed.

End BuiltClients.

Lemma built_client_has_no_headers_witness :
  baseURL (mkHTTPClient (mk_http_Client 30 (upstream ∅ (Readable "[]")))
             "https://api.example.com" ∅)
  = "https://api.example.com"
  /\ Timeout (client (mkHTTPClient (mk_http_Client 30 (upstream ∅ (Readable "[]")))
                        "https://api.example.com" ∅))
     = 30
  /\ forall ctx method (h : Header) name,
       (forall k, is_Some (getForwardedHeaders forwarded_ctx ctx !! k) ->
                  CanonicalMIMEHeaderKey k <> CanonicalMIMEHeaderKey name) ->
       CanonicalMIMEHeaderKey name <> "Content-Type" \/ method <> "POST" ->
       Header_Get (requestHeader map_to_list forwarded_ctx
                     (mkHTTPClient (mk_http_Client 30 (upstream ∅ (Readable "[]")))
                        "https://api.example.com" ∅) ctx method h) name
       = Header_Get h name.
Proof.
  apply (built_client_has_no_headers map_to_list (upstream ∅ (Readable "[]"))
           forwarded_ctx (fun m => Permutation_refl _) "https://api.example.com" 30 []).
  reflexivity.
Defined.
